(** * Condition evaluation and forward-return backtesting

    A shallow embedding of [src/conditions.py] and [src/backtest.py]:
    the condition tree and its evaluation over a price/indicator table,
    the text-condition parser, and the backtest analyzer with its
    statistics.

    Conventions of the embedding.
    - A Python [float] (and a numpy [float64]) is a primitive binary64
      float; comparisons, subtraction, division and square root are the
      IEEE operations, so infinities and NaN behave as in the program.
    - A pandas [DataFrame] is its index (timestamps) and its named columns;
      a boolean [Series] produced over a frame is the list of its values,
      aligned by position with the frame's index.
    - Timestamps are integers (nanoseconds since the epoch).  The finite
      range of their 64-bit representation is not modelled: where a
      property lets the holding period vary, it is stated for the holding
      periods that can be added to the timestamps of the table.
    - A raised exception is a value of [exn]; code that may raise returns
      a [result].  The module-level logger is a state threaded through the
      analyzer's methods. *)

From Stdlib Require Import ZArith String Ascii Bool Lia PeanoNat.
From Stdlib Require Import Decimal DecimalString.
From Stdlib Require Import Floats Uint63.
From Stdlib Require Import List Sorted Permutation.
Import ListNotations.

Set Warnings "-inexact-float,-register-all".
Local Open Scope string_scope.
Local Open Scope list_scope.

(* ================================================================== *)
(** * Part I: definitions *)
(* ================================================================== *)

(** ** Strings as Python prints them *)

(** [c in s] *)
Definition has_char (c : ascii) (s : string) : bool :=
  existsb (Ascii.eqb c) (list_ascii_of_string s).

(** A hexadecimal digit, in lower case. *)
Definition hex_digit (n : nat) : ascii :=
  ascii_of_nat (if Nat.ltb n 10 then 48 + n else 87 + n).

(** [repr(s)] for a string: between single quotes, or between double
    quotes when the string holds a single quote and no double quote; the
    backslash and the quote in use are escaped, tab, newline and carriage
    return are written [\t], [\n] and [\r], and the other control
    characters of ASCII as [\x] and two hexadecimal digits.  Characters
    beyond ASCII are kept as they are, as [repr] does for printable ones. *)
Definition repr_char (quote c : ascii) : string :=
  let n := nat_of_ascii c in
  if Ascii.eqb c quote || Ascii.eqb c "\" then String "\" (String c "")
  else if Nat.eqb n 9 then "\t"
  else if Nat.eqb n 10 then "\n"
  else if Nat.eqb n 13 then "\r"
  else if Nat.ltb n 32 || Nat.eqb n 127 then
    String "\" (String "x" (String (hex_digit (n / 16))
                              (String (hex_digit (n mod 16)) "")))
  else String c "".

Definition repr_str (s : string) : string :=
  let quote : ascii :=
    if has_char "'" s && negb (has_char "034" s) then "034"%char
    else "'"%char in
  String quote
    (String.concat "" (map (repr_char quote) (list_ascii_of_string s))
     ++ String quote "").

(** ** Exceptions and results *)

Inductive exn : Type :=
| ValueError (msg : string)
| KeyError (msg : string)
| OtherException (cls msg : string).

(** [str(e)]: the message of the exception; for a [KeyError], the [repr] of
    the key. *)
Definition str_exn (e : exn) : string :=
  match e with
  | ValueError m => m
  | KeyError key => repr_str key
  | OtherException _ m => m
  end.

Inductive result (A : Type) : Type :=
| Ok (a : A)
| Raise (e : exn).
Arguments Ok {A} a.
Arguments Raise {A} e.

Definition rbind {A B} (r : result A) (k : A -> result B) : result B :=
  match r with
  | Ok a => k a
  | Raise e => Raise e
  end.

Definition is_ok {A} (r : result A) : bool :=
  match r with Ok _ => true | Raise _ => false end.

Declare Scope result_scope.
Delimit Scope result_scope with res.
Notation "x <- r ;; k" := (rbind r (fun x => k))
  (at level 61, r at next level, right associativity) : result_scope.

(** ** Floats *)

Definition float_of_nat (n : nat) : float :=
  PrimFloat.of_uint63 (Uint63.of_Z (Z.of_nat n)).

(** An integer as a float (exact below 2^53 in absolute value). *)
Definition float_of_Z (z : Z) : float :=
  if (z <? 0)%Z then PrimFloat.opp (PrimFloat.of_uint63 (Uint63.of_Z (- z)))
  else PrimFloat.of_uint63 (Uint63.of_Z z).

(** A float is finite when it is neither an infinity nor NaN. *)
Definition is_finite (x : float) : bool :=
  match Prim2SF x with
  | S754_zero _ | S754_finite _ _ _ => true
  | S754_infinity _ | S754_nan => false
  end.

(** A float is a zero when it is [0.0] or [-0.0]. *)
Definition is_zero (x : float) : bool :=
  match Prim2SF x with
  | S754_zero _ => true
  | _ => false
  end.

(** ** The time series table *)

Definition Timestamp := Z.

Definition ns_per_day : Z := 86400000000000.

(** The length of [days] days, in nanoseconds. *)
Definition days_ns (days : Z) : Z := (days * ns_per_day)%Z.

(** [str(z)] for an integer. *)
Definition str_Z (z : Z) : string := NilZero.string_of_int (Z.to_int z).

(** [timedelta(days=d)]: the duration, or the [OverflowError] of the
    constructor, which accepts at most 999999999 days in either direction.
    Its message depends on whether the number of days fits the 32-bit
    integer the constructor converts it to. *)
Definition timedelta (days : Z) : result Z :=
  if (Z.abs days <=? 999999999)%Z then Ok (days_ns days)
  else if ((- 2 ^ 31 <=? days) && (days <? 2 ^ 31))%Z then
    Raise (OtherException "OverflowError"
             ("days=" ++ str_Z days ++ "; must have magnitude <= 999999999"))
  else
    Raise (OtherException "OverflowError"
             "Python int too large to convert to C int").

Record DataFrame : Type := mkDataFrame {
  index : list Timestamp;
  columns : list (string * list float)
}.

Definition column_names (data : DataFrame) : list string :=
  map fst (columns data).

(** [c in data.columns] *)
Definition has_column (data : DataFrame) (c : string) : bool :=
  existsb (String.eqb c) (column_names data).

(** [data.empty]: some axis has length 0. *)
Definition empty (data : DataFrame) : bool :=
  (length (index data) =? 0)%nat || (length (columns data) =? 0)%nat.

Fixpoint lookup_column (cols : list (string * list float)) (c : string)
  : option (list float) :=
  match cols with
  | [] => None
  | (name, values) :: rest =>
      if String.eqb c name then Some values else lookup_column rest c
  end.

(** [data[c]], for a column known to be present *)
Definition get_column (data : DataFrame) (c : string) : list float :=
  match lookup_column (columns data) c with
  | Some values => values
  | None => []
  end.

(** [t in data.index] *)
Definition in_index (data : DataFrame) (t : Timestamp) : bool :=
  existsb (Z.eqb t) (index data).

Fixpoint position (t : Timestamp) (idx : list Timestamp) : option nat :=
  match idx with
  | [] => None
  | t' :: rest =>
      if (t =? t')%Z then Some 0%nat
      else match position t rest with
           | Some i => Some (S i)
           | None => None
           end
  end.

(** [data.loc[t, c]] for a label [t] that the index holds once, as in every
    well-formed table: the value of column [c] at the row of [t].  (For a
    label the index repeats, pandas returns the values of all its rows; the
    properties that read prices are stated over well-formed tables.) *)
Definition loc (data : DataFrame) (t : Timestamp) (c : string) : result float :=
  match position t (index data) with
  | None => Raise (KeyError "index")
  | Some i =>
      match lookup_column (columns data) c with
      | None => Raise (KeyError c)
      | Some values =>
          match nth_error values i with
          | Some v => Ok v
          | None => Raise (KeyError "index")
          end
      end
  end.

(** [data.iloc[-1][c]] *)
Definition iloc_last (data : DataFrame) (c : string) : result float :=
  match lookup_column (columns data) c with
  | None => Raise (KeyError c)
  | Some values =>
      match nth_error values (length (index data) - 1) with
      | Some v => Ok v
      | None => Raise (KeyError "index")
      end
  end.

(** The table invariant of the data model: timestamps strictly increasing
    (hence unique), column names unique, every column as long as the index. *)
Record wf_table (data : DataFrame) : Prop := mk_wf_table {
  wf_sorted : StronglySorted Z.lt (index data);
  wf_names : NoDup (column_names data);
  wf_lengths :
    Forall (fun col => length (snd col) = length (index data)) (columns data)
}.

(** ** Conditions *)

Inductive ComparisonOperator : Type :=
| GREATER_THAN | GREATER_EQUAL | LESS_THAN | LESS_EQUAL | EQUAL | NOT_EQUAL.

Definition ComparisonOperator_value (op : ComparisonOperator) : string :=
  match op with
  | GREATER_THAN => ">"
  | GREATER_EQUAL => ">="
  | LESS_THAN => "<"
  | LESS_EQUAL => "<="
  | EQUAL => "=="
  | NOT_EQUAL => "!="
  end.

Inductive LogicOperator : Type := AND | OR | NOT.

Definition LogicOperator_value (op : LogicOperator) : string :=
  match op with
  | AND => "AND"
  | OR => "OR"
  | NOT => "NOT"
  end.

(** A condition's description: a text given by the caller, or the default
    text its constructor formats.  The formatted texts are kept as the data
    they are formatted from. *)
Inductive Description : Type :=
| Text (s : string)
| NumericText (column : string) (operator : ComparisonOperator) (value : float)
| CrossText (fast_col slow_col : string) (golden : bool)
| PatternText (pattern_name : string)
| JoinText (operator : LogicOperator) (parts : list Description).

Inductive Condition : Type :=
| NumericCompare (column : string) (operator : ComparisonOperator)
    (value : float) (description : Description)
| SignalCross (fast_col slow_col cross_type : string)
    (description : Description)
| TechnicalPattern (pattern_name : string)
    (pattern_func : DataFrame -> result (list bool))
    (description : Description)
| Logic (operator : LogicOperator) (conditions : list Condition)
    (description : Description).

Definition description (c : Condition) : Description :=
  match c with
  | NumericCompare _ _ _ d => d
  | SignalCross _ _ _ d => d
  | TechnicalPattern _ _ d => d
  | Logic _ _ d => d
  end.

(** The classes' constructors: an empty [description] argument is replaced
    by the default text. *)
Definition default_description (given : string) (dflt : Description)
  : Description :=
  if String.eqb given "" then dflt else Text given.

Definition NumericCompareCondition (column : string)
    (operator : ComparisonOperator) (value : float) (descr : string)
  : Condition :=
  NumericCompare column operator value
    (default_description descr (NumericText column operator value)).

Definition SignalCrossCondition (fast_col slow_col cross_type descr : string)
  : Condition :=
  SignalCross fast_col slow_col cross_type
    (default_description descr
       (CrossText fast_col slow_col (String.eqb cross_type "golden"))).

Definition TechnicalPatternCondition (pattern_name : string)
    (pattern_func : DataFrame -> result (list bool)) (descr : string)
  : Condition :=
  TechnicalPattern pattern_name pattern_func
    (default_description descr (PatternText pattern_name)).

Definition LogicCondition (operator : LogicOperator)
    (conditions : list Condition) (descr : string) : Condition :=
  Logic operator conditions
    (default_description descr (JoinText operator (map description conditions))).

(** *** Series operations *)

(** [series OP value], row by row *)
Definition compare (op : ComparisonOperator) (x value : float) : bool :=
  match op with
  | GREATER_THAN => PrimFloat.ltb value x
  | GREATER_EQUAL => PrimFloat.leb value x
  | LESS_THAN => PrimFloat.ltb x value
  | LESS_EQUAL => PrimFloat.leb x value
  | EQUAL => PrimFloat.eqb x value
  | NOT_EQUAL => negb (PrimFloat.eqb x value)
  end.

(** Element-wise binary operation on two aligned series *)
Definition map2 {A B C} (f : A -> B -> C) (l1 : list A) (l2 : list B)
  : list C :=
  map (fun p => f (fst p) (snd p)) (combine l1 l2).

(** [series.shift(1)]: every value moves one row down, the first row is NaN *)
Definition shift1 (l : list float) : list float :=
  match l with
  | [] => []
  | _ :: _ => PrimFloat.nan :: removelast l
  end.

(** [a > b] and friends on two float series *)
Definition series_gt (a b : list float) : list bool :=
  map2 (fun x y => PrimFloat.ltb y x) a b.
Definition series_ge (a b : list float) : list bool :=
  map2 (fun x y => PrimFloat.leb y x) a b.
Definition series_lt (a b : list float) : list bool :=
  map2 PrimFloat.ltb a b.
Definition series_le (a b : list float) : list bool :=
  map2 PrimFloat.leb a b.

Definition series_and (a b : list bool) : list bool := map2 andb a b.
Definition series_or (a b : list bool) : list bool := map2 orb a b.
Definition series_not (a : list bool) : list bool := map negb a.

(** [repr] of a list of column names, as an f-string prints it *)
Definition repr_list (l : list string) : string :=
  "[" ++ String.concat ", " (map repr_str l) ++ "]".

(** *** Evaluation *)

Definition evaluate_numeric (column : string) (operator : ComparisonOperator)
    (value : float) (data : DataFrame) : result (list bool) :=
  if negb (has_column data column) then
    Raise (ValueError ("数据中缺少列: " ++ column))
  else
    let series := get_column data column in
    Ok (map (fun x => compare operator x value) series).

Definition evaluate_cross (fast_col slow_col cross_type : string)
    (data : DataFrame) : result (list bool) :=
  let required_cols := [fast_col; slow_col] in
  let missing_cols :=
    filter (fun col => negb (has_column data col)) required_cols in
  match missing_cols with
  | _ :: _ => Raise (ValueError ("数据中缺少列: " ++ repr_list missing_cols))
  | [] =>
      let fast := get_column data fast_col in
      let slow := get_column data slow_col in
      if String.eqb cross_type "golden" then
        Ok (series_and (series_gt fast slow)
                       (series_le (shift1 fast) (shift1 slow)))
      else if String.eqb cross_type "death" then
        Ok (series_and (series_lt fast slow)
                       (series_ge (shift1 fast) (shift1 slow)))
      else Raise (ValueError ("不支持的交叉类型: " ++ cross_type))
  end.

Definition evaluate_pattern
    (pattern_func : DataFrame -> result (list bool)) (data : DataFrame)
  : result (list bool) :=
  match pattern_func data with
  | Ok s => Ok s
  | Raise e => Raise (ValueError ("技术形态检测失败: " ++ str_exn e))
  end.

(** The combination step of [LogicCondition.evaluate], once the children's
    results are known ([results] is not empty). *)
Definition combine_results (operator : LogicOperator)
    (n_conditions : nat) (results : list (list bool)) : result (list bool) :=
  match operator with
  | AND =>
      match results with
      | [] => Ok []
      | r0 :: rs => Ok (fold_left series_and rs r0)
      end
  | OR =>
      match results with
      | [] => Ok []
      | r0 :: rs => Ok (fold_left series_or rs r0)
      end
  | NOT =>
      if negb (n_conditions =? 1)%nat then
        Raise (ValueError "NOT操作符只能应用于单个条件")
      else
        match results with
        | [] => Ok []
        | r0 :: _ => Ok (series_not r0)
        end
  end.

Fixpoint evaluate (c : Condition) (data : DataFrame) : result (list bool) :=
  match c with
  | NumericCompare column operator value _ =>
      evaluate_numeric column operator value data
  | SignalCross fast_col slow_col cross_type _ =>
      evaluate_cross fast_col slow_col cross_type data
  | TechnicalPattern _ pattern_func _ =>
      evaluate_pattern pattern_func data
  | Logic operator conditions _ =>
      match conditions with
      | [] => Ok (repeat false (length (index data)))
      | _ :: _ =>
          let evaluate_all :=
            fix evaluate_all (cs : list Condition)
              : result (list (list bool)) :=
              match cs with
              | [] => Ok []
              | c' :: cs' =>
                  match evaluate c' data with
                  | Raise e => Raise e
                  | Ok r =>
                      match evaluate_all cs' with
                      | Raise e => Raise e
                      | Ok rs => Ok (r :: rs)
                      end
                  end
              end in
          match evaluate_all conditions with
          | Raise e => Raise e
          | Ok results =>
              combine_results operator (length conditions) results
          end
      end
  end.

(** ** The numpy reductions used by the analyzer *)

(** The sum of a block of fewer than 8 elements: from the left. *)
Definition sum_from_left (a : list float) : float :=
  fold_left PrimFloat.add a 0%float.

(** The loop over the groups of 8 elements that follow the first: the
    elements of a group are added to the 8 accumulators [r], each to its
    own. *)
Fixpoint add_groups (groups : nat) (r : list float) (a : list float)
  : list float * list float :=
  match groups with
  | O => (r, a)
  | S groups' =>
      add_groups groups' (map2 PrimFloat.add r (firstn 8 a)) (skipn 8 a)
  end.

(** The 8 accumulators, added up two by two. *)
Definition add_accumulators (r : list float) : float :=
  match r with
  | [r0; r1; r2; r3; r4; r5; r6; r7] =>
      (((r0 + r1) + (r2 + r3)) + ((r4 + r5) + (r6 + r7)))%float
  | _ => 0%float
  end.

(** The sum of a block of 8 to 128 elements: 8 accumulators take the
    elements in turn, are added up two by two, and the elements left over
    after the last whole group of 8 are added from the left. *)
Definition sum_unrolled (a : list float) : float :=
  let (r, rest) := add_groups (length a / 8 - 1) (firstn 8 a) (skipn 8 a) in
  fold_left PrimFloat.add rest (add_accumulators r).

(** numpy's pairwise summation of [n] elements: a block of more than 128
    elements is cut in two, the first half rounded down to a multiple of 8,
    and the sums of the halves are added.  [fuel] bounds the depth of the
    recursion; every call is on a shorter block, so that a fuel equal to the
    length is never used up (lemma [pairwise_sum_unfold]). *)
Fixpoint pairwise_sum_fuel (fuel : nat) (a : list float) : float :=
  let n := length a in
  if Nat.ltb n 8 then sum_from_left a
  else if Nat.leb n 128 then sum_unrolled a
  else
    match fuel with
    | O => 0%float
    | S fuel' =>
        let n2 := n / 2 - (n / 2) mod 8 in
        (pairwise_sum_fuel fuel' (firstn n2 a)
         + pairwise_sum_fuel fuel' (skipn n2 a))%float
    end.

Definition pairwise_sum (a : list float) : float :=
  pairwise_sum_fuel (length a) a.

(** [np.sum] over a float array, which is [np.add.reduce]: the result
    starts as the identity [0.0], to which the pairwise sum of the array is
    added. *)
Definition np_sum (a : list float) : float :=
  (0 + pairwise_sum a)%float.

(** [np.sum(mask)] for a boolean array: the number of true entries. *)
Definition count_true (mask : list bool) : nat :=
  length (filter (fun b => b) mask).

(** [np.mean(a)]: the sum divided by the number of elements. *)
Definition np_mean (a : list float) : float :=
  (np_sum a / float_of_nat (length a))%float.

(** [np.var(a, ddof)]: the mean is subtracted, the deviations are squared
    and summed, and the sum is divided by [max(N - ddof, 0)]. *)
Definition np_var (ddof : nat) (a : list float) : float :=
  let arrmean := np_mean a in
  let x := map (fun v => (v - arrmean)%float) a in
  let x2 := map (fun v => (v * v)%float) x in
  (np_sum x2 / float_of_nat (length a - ddof))%float.

(** [np.std(a, ddof)]; the analyzer calls it with the default [ddof = 0]. *)
Definition np_std (ddof : nat) (a : list float) : float :=
  PrimFloat.sqrt (np_var ddof a).

(** [np.maximum] and [np.minimum] on two scalars: a NaN on the left wins. *)
Definition np_maximum (acc x : float) : float :=
  if PrimFloat.leb x acc || PrimFloat.is_nan acc then acc else x.
Definition np_minimum (acc x : float) : float :=
  if PrimFloat.leb acc x || PrimFloat.is_nan acc then acc else x.

(** [np.max(a)] and [np.min(a)] of a non-empty array (0.0 stands for the
    error numpy raises on an empty one; the analyzer never asks for it). *)
Definition np_max (a : list float) : float :=
  match a with
  | [] => 0%float
  | x :: rest => fold_left np_maximum rest x
  end.
Definition np_min (a : list float) : float :=
  match a with
  | [] => 0%float
  | x :: rest => fold_left np_minimum rest x
  end.

(** ** Results of a backtest *)

Record SignalEvent : Type := mkSignalEvent {
  timestamp : Timestamp;
  signal_price : float;
  signal_type : string;
  condition_description : string
}.

(** The values stored in a result's [parameters] dictionary. *)
Inductive ParamValue : Type :=
| PDescription (d : Description)
| PInt (z : Z)
| PStr (s : string)
| PPeriod (first last : Timestamp).

Record BacktestResult : Type := mkBacktestResult {
  signals : list SignalEvent;
  returns : list float;
  holding_periods : list Z;
  win_rate : float;
  avg_return : float;
  max_return : float;
  min_return : float;
  std_return : float;
  total_signals : nat;
  profitable_signals : nat;
  losing_signals : nat;
  avg_holding_period : float;
  parameters : list (string * ParamValue)
}.

(** The dictionary returned by [_calculate_statistics]. *)
Module Stats.
Record t : Type := mk {
  win_rate : float;
  avg_return : float;
  max_return : float;
  min_return : float;
  std_return : float;
  profitable_count : nat;
  losing_count : nat;
  avg_holding_period : float
}.
End Stats.

(** ** The logger and the analyzer's monad *)

Inductive Level : Type := INFO | WARNING | ERROR.

(** The records the analyzer writes, with the data their text is formatted
    from. *)
Inductive LogMessage : Type :=
| BacktestStarted (holding_period : Z)
| NoSignals
| BacktestFinished (total : nat) (rate : float)
| SignalsFailed (e : exn)
| SweepStarted (total_tests : nat)
| TestFinished (test_count total_tests : nat)
| TestFailed (test_count total_tests : nat) (e : exn).

Definition Logger : Type := list (Level * LogMessage).

(** A method of the analyzer: it reads and extends the logger and returns a
    value or raises. *)
Definition M (A : Type) : Type := Logger -> result A * Logger.

Definition ret {A} (a : A) : M A := fun lg => (Ok a, lg).

Definition raise {A} (e : exn) : M A := fun lg => (Raise e, lg).

Definition bind {A B} (m : M A) (k : A -> M B) : M B :=
  fun lg =>
    match m lg with
    | (Ok a, lg') => k a lg'
    | (Raise e, lg') => (Raise e, lg')
    end.

Definition log (lvl : Level) (msg : LogMessage) : M unit :=
  fun lg => (Ok tt, lg ++ [(lvl, msg)]).

Definition lift {A} (r : result A) : M A := fun lg => (r, lg).

(** [try: body  except Exception as e: handler(e)] *)
Definition try_except {A} (body : M A) (handler : exn -> M A) : M A :=
  fun lg =>
    match body lg with
    | (Ok a, lg') => (Ok a, lg')
    | (Raise e, lg') => handler e lg'
    end.

Declare Scope monad_scope.
Delimit Scope monad_scope with M.
Notation "x <- m ;; k" := (bind m (fun x => k))
  (at level 61, m at next level, right associativity) : monad_scope.
Notation "m ;; k" := (bind m (fun _ => k))
  (at level 61, right associativity) : monad_scope.

(** ** The analyzer *)

(** [signals.any()] *)
Definition any (signals : list bool) : bool := existsb (fun b => b) signals.

(** [signals[signals].index]: the timestamps of the true rows, in order *)
Definition signal_dates_of (data : DataFrame) (signals : list bool)
  : list Timestamp :=
  map fst (filter snd (combine (index data) signals)).

Definition _calculate_signals (data : DataFrame) (condition : Condition)
  : M (list bool) :=
  try_except (lift (evaluate condition data))
    (fun e =>
       (log ERROR (SignalsFailed e) ;;
        raise (ValueError ("计算条件信号失败: " ++ str_exn e)))%M).

Definition _find_target_price (data : DataFrame) (target_date : Timestamp)
    (price_column : string) : result (option float) :=
  if in_index data target_date then
    (p <- loc data target_date price_column ;; Ok (Some p))%res
  else
    let available_dates :=
      filter (fun t => (target_date <=? t)%Z) (index data) in
    match available_dates with
    | closest_date :: _ =>
        (p <- loc data closest_date price_column ;; Ok (Some p))%res
    | [] =>
        if negb (empty data) then
          (p <- iloc_last data price_column ;; Ok (Some p))%res
        else Ok None
    end.

(** The body of the loop over the signal dates in
    [_calculate_signal_returns]; [acc] holds the three lists built so far. *)
Fixpoint signal_returns_loop (data : DataFrame) (holding_period : Z)
    (price_column : string) (signal_dates : list Timestamp)
    (acc : list SignalEvent * list float * list Z)
  : result (list SignalEvent * list float * list Z) :=
  match signal_dates with
  | [] => Ok acc
  | signal_date :: rest =>
      if negb (in_index data signal_date) then
        signal_returns_loop data holding_period price_column rest acc
      else
        match loc data signal_date price_column with
        | Raise e => Raise e
        | Ok signal_price =>
            match timedelta holding_period with
            | Raise e => Raise e
            | Ok duration =>
                let target_date := (signal_date + duration)%Z in
                match _find_target_price data target_date price_column with
                | Raise e => Raise e
                | Ok None =>
                    signal_returns_loop data holding_period price_column
                      rest acc
                | Ok (Some target_price) =>
                    let return_rate :=
                      ((target_price - signal_price) / signal_price)%float in
                    let signal_event :=
                      mkSignalEvent signal_date signal_price "buy" "" in
                    let '(signal_events, returns, holding_periods) := acc in
                    signal_returns_loop data holding_period price_column
                      rest
                      (signal_events ++ [signal_event],
                       returns ++ [return_rate],
                       holding_periods ++ [holding_period])
                end
            end
        end
  end.

Definition _calculate_signal_returns (data : DataFrame) (signals : list bool)
    (holding_period : Z) (price_column : string)
  : result (list SignalEvent * list float * list Z) :=
  let signal_dates := signal_dates_of data signals in
  signal_returns_loop data holding_period price_column signal_dates
    ([], [], []).

Definition _calculate_statistics (returns : list float)
    (holding_periods : list Z) : Stats.t :=
  match returns with
  | [] => Stats.mk 0 0 0 0 0 0 0 0
  | _ :: _ =>
      let returns_array := returns in
      let profitable_count :=
        count_true (map (fun r => PrimFloat.ltb 0 r) returns_array) in
      let losing_count :=
        count_true (map (fun r => PrimFloat.ltb r 0) returns_array) in
      Stats.mk
        (float_of_nat profitable_count / float_of_nat (length returns))%float
        (np_mean returns_array)
        (np_max returns_array)
        (np_min returns_array)
        (np_std 0 returns_array)
        profitable_count
        losing_count
        (match holding_periods with
         | [] => 0%float
         | _ :: _ => np_mean (map float_of_Z holding_periods)
         end)
  end.

Definition _create_empty_result (condition : Condition) (holding_period : Z)
  : BacktestResult :=
  mkBacktestResult [] [] [] 0 0 0 0 0 0 0 0 0
    [("condition", PDescription (description condition));
     ("holding_period", PInt holding_period);
     ("note", PStr "No signals found")].

Definition run_backtest (data : DataFrame) (condition : Condition)
    (holding_period : Z) (price_column : string) : M BacktestResult :=
  if empty data then raise (ValueError "输入数据为空")
  else if negb (has_column data price_column) then
    raise (ValueError ("数据中缺少价格列: " ++ price_column))
  else
    (log INFO (BacktestStarted holding_period) ;;
     signals <- _calculate_signals data condition ;;
     if negb (any signals) then
       log WARNING NoSignals ;;
       ret (_create_empty_result condition holding_period)
     else
       triple <- lift (_calculate_signal_returns data signals holding_period
                         price_column) ;;
       let '(signal_events, returns, holding_periods) := triple in
       let stats := _calculate_statistics returns holding_periods in
       let result :=
         mkBacktestResult signal_events returns holding_periods
           (Stats.win_rate stats) (Stats.avg_return stats)
           (Stats.max_return stats) (Stats.min_return stats)
           (Stats.std_return stats)
           (length returns)
           (Stats.profitable_count stats) (Stats.losing_count stats)
           (Stats.avg_holding_period stats)
           [("condition", PDescription (description condition));
            ("holding_period", PInt holding_period);
            ("price_column", PStr price_column);
            ("data_period",
             PPeriod (hd 0%Z (index data)) (last (index data) 0%Z))] in
       log INFO (BacktestFinished (total_signals result) (win_rate result)) ;;
       ret result)%M.

(** One iteration of the inner loop of [run_multiple_backtests]; the
    accumulator is the result list and the running [test_count]. *)
Definition sweep_step (data : DataFrame) (total_tests : nat)
    (condition : Condition) (acc : list BacktestResult * nat)
    (holding_period : Z) : M (list BacktestResult * nat) :=
  let '(results, test_count) := acc in
  let test_count := S test_count in
  try_except
    (result <- run_backtest data condition holding_period "close" ;;
     log INFO (TestFinished test_count total_tests) ;;
     ret (results ++ [result], test_count))%M
    (fun e =>
       (log ERROR (TestFailed test_count total_tests e) ;;
        ret (results, test_count))%M).

(** A [for] loop whose body runs in the analyzer's monad. *)
Fixpoint for_each {A S} (l : list A) (body : S -> A -> M S) (s : S) : M S :=
  match l with
  | [] => ret s
  | x :: rest => (s' <- body s x ;; for_each rest body s')%M
  end.

Definition default_holding_periods : list Z := [3; 5; 10; 20]%Z.

Definition run_multiple_backtests (data : DataFrame)
    (conditions : list Condition) (holding_periods : option (list Z))
  : M (list BacktestResult) :=
  let holding_periods :=
    match holding_periods with
    | None => default_holding_periods
    | Some l => l
    end in
  let total_tests := (length conditions * length holding_periods)%nat in
  (log INFO (SweepStarted total_tests) ;;
   final <- for_each conditions
              (fun acc condition =>
                 for_each holding_periods
                   (sweep_step data total_tests condition) acc)
              ([], 0%nat) ;;
   ret (fst final))%M.

(** ** Text conditions *)

(** *** Characters and strings, as the parser reads them

    A Python [str] is modelled by the string of the bytes of its UTF-8
    encoding.  The character classes below are those of ASCII characters;
    the parser is specified on strings of ASCII characters ([ascii_only]),
    the messages it builds may hold any text. *)

Definition code (c : ascii) : nat := nat_of_ascii c.

Definition between (lo hi : nat) (c : ascii) : bool :=
  Nat.leb lo (code c) && Nat.leb (code c) hi.

(** [str.isspace]: what [str.strip] removes and what [\s] matches (tab to
    carriage return, the four separators 0x1c to 0x1f, and the space). *)
Definition is_space (c : ascii) : bool := between 9 13 c || between 28 32 c.

(** [\d] *)
Definition is_digit (c : ascii) : bool := between 48 57 c.

(** [\w]: letters, digits and the underscore. *)
Definition is_word (c : ascii) : bool :=
  is_digit c || between 65 90 c || between 97 122 c || Nat.eqb (code c) 95.

(** The class [[-\d\.]] of the pattern. *)
Definition is_numch (c : ascii) : bool :=
  is_digit c || Nat.eqb (code c) 45 || Nat.eqb (code c) 46.

Definition is_ascii (c : ascii) : bool := Nat.ltb (code c) 128.

(** Every character of [s] satisfies [p]. *)
Fixpoint all (p : ascii -> bool) (s : string) : bool :=
  match s with
  | EmptyString => true
  | String c s' => p c && all p s'
  end.

Definition ascii_only (s : string) : bool := all is_ascii s.

(** The methods of [str] the parser calls. *)
Module Str.

(** [s.startswith(prefix)] *)
Fixpoint startswith (s prefix : string) {struct prefix} : bool :=
  match prefix, s with
  | EmptyString, _ => true
  | String a prefix', String b s' => Ascii.eqb a b && startswith s' prefix'
  | String _ _, EmptyString => false
  end.

(** [s[n:]] *)
Fixpoint slice_from (n : nat) (s : string) : string :=
  match n, s with
  | O, _ => s
  | S n', String _ s' => slice_from n' s'
  | S _, EmptyString => EmptyString
  end.

(** [s[:n]] *)
Fixpoint slice_to (n : nat) (s : string) : string :=
  match n, s with
  | O, _ => EmptyString
  | S n', String c s' => String c (slice_to n' s')
  | S _, EmptyString => EmptyString
  end.

(** [s[1:-1]] *)
Definition inner (s : string) : string :=
  slice_to (String.length s - 2) (slice_from 1 s).

(** [s.endswith(suffix)] *)
Definition endswith (s suffix : string) : bool :=
  Nat.leb (String.length suffix) (String.length s)
  && String.eqb
       (slice_from (String.length s - String.length suffix) s) suffix.

(** [s.find(sub)]: the offset of the first occurrence of [sub] in [s]. *)
Fixpoint find (s sub : string) : option nat :=
  if startswith s sub then Some 0
  else
    match s with
    | EmptyString => None
    | String _ s' => option_map S (find s' sub)
    end.

(** [sub in s] *)
Definition contains (s sub : string) : bool :=
  match find s sub with
  | Some _ => true
  | None => false
  end.

(** [s.split(sep)] for a separator that is not empty: the text before the
    first occurrence of [sep], then the parts of what follows it.  The fuel
    bounds the number of separators found. *)
Fixpoint split_loop (fuel : nat) (s sep : string) : list string :=
  match fuel, find s sep with
  | S fuel', Some i =>
      slice_to i s
      :: split_loop fuel' (slice_from (i + String.length sep) s) sep
  | _, _ => [s]
  end.

Definition split (s sep : string) : list string :=
  split_loop (String.length s) s sep.

Fixpoint lstrip (s : string) : string :=
  match s with
  | String c s' => if is_space c then lstrip s' else s
  | EmptyString => EmptyString
  end.

Fixpoint rstrip (s : string) : string :=
  match s with
  | EmptyString => EmptyString
  | String c s' =>
      match rstrip s' with
      | EmptyString => if is_space c then EmptyString else String c EmptyString
      | rest => String c rest
      end
  end.

(** [s.strip()] *)
Definition strip (s : string) : string := rstrip (lstrip s).

End Str.

(** *** The pattern of a numeric comparison

    [^(\w+)\s*(>=|<=|>|<|==|!=)\s*([-\d\.]+)$] *)

(** The longest prefix of [s] whose characters satisfy [p], and the rest. *)
Fixpoint span (p : ascii -> bool) (s : string) : string * string :=
  match s with
  | EmptyString => (EmptyString, EmptyString)
  | String c s' =>
      if p c then let (taken, rest) := span p s' in (String c taken, rest)
      else (EmptyString, s)
  end.

(** The alternatives of the operator group, in the order of the pattern. *)
Definition operator_alternatives : list string :=
  [">="; "<="; ">"; "<"; "=="; "!="].

(** The first alternative that [s] starts with, and what follows it. *)
Fixpoint first_alternative (alternatives : list string) (s : string)
  : option (string * string) :=
  match alternatives with
  | [] => None
  | alt :: rest =>
      if Str.startswith s alt
      then Some (alt, Str.slice_from (String.length alt) s)
      else first_alternative rest s
  end.

(** [$] matches at the end of the string, and before a newline that ends
    it. *)
Definition at_end (s : string) : bool :=
  String.eqb s EmptyString || String.eqb s (String "010" EmptyString).

(** [re.match(pattern, s)]: the three groups of the match, if any.  Each
    group is matched greedily: the classes that follow one another in the
    pattern have no character in common, so that no other match exists
    (lemma [match_numeric_grammar]). *)
Definition match_numeric (s : string) : option (string * string * string) :=
  let (column, after_column) := span is_word s in
  if String.eqb column EmptyString then None
  else
    let (_, at_operator) := span is_space after_column in
    match first_alternative operator_alternatives at_operator with
    | None => None
    | Some (operator, after_operator) =>
        let (_, at_value) := span is_space after_operator in
        let (value_str, rest) := span is_numch at_value in
        if String.eqb value_str EmptyString then None
        else if at_end rest then Some (column, operator, value_str)
        else None
    end.

(** *** [float(value_str)] on a string of the class [[-\d\.]] *)

Definition digit_value (c : ascii) : Z := Z.of_nat (code c) - 48.

(** The integer a string of digits denotes. *)
Fixpoint decimal_loop (acc : Z) (digits : string) : Z :=
  match digits with
  | EmptyString => acc
  | String c rest => decimal_loop (10 * acc + digit_value c) rest
  end.

Definition decimal (digits : string) : Z := decimal_loop 0 digits.

(** The float nearest to [n / 10^k] (ties to even), negated when [neg]:
    the correctly rounded quotient of the two integers. *)
Definition nearest_float (neg : bool) (n : Z) (k : nat) : float :=
  match n with
  | Zpos p =>
      SF2Prim
        (SF64div (S754_finite neg p 0)
                 (S754_finite false (Z.to_pos (10 ^ Z.of_nat k)) 0))
  | _ => if neg then (-0)%float else 0%float
  end.

(** An optional minus sign, then digits with at most one point among them
    and at least one digit; anything else is not a number. *)
Definition py_float (value_str : string) : option float :=
  let (neg, unsigned) :=
    match value_str with
    | String "-" rest => (true, rest)
    | _ => (false, value_str)
    end in
  let (int_digits, after_int) := span is_digit unsigned in
  let (frac_digits, rest) :=
    match after_int with
    | String "." after_point => span is_digit after_point
    | _ => (EmptyString, after_int)
    end in
  if negb (String.eqb rest EmptyString) then None
  else if String.eqb (int_digits ++ frac_digits) EmptyString then None
  else Some (nearest_float neg (decimal (int_digits ++ frac_digits))
               (String.length frac_digits)).

(** *** The condition builder *)

(** [ComparisonOperator(operator)] *)
Definition operator_of_string (operator : string)
  : option ComparisonOperator :=
  if String.eqb operator ">" then Some GREATER_THAN
  else if String.eqb operator ">=" then Some GREATER_EQUAL
  else if String.eqb operator "<" then Some LESS_THAN
  else if String.eqb operator "<=" then Some LESS_EQUAL
  else if String.eqb operator "==" then Some EQUAL
  else if String.eqb operator "!=" then Some NOT_EQUAL
  else None.

Definition create_numeric_condition (column operator : string)
    (value : float) : result Condition :=
  match operator_of_string operator with
  | Some op => Ok (NumericCompareCondition column op value "")
  | None => Raise (ValueError ("不支持的操作符: " ++ operator))
  end.

Definition create_and_condition (conditions : list Condition)
  : result Condition :=
  if Nat.ltb (length conditions) 2
  then Raise (ValueError "AND条件需要至少2个子条件")
  else Ok (LogicCondition AND conditions "").

Definition create_or_condition (conditions : list Condition)
  : result Condition :=
  if Nat.ltb (length conditions) 2
  then Raise (ValueError "OR条件需要至少2个子条件")
  else Ok (LogicCondition OR conditions "").

Definition create_not_condition (condition : Condition) : Condition :=
  LogicCondition NOT [condition] "".

Definition _parse_numeric_condition (condition_str : string)
  : result Condition :=
  match match_numeric (Str.strip condition_str) with
  | None => Raise (ValueError ("无效的条件格式: " ++ condition_str))
  | Some (column, operator, value_str) =>
      match py_float value_str with
      | None => Raise (ValueError ("无效的数值: " ++ value_str))
      | Some value => create_numeric_condition column operator value
      end
  end.

(** [[f(x) for x in l]], where [f] may raise: left to right, up to the
    first exception. *)
Fixpoint comprehension {A B} (f : A -> result B) (l : list A)
  : result (list B) :=
  match l with
  | [] => Ok []
  | x :: rest =>
      (y <- f x ;; ys <- comprehension f rest ;; Ok (y :: ys))%res
  end.

(** [except Exception as e: raise ValueError(...)] around the body of
    [parse_condition_string]. *)
Definition reraise (condition_str : string) (r : result Condition)
  : result Condition :=
  match r with
  | Ok c => Ok c
  | Raise e =>
      Raise (ValueError ("解析条件字符串失败: " ++ condition_str
                         ++ ", 错误: " ++ str_exn e))
  end.

(** The body of [parse_condition_string]; [self_parse] stands for the
    method itself in its recursive calls. *)
Definition parse_body (self_parse : string -> result Condition)
    (condition_str : string) : result Condition :=
  let condition_str := Str.strip condition_str in
  reraise condition_str
    (if Str.startswith condition_str "NOT " then
       let inner_str := Str.strip (Str.slice_from 4 condition_str) in
       (inner_condition <- self_parse inner_str ;;
        Ok (create_not_condition inner_condition))%res
     else if Str.startswith condition_str "("
             && Str.endswith condition_str ")" then
       let inner_str := Str.strip (Str.inner condition_str) in
       self_parse inner_str
     else if Str.contains condition_str " AND " then
       let parts := map Str.strip (Str.split condition_str " AND ") in
       (conditions <- comprehension self_parse parts ;;
        create_and_condition conditions)%res
     else if Str.contains condition_str " OR " then
       let parts := map Str.strip (Str.split condition_str " OR ") in
       (conditions <- comprehension self_parse parts ;;
        create_or_condition conditions)%res
     else _parse_numeric_condition condition_str).

(** [parse_condition_string], with the depth of its recursion bounded by
    [fuel].  Every recursive call is on a shorter string, so that a fuel
    above the length of the string is never used up (lemma
    [parse_condition_string_unfold]); the interpreter's own limit on the
    depth of recursion is not modelled. *)
Fixpoint parse_fuel (fuel : nat) (condition_str : string)
  : result Condition :=
  match fuel with
  | O => Raise (OtherException "RecursionError"
                  "maximum recursion depth exceeded")
  | S fuel' => parse_body (parse_fuel fuel') condition_str
  end.

Definition parse_condition_string (condition_str : string)
  : result Condition :=
  parse_fuel (S (String.length condition_str)) condition_str.

(** ** The rest of the condition builder *)

Definition create_cross_condition (fast_col slow_col cross_type : string)
  : result Condition :=
  if negb (existsb (String.eqb cross_type) ["golden"; "death"]) then
    Raise (ValueError "cross_type必须是'golden'或'death'")
  else Ok (SignalCrossCondition fast_col slow_col cross_type "").

Definition create_pattern_condition (pattern_name : string)
    (pattern_func : DataFrame -> result (list bool)) : Condition :=
  TechnicalPatternCondition pattern_name pattern_func "".

(** ** The condition validator *)

(** The dictionary a validation returns. *)
Module Validation.
Record t : Type := mk {
  valid : bool;
  errors : list string;
  warnings : list string
}.
End Validation.

(** [str(n)] for a natural number. *)
Definition str_nat (n : nat) : string :=
  NilEmpty.string_of_uint (Nat.to_uint n).

(** [validate_condition]: the columns a comparison or a crossing refers to
    must be among [data_columns]; a logic condition is validated through its
    sub-conditions, in order; any other condition is accepted as it is.
    Nothing in the body raises on a condition and a list of names, so that
    the handler of its [try] is not entered. *)
Fixpoint validate_condition (condition : Condition)
    (data_columns : list string) : Validation.t :=
  match condition with
  | NumericCompare column _ _ _ =>
      if negb (existsb (String.eqb column) data_columns) then
        Validation.mk false [("列 '" ++ column ++ "' 不存在")%string] []
      else Validation.mk true [] []
  | SignalCross fast_col slow_col _ _ =>
      let missing_cols :=
        filter (fun col => negb (existsb (String.eqb col) data_columns))
          [fast_col; slow_col] in
      match missing_cols with
      | _ :: _ =>
          Validation.mk false [("列 " ++ repr_list missing_cols ++ " 不存在")%string] []
      | [] => Validation.mk true [] []
      end
  | Logic _ conditions _ =>
      (fix loop (sub_conditions : list Condition) (result : Validation.t)
         : Validation.t :=
         match sub_conditions with
         | [] => result
         | sub_condition :: rest =>
             let sub_result := validate_condition sub_condition data_columns in
             let result :=
               if negb (Validation.valid sub_result) then
                 Validation.mk false
                   (Validation.errors result ++ Validation.errors sub_result)
                   (Validation.warnings result)
               else result in
             let result :=
               Validation.mk (Validation.valid result)
                 (Validation.errors result)
                 (Validation.warnings result
                  ++ Validation.warnings sub_result) in
             loop rest result
         end) conditions (Validation.mk true [] [])
  | TechnicalPattern _ _ _ => Validation.mk true [] []
  end.

(** The loop of [validate_condition_list]; [i] is the position of the first
    condition of [conditions] in the whole list. *)
Fixpoint validate_list_loop (conditions : list Condition)
    (data_columns : list string) (i : nat) (acc : Validation.t)
  : Validation.t :=
  match conditions with
  | [] => acc
  | condition :: rest =>
      let result := validate_condition condition data_columns in
      let label := ("条件" ++ str_nat (i + 1) ++ ": ")%string in
      let acc :=
        if negb (Validation.valid result) then
          Validation.mk false
            (Validation.errors acc
             ++ map (fun error => (label ++ error)%string) (Validation.errors result))
            (Validation.warnings acc)
        else acc in
      let acc :=
        Validation.mk (Validation.valid acc) (Validation.errors acc)
          (Validation.warnings acc
           ++ map (fun warning => (label ++ warning)%string)
                (Validation.warnings result)) in
      validate_list_loop rest data_columns (S i) acc
  end.

Definition validate_condition_list (conditions : list Condition)
    (data_columns : list string) : Validation.t :=
  validate_list_loop conditions data_columns 0 (Validation.mk true [] []).

(** ** The performance analyzer: rolling windows *)

(** [data.iloc[start:stop]] for [0 <= start]: the rows from position
    [start] up to, not including, position [stop]. *)
Definition iloc_slice (data : DataFrame) (start stop : nat) : DataFrame :=
  mkDataFrame
    (firstn (stop - start) (skipn start (index data)))
    (map (fun col =>
            (fst col, firstn (stop - start) (skipn start (snd col))))
       (columns data)).

(** A row of the frame [calculate_rolling_performance] returns; [date] is
    the index of the frame. *)
Module Rolling.
Record row : Type := mk {
  date : Timestamp;
  win_rate : float;
  avg_return : float;
  total_signals : nat
}.
End Rolling.

(** The performance analyzer writes to the logger of the module, as the
    backtest analyzer it calls does: its log holds the records of both. *)
Inductive PerformanceMessage : Type :=
| AnalyzerRecord (m : LogMessage)
| WindowFailed (e : exn).

Definition PerformanceLogger : Type := list (Level * PerformanceMessage).

(** [_run_simple_backtest]: a run of a fresh analyzer with a holding period
    of five days and the default price column.  The analyzer only appends
    to the logger, so its records are those of a run started on an empty
    log. *)
Definition _run_simple_backtest (data : DataFrame) (condition : Condition)
    (lg : PerformanceLogger) : result BacktestResult * PerformanceLogger :=
  let (r, records) := run_backtest data condition 5 "close" [] in
  (r, lg ++ map (fun rec => (fst rec, AnalyzerRecord (snd rec))) records).

(** The loop of [calculate_rolling_performance] over the positions [i]. *)
Fixpoint rolling_loop (data : DataFrame) (condition : Condition)
    (window_size : nat) (positions : list nat)
    (performance_data : list Rolling.row) (lg : PerformanceLogger)
  : list Rolling.row * PerformanceLogger :=
  match positions with
  | [] => (performance_data, lg)
  | i :: rest =>
      let window_data := iloc_slice data (i - window_size) i in
      match _run_simple_backtest window_data condition lg with
      | (Ok result, lg') =>
          rolling_loop data condition window_size rest
            (performance_data
             ++ [Rolling.mk (nth i (index data) 0%Z) (win_rate result)
                   (avg_return result) (total_signals result)])
            lg'
      | (Raise e, lg') =>
          rolling_loop data condition window_size rest performance_data
            (lg' ++ [(WARNING, WindowFailed e)])
      end
  end.

(** [calculate_rolling_performance]; the window size is a number of rows,
    taken here as a natural number.  The frame returned is given by its
    rows, in order (none for the empty frame). *)
Definition calculate_rolling_performance (data : DataFrame)
    (condition : Condition) (window_size : nat) (lg : PerformanceLogger)
  : result (list Rolling.row) * PerformanceLogger :=
  let n := length (index data) in
  if Nat.ltb n window_size then
    (Raise (ValueError ("数据长度 " ++ str_nat n ++ " 小于窗口大小 "
                        ++ str_nat window_size)), lg)
  else
    let (performance_data, lg') :=
      rolling_loop data condition window_size
        (seq window_size (n - window_size)) [] lg in
    (Ok performance_data, lg').

(** ** Pattern functions that keep a state

    The pattern function of a [TechnicalPatternCondition] is any Python
    callable: nothing in the program keeps it from reading and changing a
    state of its own between two calls (a closure, an attribute, a cache).
    To state what a run depends on, the conditions and the run are
    modelled here a second time with such callables: a call is given the
    state the callables of the program are in and leaves a new one.  The
    pattern functions of the first model are the callables that neither
    read nor change that state ([pure_condition]). *)
Module Stateful.
Section Callables.

(** The state of the callables of the program. *)
Variable State : Type.

Definition Callable : Type :=
  DataFrame -> State -> result (list bool) * State.

Inductive Condition : Type :=
| NumericCompare (column : string) (operator : ComparisonOperator)
    (value : float) (description : Description)
| SignalCross (fast_col slow_col cross_type : string)
    (description : Description)
| TechnicalPattern (pattern_name : string) (pattern_func : Callable)
    (description : Description)
| Logic (operator : LogicOperator) (conditions : list Condition)
    (description : Description).

Definition description (c : Condition) : Description :=
  match c with
  | NumericCompare _ _ _ d => d
  | SignalCross _ _ _ d => d
  | TechnicalPattern _ _ d => d
  | Logic _ _ d => d
  end.

(** [TechnicalPatternCondition.evaluate] *)
Definition evaluate_pattern (pattern_func : Callable) (data : DataFrame)
    (s : State) : result (list bool) * State :=
  match pattern_func data s with
  | (Ok sigs, s') => (Ok sigs, s')
  | (Raise e, s') =>
      (Raise (ValueError ("技术形态检测失败: " ++ str_exn e)), s')
  end.

(** [evaluate]: the sub-conditions of a logic condition are evaluated in
    order, each from the state the one before it has left. *)
Fixpoint evaluate (c : Condition) (data : DataFrame) (s : State)
  : result (list bool) * State :=
  match c with
  | NumericCompare column operator value _ =>
      (evaluate_numeric column operator value data, s)
  | SignalCross fast_col slow_col cross_type _ =>
      (evaluate_cross fast_col slow_col cross_type data, s)
  | TechnicalPattern _ pattern_func _ =>
      evaluate_pattern pattern_func data s
  | Logic operator conditions _ =>
      match conditions with
      | [] => (Ok (repeat false (length (index data))), s)
      | _ :: _ =>
          let evaluate_all :=
            fix evaluate_all (cs : list Condition) (s : State)
              : result (list (list bool)) * State :=
              match cs with
              | [] => (Ok [], s)
              | c' :: cs' =>
                  match evaluate c' data s with
                  | (Raise e, s') => (Raise e, s')
                  | (Ok r, s') =>
                      match evaluate_all cs' s' with
                      | (Raise e, s'') => (Raise e, s'')
                      | (Ok rs, s'') => (Ok (r :: rs), s'')
                      end
                  end
              end in
          match evaluate_all conditions s with
          | (Raise e, s') => (Raise e, s')
          | (Ok results, s') =>
              (combine_results operator (length conditions) results, s')
          end
      end
  end.

(** The list comprehension of [LogicCondition.evaluate]: the results of the
    sub-conditions, in order, up to the first that raises. *)
Fixpoint evaluate_each (cs : list Condition) (data : DataFrame) (s : State)
  : result (list (list bool)) * State :=
  match cs with
  | [] => (Ok [], s)
  | c :: rest =>
      match evaluate c data s with
      | (Raise e, s') => (Raise e, s')
      | (Ok r, s') =>
          match evaluate_each rest data s' with
          | (Raise e, s'') => (Raise e, s'')
          | (Ok rs, s'') => (Ok (r :: rs), s'')
          end
      end
  end.

Definition _create_empty_result (condition : Condition) (holding_period : Z)
  : BacktestResult :=
  mkBacktestResult [] [] [] 0 0 0 0 0 0 0 0 0
    [("condition", PDescription (description condition));
     ("holding_period", PInt holding_period);
     ("note", PStr "No signals found")].

(** [run_backtest]: what it returns or raises, the state it leaves the
    callables in, and the logger. *)
Definition run_backtest (data : DataFrame) (condition : Condition)
    (holding_period : Z) (price_column : string) (s : State) (lg : Logger)
  : result BacktestResult * State * Logger :=
  if empty data then (Raise (ValueError "输入数据为空"), s, lg)
  else if negb (has_column data price_column) then
    (Raise (ValueError ("数据中缺少价格列: " ++ price_column)), s, lg)
  else
    let lg := lg ++ [(INFO, BacktestStarted holding_period)] in
    match evaluate condition data s with
    | (Raise e, s) =>
        (Raise (ValueError ("计算条件信号失败: " ++ str_exn e)), s,
         lg ++ [(ERROR, SignalsFailed e)])
    | (Ok signals, s) =>
        if negb (any signals) then
          (Ok (_create_empty_result condition holding_period), s,
           lg ++ [(WARNING, NoSignals)])
        else
          match _calculate_signal_returns data signals holding_period
                  price_column with
          | Raise e => (Raise e, s, lg)
          | Ok (signal_events, returns, holding_periods) =>
              let stats := _calculate_statistics returns holding_periods in
              let result :=
                mkBacktestResult signal_events returns holding_periods
                  (Stats.win_rate stats) (Stats.avg_return stats)
                  (Stats.max_return stats) (Stats.min_return stats)
                  (Stats.std_return stats)
                  (length returns)
                  (Stats.profitable_count stats) (Stats.losing_count stats)
                  (Stats.avg_holding_period stats)
                  [("condition", PDescription (description condition));
                   ("holding_period", PInt holding_period);
                   ("price_column", PStr price_column);
                   ("data_period",
                    PPeriod (hd 0%Z (index data))
                      (last (index data) 0%Z))] in
              (Ok result, s,
               lg ++ [(INFO, BacktestFinished (total_signals result)
                               (win_rate result))])
          end
    end.

(** The callables of a condition keep no state: the result of a call does
    not depend on the state, and the call leaves the state as it is. *)
Inductive stateless : Condition -> Prop :=
| stateless_numeric column operator value d :
    stateless (NumericCompare column operator value d)
| stateless_cross fast_col slow_col cross_type d :
    stateless (SignalCross fast_col slow_col cross_type d)
| stateless_pattern pattern_name (pattern_func : Callable) d :
    (forall data s s', fst (pattern_func data s) = fst (pattern_func data s'))
    -> (forall data s, snd (pattern_func data s) = s) ->
    stateless (TechnicalPattern pattern_name pattern_func d)
| stateless_logic operator conditions d :
    Forall stateless conditions ->
    stateless (Logic operator conditions d).

End Callables.

Arguments NumericCompare {State}.
Arguments SignalCross {State}.
Arguments TechnicalPattern {State}.
Arguments Logic {State}.
Arguments description {State}.
Arguments evaluate {State}.
Arguments evaluate_each {State}.
Arguments run_backtest {State}.
Arguments stateless {State}.

(** A callable that counts its calls and reports a signal at every row on
    its calls of even rank (the first, the third, ...), and none on the
    others. *)
Definition every_other_call : Callable nat :=
  fun data calls =>
    (Ok (repeat (Nat.even calls) (length (index data))), S calls).

Definition flickering : Condition nat :=
  TechnicalPattern "flickering" every_other_call (PatternText "flickering").

End Stateful.

(** A condition of the first model, whose pattern functions are functions
    of the table, as a condition of this one: its callables return what
    these functions return and leave the state as it is. *)
Fixpoint pure_condition {State : Type} (c : Condition)
  : Stateful.Condition State :=
  match c with
  | NumericCompare column operator value d =>
      Stateful.NumericCompare column operator value d
  | SignalCross fast_col slow_col cross_type d =>
      Stateful.SignalCross fast_col slow_col cross_type d
  | TechnicalPattern pattern_name pattern_func d =>
      Stateful.TechnicalPattern pattern_name
        (fun data s => (pattern_func data, s)) d
  | Logic operator conditions d =>
      Stateful.Logic operator (map pure_condition conditions) d
  end.

(** The value of a run, the state and the logger it leaves. *)
Definition value_of {State : Type}
    (run : result BacktestResult * State * Logger)
  : result BacktestResult := fst (fst run).
Definition state_of {State : Type}
    (run : result BacktestResult * State * Logger) : State :=
  snd (fst run).
Definition logger_of {State : Type}
    (run : result BacktestResult * State * Logger) : Logger := snd run.

(** ** Reference definitions the properties are stated against *)

(** The crossing tests, row by row. *)
Definition golden_at (fast slow : list float) (i : nat) : bool :=
  match i with
  | O => false
  | S j =>
      PrimFloat.ltb (nth i slow PrimFloat.nan) (nth i fast PrimFloat.nan)
      && PrimFloat.leb (nth j fast PrimFloat.nan) (nth j slow PrimFloat.nan)
  end.

Definition death_at (fast slow : list float) (i : nat) : bool :=
  match i with
  | O => false
  | S j =>
      PrimFloat.ltb (nth i fast PrimFloat.nan) (nth i slow PrimFloat.nan)
      && PrimFloat.leb (nth j slow PrimFloat.nan) (nth j fast PrimFloat.nan)
  end.


(** The price a table holds in column [c] at the row whose timestamp is
    [t]. *)
Definition price_at (data : DataFrame) (c : string) (t : Timestamp)
  : option float :=
  match position t (index data) with
  | Some i => nth_error (get_column data c) i
  | None => None
  end.

(** The price in column [c] at the last row of the table. *)
Definition last_row_price (data : DataFrame) (c : string) : option float :=
  nth_error (get_column data c) (length (index data) - 1).

(** The result of a run, apart from what it writes to the logger. *)
Definition run_result (data : DataFrame) (condition : Condition)
    (holding_period : Z) (price_column : string) : result BacktestResult :=
  fst (run_backtest data condition holding_period price_column []).

(** The result a run assembles from the three lists of
    [_calculate_signal_returns]. *)
Definition assemble_result (data : DataFrame) (condition : Condition)
    (holding_period : Z) (price_column : string)
    (triple : list SignalEvent * list float * list Z) : BacktestResult :=
  let '(signal_events, returns, holding_periods) := triple in
  let stats := _calculate_statistics returns holding_periods in
  mkBacktestResult signal_events returns holding_periods
    (Stats.win_rate stats) (Stats.avg_return stats)
    (Stats.max_return stats) (Stats.min_return stats)
    (Stats.std_return stats)
    (length returns)
    (Stats.profitable_count stats) (Stats.losing_count stats)
    (Stats.avg_holding_period stats)
    [("condition", PDescription (description condition));
     ("holding_period", PInt holding_period);
     ("price_column", PStr price_column);
     ("data_period",
      PPeriod (hd 0%Z (index data)) (last (index data) 0%Z))].

(** What the loop of [_calculate_signal_returns] records for one trigger:
    the event carries the price at the trigger's row, and the return is
    computed from it and from the resolved target price. *)
Definition trigger_record (data : DataFrame) (holding_period : Z)
    (price_column : string) (ev : SignalEvent) (ret : float) : Prop :=
  exists target_price : float,
    price_at data price_column (timestamp ev) = Some (signal_price ev) /\
    _find_target_price data (timestamp ev + days_ns holding_period)%Z
      price_column = Ok (Some target_price) /\
    ret = ((target_price - signal_price ev) / signal_price ev)%float /\
    signal_type ev = "buy".

(** The statistics as the specification words them. *)

(** [s] is a sum of the numbers of [l]: every element of the list enters
    it once, the additions being made in some order and grouping; the sum
    of no number is 0.0. *)
Inductive sum_of : list float -> float -> Prop :=
| sum_of_nil : sum_of [] 0%float
| sum_of_one (x : float) : sum_of [x] x
| sum_of_add (l1 l2 : list float) (s1 s2 : float) :
    sum_of l1 s1 -> sum_of l2 s2 -> sum_of (l1 ++ l2) (s1 + s2)%float
| sum_of_perm (l l' : list float) (s : float) :
    Permutation l l' -> sum_of l s -> sum_of l' s.

(** The squared deviations of the numbers of [l] from [m]. *)
Definition squared_deviations (m : float) (l : list float) : list float :=
  map (fun x => ((x - m) * (x - m))%float) l.

(** [m] is an arithmetic mean of [l]: a sum of its numbers over their
    count. *)
Definition mean_of (l : list float) (m : float) : Prop :=
  exists s, sum_of l s /\ m = (s / float_of_nat (length l))%float.

(** [sd] is a standard deviation of [l] about the mean [m], with [divisor]
    for the number the sum of the squared deviations is divided by: the
    count N for the population standard deviation, N - 1 for the sample
    one. *)
Definition std_of (divisor : nat) (l : list float) (m sd : float) : Prop :=
  exists s2,
    sum_of (squared_deviations m l) s2 /\
    sd = PrimFloat.sqrt (s2 / float_of_nat divisor).

(** The number of returns strictly above zero, and strictly below. *)
Definition count_gains (l : list float) : nat :=
  length (filter (fun r => PrimFloat.ltb 0 r) l).
Definition count_losses (l : list float) : nat :=
  length (filter (fun r => PrimFloat.ltb r 0) l).

(** ** Holding periods *)

(** The nanoseconds that a pandas [Timestamp] and a [Timedelta] can hold,
    whatever the version of the library. *)
Definition ns_bound : Z := 9223372036854775000.

Definition representable (ns : Z) : bool := (Z.abs ns <=? ns_bound)%Z.

(** The holding period can be added to every timestamp of the table: the
    duration and the dates it leads to are representable. *)
Definition holding_period_in_range (data : DataFrame) (h : Z) : bool :=
  representable (days_ns h)
  && forallb (fun t => representable (t + days_ns h)%Z) (index data).

(** ** Sweeps *)

(** What a sweep keeps of one run: its result, or nothing when it raised. *)
Definition kept (r : result BacktestResult) : list BacktestResult :=
  match r with
  | Ok b => [b]
  | Raise _ => []
  end.

(** The results a sweep keeps for one condition, in the order of the holding
    periods. *)
Definition successful_runs (data : DataFrame) (condition : Condition)
    (holding_periods : list Z) : list BacktestResult :=
  flat_map (fun h => kept (run_result data condition h "close"))
    holding_periods.

(** The results of a whole sweep: conditions in the outer loop, holding
    periods in the inner one. *)
Definition sweep_results (data : DataFrame) (conditions : list Condition)
    (holding_periods : list Z) : list BacktestResult :=
  flat_map (fun c => successful_runs data c holding_periods) conditions.

(** The holding periods a sweep goes through. *)
Definition periods_of (holding_periods : option (list Z)) : list Z :=
  match holding_periods with
  | None => default_holding_periods
  | Some l => l
  end.

(** The test numbers a logger records as finished or failed, in the order
    they were written. *)
Definition test_numbers (lg : Logger) : list nat :=
  flat_map (fun entry =>
              match snd entry with
              | TestFinished n _ => [n]
              | TestFailed n _ _ => [n]
              | _ => []
              end) lg.

(** The failures a logger records for the tests of a sweep. *)
Definition failed_tests (lg : Logger) : list nat :=
  flat_map (fun entry =>
              match snd entry with
              | TestFailed n _ _ => [n]
              | _ => []
              end) lg.

(** A condition can be run over a table with the default price column when
    the table has rows and that column, and the condition evaluates. *)
Definition runnable (data : DataFrame) (condition : Condition) : bool :=
  negb (empty data) && has_column data "close"
  && is_ok (evaluate condition data).

(** ** The grammar of text conditions *)

(** [sub] occurs in [s] at offset [i]. *)
Definition occurs_at (s sub : string) (i : nat) : bool :=
  Str.startswith (Str.slice_from i s) sub.

(** The grammar of an atomic comparison: an identifier, optional
    whitespace, an operator, optional whitespace, a number. *)
Definition numeric_grammar (s column : string) (op : ComparisonOperator)
    (value_str : string) : Prop :=
  exists ws1 ws2 : string,
    s = (column ++ ws1 ++ ComparisonOperator_value op ++ ws2
           ++ value_str)%string /\
    column <> EmptyString /\ all is_word column = true /\
    all is_space ws1 = true /\ all is_space ws2 = true /\
    value_str <> EmptyString /\ all is_numch value_str = true.

(** The number of parentheses open at the end of [s] (closings in excess
    count as negative). *)
Fixpoint paren_depth (s : string) : Z :=
  match s with
  | EmptyString => 0
  | String c rest =>
      (if Ascii.eqb c "(" then 1 else if Ascii.eqb c ")" then -1 else 0)
      + paren_depth rest
  end.

(** Offset [i] of [s] is at top level when no parenthesis is open there. *)
Definition top_level (s : string) (i : nat) : bool :=
  (paren_depth (Str.slice_to i s) =? 0)%Z.

(** The string does not end with whitespace. *)
Definition no_trailing_space (s : string) : Prop :=
  forall pre c, s = (pre ++ String c "")%string -> is_space c = false.

(** ** What a condition refers to *)

(** The columns the comparisons and crossings of a condition read, at any
    depth. *)
Fixpoint referenced_columns (c : Condition) : list string :=
  match c with
  | NumericCompare column _ _ _ => [column]
  | SignalCross fast_col slow_col _ _ => [fast_col; slow_col]
  | TechnicalPattern _ _ _ => []
  | Logic _ conditions _ => flat_map referenced_columns conditions
  end.

(** The conditions the text parser can build: comparisons, joined by AND
    and OR nodes of at least two children and NOT nodes of one. *)
Inductive text_condition : Condition -> Prop :=
| text_comparison column op value d :
    text_condition (NumericCompare column op value d)
| text_and conditions d :
    2 <= length conditions -> Forall text_condition conditions ->
    text_condition (Logic AND conditions d)
| text_or conditions d :
    2 <= length conditions -> Forall text_condition conditions ->
    text_condition (Logic OR conditions d)
| text_not condition d :
    text_condition condition ->
    text_condition (Logic NOT [condition] d).

(** ** Definitions for the properties of the validator and of the
    performance analyzer *)

(** The condition gives, when it evaluates, one boolean for every row of
    the table: what a comparison and a crossing do over a well-formed
    table, and what a pattern function is expected to do. *)
Definition row_aligned (c : Condition) (data : DataFrame) : Prop :=
  forall sigs, evaluate c data = Ok sigs ->
    length sigs = length (index data).

(** The label of the errors of the condition at position [i] of a list. *)
Definition position_label (i : nat) : string :=
  "条件" ++ str_nat (i + 1) ++ ": ".

(** The errors of the condition at position [i], labelled. *)
Definition labelled_errors (data_columns : list string)
    (positioned : nat * Condition) : list string :=
  map (fun error => (position_label (fst positioned) ++ error)%string)
    (Validation.errors
       (validate_condition (snd positioned) data_columns)).

(** *** Rolling windows *)

(** The rows [calculate_rolling_performance] keeps for position [i]: one,
    from the run over the [window_size] rows before row [i], when that run
    succeeds, and none when it fails. *)
Definition rolling_row (data : DataFrame) (condition : Condition)
    (window_size i : nat) : list Rolling.row :=
  match run_result (iloc_slice data (i - window_size) i) condition 5
          "close" with
  | Ok result =>
      [Rolling.mk (nth i (index data) 0%Z) (win_rate result)
         (avg_return result) (total_signals result)]
  | Raise _ => []
  end.

(** The exceptions of the windows a log records as failed. *)
Definition window_failures (lg : PerformanceLogger) : list exn :=
  flat_map (fun record =>
              match snd record with
              | WindowFailed e => [e]
              | AnalyzerRecord _ => []
              end) lg.

(** ** Example tables and conditions *)

(** Midnight of the [n]-th of January 2024 (day 19723 of the epoch is
    2024-01-01). *)
Definition jan (n : Z) : Timestamp := days_ns (19722 + n).

(** Ten daily rows, 2024-01-01 to 2024-01-10; [mark] is 1 on the 5th. *)
Definition january : DataFrame :=
  mkDataFrame (map jan [1; 2; 3; 4; 5; 6; 7; 8; 9; 10]%Z)
    [("close", [101; 102; 103; 104; 100; 106; 107; 110; 120; 130]%float);
     ("mark", [0; 0; 0; 0; 1; 0; 0; 0; 0; 0]%float);
     ("fast", [1; 1; 3; 3; 1; 1; 3; 3; 1; 1]%float);
     ("slow", [2; 2; 2; 2; 2; 2; 2; 2; 2; 2]%float)].

(** The same days without the 6th, 7th and 8th. *)
Definition january_gap : DataFrame :=
  mkDataFrame (map jan [1; 2; 3; 4; 5; 9; 10]%Z)
    [("close", [101; 102; 103; 104; 100; 120; 130]%float);
     ("mark", [0; 0; 0; 0; 1; 0; 0]%float)].

(** A table whose price is zero on the marked day. *)
Definition zero_price_table : DataFrame :=
  mkDataFrame (map jan [1; 2; 3]%Z)
    [("close", [0; 5; 6]%float);
     ("mark", [1; 0; 0]%float)].

Definition on_mark : Condition :=
  NumericCompareCondition "mark" GREATER_THAN 0.5 "".

Definition never : Condition :=
  NumericCompareCondition "mark" GREATER_THAN 2 "".

Definition golden_cross : Condition :=
  SignalCrossCondition "fast" "slow" "golden" "".

(** A condition over a column the tables do not hold. *)
Definition malformed : Condition :=
  NumericCompareCondition "RSI_99" LESS_THAN 30 "".

(** A sweep of three conditions, the second of them malformed, with two
    holding periods. *)
Definition example_sweep : result (list BacktestResult) * Logger :=
  run_multiple_backtests january [on_mark; malformed; golden_cross]
    (Some [3; 5]%Z) [].

(** Text conditions with parentheses. *)
Definition and_inside_or : string := "(A > 1 AND B > 2) OR C > 3".
Definition and_of_groups : string := "(A > 1) AND (B > 2)".

(* ================================================================== *)
(** * Part II: properties *)
(* ================================================================== *)

(** ** Tables and series *)

Lemma has_column_lookup (data : DataFrame) (c : string) :
  has_column data c = true ->
  exists values, lookup_column (columns data) c = Some values /\
                 In (c, values) (columns data).
Proof.
  unfold has_column, column_names.
  induction (columns data) as [|[name values] rest IH]; simpl.
  - discriminate.
  - destruct (String.eqb c name) eqn:E; simpl.
    + intros _. apply String.eqb_eq in E. subst name.
      exists values. split; [reflexivity | now left].
    + intros H. destruct (IH H) as (v & Hv & Hin).
      exists v. split; [exact Hv | now right].
Qed.

Lemma wf_column_length (data : DataFrame) (c : string) :
  wf_table data -> has_column data c = true ->
  length (get_column data c) = length (index data).
Proof.
  intros Hwf Hc. destruct (has_column_lookup data c Hc) as (v & Hv & Hin).
  unfold get_column. rewrite Hv.
  pose proof (wf_lengths data Hwf) as Hall.
  rewrite Forall_forall in Hall. exact (Hall _ Hin).
Qed.

Lemma map2_length {A B C} (f : A -> B -> C) (l1 : list A) (l2 : list B) :
  length (map2 f l1 l2) = Nat.min (length l1) (length l2).
Proof. unfold map2. now rewrite length_map, length_combine. Qed.

Lemma map2_nth {A B C} (f : A -> B -> C) (l1 : list A) (l2 : list B)
    (i : nat) (dc : C) (da : A) (db : B) :
  i < length l1 -> i < length l2 ->
  nth i (map2 f l1 l2) dc = f (nth i l1 da) (nth i l2 db).
Proof.
  revert l2 i. induction l1 as [|a l1 IH]; intros [|b l2] [|i]; simpl;
    try lia; try reflexivity.
  intros H1 H2. unfold map2 in IH. apply IH; lia.
Qed.

Lemma removelast_len {A} (l : list A) :
  length (removelast l) = Nat.pred (length l).
Proof.
  rewrite removelast_firstn_len, length_firstn. lia.
Qed.

Lemma shift1_length (l : list float) : length (shift1 l) = length l.
Proof.
  destruct l as [|x l]; [reflexivity|].
  unfold shift1. cbn [length]. rewrite removelast_len. reflexivity.
Qed.

Lemma removelast_nth {A} (l : list A) (i : nat) (d : A) :
  S i < length l -> nth i (removelast l) d = nth i l d.
Proof.
  revert i. induction l as [|a l IH]; intros i Hi; [simpl in Hi; lia|].
  destruct l as [|b l]; [simpl in Hi; lia|].
  destruct i as [|i]; [reflexivity|].
  cbn [removelast nth]. apply IH. simpl in *. lia.
Qed.

(** The first row of a shifted series is NaN; row [i+1] holds what row [i]
    held. *)
Lemma shift1_nth_0 (l : list float) (d : float) :
  l <> [] -> nth 0 (shift1 l) d = PrimFloat.nan.
Proof. destruct l; [congruence | reflexivity]. Qed.

Lemma shift1_nth_S (l : list float) (i : nat) (d : float) :
  S i < length l -> nth (S i) (shift1 l) d = nth i l d.
Proof.
  destruct l as [|x l]; [simpl; lia|]. intros Hi.
  unfold shift1.
  change (nth i (removelast (x :: l)) d = nth i (x :: l) d).
  now apply removelast_nth.
Qed.

Lemma golden_series_nth (fast slow : list float) (i : nat) :
  length fast = length slow -> i < length fast ->
  nth i (series_and (series_gt fast slow)
                    (series_le (shift1 fast) (shift1 slow))) false
  = golden_at fast slow i.
Proof.
  intros Hlen Hi.
  unfold series_and, series_gt, series_le.
  rewrite (map2_nth andb _ _ i false false false);
    [| rewrite map2_length | rewrite map2_length, !shift1_length ]; try lia.
  rewrite (map2_nth _ fast slow i false PrimFloat.nan PrimFloat.nan);
    try lia.
  rewrite (map2_nth _ (shift1 fast) (shift1 slow) i false
             PrimFloat.nan PrimFloat.nan);
    rewrite ?shift1_length; try lia.
  destruct i as [|j].
  - assert (Hf : fast <> []) by (intros ->; simpl in Hi; lia).
    assert (Hs : slow <> [])
      by (intros ->; rewrite Hlen in Hi; simpl in Hi; lia).
    rewrite (shift1_nth_0 fast _ Hf), (shift1_nth_0 slow _ Hs).
    cbn [golden_at]. now rewrite andb_false_r.
  - rewrite !shift1_nth_S by lia. reflexivity.
Qed.

Lemma death_series_nth (fast slow : list float) (i : nat) :
  length fast = length slow -> i < length fast ->
  nth i (series_and (series_lt fast slow)
                    (series_ge (shift1 fast) (shift1 slow))) false
  = death_at fast slow i.
Proof.
  intros Hlen Hi.
  unfold series_and, series_lt, series_ge.
  rewrite (map2_nth andb _ _ i false false false);
    [| rewrite map2_length | rewrite map2_length, !shift1_length ]; try lia.
  rewrite (map2_nth _ fast slow i false PrimFloat.nan PrimFloat.nan);
    try lia.
  rewrite (map2_nth _ (shift1 fast) (shift1 slow) i false
             PrimFloat.nan PrimFloat.nan);
    rewrite ?shift1_length; try lia.
  destruct i as [|j].
  - assert (Hf : fast <> []) by (intros ->; simpl in Hi; lia).
    assert (Hs : slow <> [])
      by (intros ->; rewrite Hlen in Hi; simpl in Hi; lia).
    rewrite (shift1_nth_0 fast _ Hf), (shift1_nth_0 slow _ Hs).
    cbn [death_at]. now rewrite andb_false_r.
  - rewrite !shift1_nth_S by lia. reflexivity.
Qed.

Lemma cross_series_length (f g : float -> float -> bool)
    (f' g' : float -> float -> bool) (fast slow : list float) :
  length fast = length slow ->
  length (series_and (map2 f fast slow)
                     (map2 g (shift1 fast) (shift1 slow))) = length fast.
Proof.
  intros Hlen. unfold series_and.
  rewrite !map2_length, !shift1_length. lia.
Qed.

Lemma evaluate_cross_present (data : DataFrame)
    (fast_col slow_col cross_type : string) :
  has_column data fast_col = true -> has_column data slow_col = true ->
  evaluate_cross fast_col slow_col cross_type data =
  let fast := get_column data fast_col in
  let slow := get_column data slow_col in
  if String.eqb cross_type "golden" then
    Ok (series_and (series_gt fast slow)
                   (series_le (shift1 fast) (shift1 slow)))
  else if String.eqb cross_type "death" then
    Ok (series_and (series_lt fast slow)
                   (series_ge (shift1 fast) (shift1 slow)))
  else Raise (ValueError ("不支持的交叉类型: " ++ cross_type)).
Proof.
  intros Hf Hs. unfold evaluate_cross. cbn [filter].
  rewrite Hf, Hs. reflexivity.
Qed.

(** C4. Over a table that holds the fast and the slow column, a SignalCross
    condition of either direction evaluates without error to one boolean
    per row; the first row is false, and at every later row [i] the golden
    cross is true exactly when [fast[i] > slow[i]] and
    [fast[i-1] <= slow[i-1]], the death cross exactly when
    [fast[i] < slow[i]] and [fast[i-1] >= slow[i-1]]. *)
Theorem signal_cross_rows (data : DataFrame) (fast_col slow_col : string)
    (d : Description) :
  wf_table data ->
  has_column data fast_col = true ->
  has_column data slow_col = true ->
  let fast := get_column data fast_col in
  let slow := get_column data slow_col in
  exists golden death : list bool,
    evaluate (SignalCross fast_col slow_col "golden" d) data = Ok golden /\
    evaluate (SignalCross fast_col slow_col "death" d) data = Ok death /\
    length golden = length (index data) /\
    length death = length (index data) /\
    nth 0 golden false = false /\
    nth 0 death false = false /\
    forall i, 0 < i < length (index data) ->
      nth i golden false =
        (PrimFloat.ltb (nth i slow PrimFloat.nan) (nth i fast PrimFloat.nan)
         && PrimFloat.leb (nth (i - 1) fast PrimFloat.nan)
                          (nth (i - 1) slow PrimFloat.nan)) /\
      nth i death false =
        (PrimFloat.ltb (nth i fast PrimFloat.nan) (nth i slow PrimFloat.nan)
         && PrimFloat.leb (nth (i - 1) slow PrimFloat.nan)
                          (nth (i - 1) fast PrimFloat.nan)).
Proof.
  intros Hwf Hf Hs fast slow.
  pose proof (wf_column_length data fast_col Hwf Hf) as Lf.
  pose proof (wf_column_length data slow_col Hwf Hs) as Ls.
  fold fast in Lf. fold slow in Ls.
  assert (Hlen : length fast = length slow) by congruence.
  eexists. eexists.
  cbn [evaluate]. rewrite !evaluate_cross_present by assumption.
  cbn -[series_and series_gt series_le series_lt series_ge shift1].
  fold fast. fold slow.
  repeat split.
  - unfold series_gt, series_le.
    rewrite (cross_series_length _ _ PrimFloat.ltb PrimFloat.leb) by exact Hlen.
    exact Lf.
  - unfold series_lt, series_ge.
    rewrite (cross_series_length _ _ PrimFloat.ltb PrimFloat.leb) by exact Hlen.
    exact Lf.
  - destruct fast as [|x fast'] eqn:Ef; [reflexivity|].
    rewrite <- Ef in *. rewrite golden_series_nth; [reflexivity | exact Hlen |].
    rewrite Ef. simpl. lia.
  - destruct fast as [|x fast'] eqn:Ef; [reflexivity|].
    rewrite <- Ef in *. rewrite death_series_nth; [reflexivity | exact Hlen |].
    rewrite Ef. simpl. lia.
  - rewrite golden_series_nth by lia.
    destruct i as [|j]; [lia|]. cbn [golden_at].
    now replace (S j - 1) with j by lia.
  - rewrite death_series_nth by lia.
    destruct i as [|j]; [lia|]. cbn [death_at].
    now replace (S j - 1) with j by lia.
Qed.

(** ** Floats *)

(** Dividing by a zero gives an infinity or NaN, never a finite value. *)
Lemma div_zero_not_finite (x y : float) :
  is_zero y = true -> is_finite (x / y)%float = false.
Proof.
  unfold is_zero, is_finite. rewrite FloatAxioms.div_spec.
  destruct (Prim2SF y) as [s| | |]; try discriminate. intros _.
  destruct (Prim2SF x) as [sx|sx| |sx m e]; reflexivity.
Qed.

(** [x < y] and [y < x] never hold together. *)
Lemma ltb_exclusive (x y : float) :
  PrimFloat.ltb x y = true -> PrimFloat.ltb y x = false.
Proof.
  rewrite !FloatAxioms.ltb_spec. unfold SFltb.
  destruct (Prim2SF x) as [sx|sx| |sx mx ex], (Prim2SF y) as [sy|sy| |sy my ey];
    cbn; try discriminate; try reflexivity;
    try (destruct sx; discriminate || reflexivity);
    try (destruct sy; discriminate || reflexivity).
  all: try (destruct sx, sy; cbn; try discriminate; try reflexivity).
  all: rewrite (Z.compare_antisym ex ey);
    change (PosDef.Pos.compare_cont Eq my mx) with (Pos.compare my mx);
    change (PosDef.Pos.compare_cont Eq mx my) with (Pos.compare mx my);
    rewrite (Pos.compare_antisym mx my);
    destruct (ex ?= ey)%Z; cbn; try discriminate; try reflexivity;
    destruct (mx ?= my)%positive; cbn; try discriminate; reflexivity.
Qed.

(** A zero is neither above nor below zero. *)
Lemma ltb_zero_zero (x : float) :
  is_zero x = true ->
  PrimFloat.ltb 0 x = false /\ PrimFloat.ltb x 0 = false.
Proof.
  unfold is_zero. rewrite !FloatAxioms.ltb_spec.
  destruct (Prim2SF x) as [s| | |]; try discriminate. intros _.
  split; reflexivity.
Qed.

Lemma count_true_cons (b : bool) (mask : list bool) :
  count_true (b :: mask) = (if b then 1 else 0) + count_true mask.
Proof. unfold count_true. cbn. now destruct b. Qed.

Lemma count_true_le (mask : list bool) : count_true mask <= length mask.
Proof. unfold count_true. apply filter_length_le. Qed.

(** Gains and losses are counted apart: together they never exceed the
    number of returns. *)
Lemma gains_losses_le (l : list float) :
  count_true (map (fun r => PrimFloat.ltb 0 r) l)
  + count_true (map (fun r => PrimFloat.ltb r 0) l) <= length l.
Proof.
  induction l as [|x l IH]; [cbn; lia|].
  cbn [map length]. rewrite !count_true_cons.
  destruct (PrimFloat.ltb 0 x) eqn:E.
  - rewrite (ltb_exclusive _ _ E). lia.
  - destruct (PrimFloat.ltb x 0); lia.
Qed.

(** *** The order of the floats *)

Ltac cmp_cases :=
  repeat match goal with
  | |- context [(?a ?= ?b)%Z] => destruct (Z.compare_spec a b)
  | H : context [(?a ?= ?b)%Z] |- _ => destruct (Z.compare_spec a b)
  | |- context [(?a ?= ?b)%positive] => destruct (Pos.compare_spec a b)
  | H : context [(?a ?= ?b)%positive] |- _ => destruct (Pos.compare_spec a b)
  end.

Lemma SFleb_trans (x y z : spec_float) :
  SFleb x y = true -> SFleb y z = true -> SFleb x z = true.
Proof.
  unfold SFleb.
  destruct x as [sx|sx| |sx mx ex], y as [sy|sy| |sy my ey],
           z as [sz|sz| |sz mz ez]; cbn;
    try discriminate; try reflexivity;
    repeat match goal with s : bool |- _ => destruct s end; cbn;
    try discriminate; try reflexivity.
  all: change (PosDef.Pos.compare_cont Eq) with Pos.compare.
  all: cmp_cases; cbn; try discriminate; try reflexivity; try lia.
Qed.

Lemma SFleb_total (x y : spec_float) :
  x <> S754_nan -> y <> S754_nan -> SFleb x y = false -> SFleb y x = true.
Proof.
  unfold SFleb.
  destruct x as [sx|sx| |sx mx ex], y as [sy|sy| |sy my ey]; cbn;
    try congruence;
    repeat match goal with s : bool |- _ => destruct s end; cbn;
    try discriminate; try reflexivity; intros _ _.
  all: change (PosDef.Pos.compare_cont Eq) with Pos.compare.
  all: cmp_cases; cbn; try discriminate; try reflexivity; try lia.
Qed.

Lemma SFleb_refl (x : spec_float) : x <> S754_nan -> SFleb x x = true.
Proof.
  unfold SFleb. destruct x as [s|s| |s m e]; cbn; try congruence;
    try (destruct s; reflexivity). intros _.
  change (PosDef.Pos.compare_cont Eq) with Pos.compare.
  rewrite Z.compare_refl, Pos.compare_refl. now destruct s.
Qed.

Lemma is_nan_spec (x : float) :
  PrimFloat.is_nan x = false <-> Prim2SF x <> S754_nan.
Proof.
  unfold PrimFloat.is_nan. rewrite FloatAxioms.eqb_spec. unfold SFeqb.
  destruct (Prim2SF x) as [s|s| |s m e]; cbn.
  - split; [discriminate | reflexivity].
  - destruct s; (split; [discriminate | reflexivity]).
  - split; [discriminate | congruence].
  - change (PosDef.Pos.compare_cont Eq) with Pos.compare.
    rewrite Z.compare_refl, Pos.compare_refl.
    destruct s; (split; [discriminate | reflexivity]).
Qed.

Lemma leb_trans (x y z : float) :
  PrimFloat.leb x y = true -> PrimFloat.leb y z = true ->
  PrimFloat.leb x z = true.
Proof. rewrite !FloatAxioms.leb_spec. apply SFleb_trans. Qed.

Lemma leb_total (x y : float) :
  PrimFloat.is_nan x = false -> PrimFloat.is_nan y = false ->
  PrimFloat.leb x y = false -> PrimFloat.leb y x = true.
Proof.
  rewrite !is_nan_spec, !FloatAxioms.leb_spec. apply SFleb_total.
Qed.

Lemma leb_refl (x : float) :
  PrimFloat.is_nan x = false -> PrimFloat.leb x x = true.
Proof. rewrite is_nan_spec, FloatAxioms.leb_spec. apply SFleb_refl. Qed.

(** *** Maximum and minimum of an array *)

Lemma fold_maximum_member (rest : list float) (acc : float) :
  fold_left np_maximum rest acc = acc \/
  In (fold_left np_maximum rest acc) rest.
Proof.
  revert acc. induction rest as [|x rest IH]; intros acc; [now left|].
  cbn [fold_left]. unfold np_maximum at 2 4.
  destruct (PrimFloat.leb x acc || PrimFloat.is_nan acc).
  - destruct (IH acc) as [H|H]; [now left | right; now right].
  - destruct (IH x) as [H|H]; right; [left; now rewrite H | now right].
Qed.

Lemma fold_minimum_member (rest : list float) (acc : float) :
  fold_left np_minimum rest acc = acc \/
  In (fold_left np_minimum rest acc) rest.
Proof.
  revert acc. induction rest as [|x rest IH]; intros acc; [now left|].
  cbn [fold_left]. unfold np_minimum at 2 4.
  destruct (PrimFloat.leb acc x || PrimFloat.is_nan acc).
  - destruct (IH acc) as [H|H]; [now left | right; now right].
  - destruct (IH x) as [H|H]; right; [left; now rewrite H | now right].
Qed.

Lemma fold_maximum_bound (rest : list float) (acc : float) :
  PrimFloat.is_nan acc = false ->
  Forall (fun y => PrimFloat.is_nan y = false) rest ->
  PrimFloat.leb acc (fold_left np_maximum rest acc) = true /\
  Forall (fun y => PrimFloat.leb y (fold_left np_maximum rest acc) = true)
    rest.
Proof.
  revert acc. induction rest as [|x rest IH]; intros acc Hacc Hall.
  - cbn. split; [now apply leb_refl | constructor].
  - inversion Hall as [|? ? Hx Hrest]; subst.
    cbn [fold_left]. unfold np_maximum at 2 4. rewrite Hacc, orb_false_r.
    destruct (PrimFloat.leb x acc) eqn:E.
    + destruct (IH acc Hacc Hrest) as [H1 H2].
      split; [exact H1|]. constructor; [|exact H2].
      exact (leb_trans _ _ _ E H1).
    + destruct (IH x Hx Hrest) as [H1 H2].
      split; [|constructor; assumption].
      exact (leb_trans _ _ _ (leb_total _ _ Hx Hacc E) H1).
Qed.

Lemma fold_minimum_bound (rest : list float) (acc : float) :
  PrimFloat.is_nan acc = false ->
  Forall (fun y => PrimFloat.is_nan y = false) rest ->
  PrimFloat.leb (fold_left np_minimum rest acc) acc = true /\
  Forall (fun y => PrimFloat.leb (fold_left np_minimum rest acc) y = true)
    rest.
Proof.
  revert acc. induction rest as [|x rest IH]; intros acc Hacc Hall.
  - cbn. split; [now apply leb_refl | constructor].
  - inversion Hall as [|? ? Hx Hrest]; subst.
    cbn [fold_left]. unfold np_minimum at 2 4. rewrite Hacc, orb_false_r.
    destruct (PrimFloat.leb acc x) eqn:E.
    + destruct (IH acc Hacc Hrest) as [H1 H2].
      split; [exact H1|]. constructor; [|exact H2].
      exact (leb_trans _ _ _ H1 E).
    + destruct (IH x Hx Hrest) as [H1 H2].
      split; [|constructor; assumption].
      exact (leb_trans _ _ _ H1 (leb_total _ _ Hacc Hx E)).
Qed.

(** The maximum of a non-empty array is one of its elements, and bounds
    them all when none is NaN; likewise the minimum. *)
Lemma np_max_spec (a : list float) :
  a <> [] ->
  In (np_max a) a /\
  (Forall (fun y => PrimFloat.is_nan y = false) a ->
   Forall (fun y => PrimFloat.leb y (np_max a) = true) a).
Proof.
  destruct a as [|x rest]; [congruence|]. intros _. cbn [np_max]. split.
  - destruct (fold_maximum_member rest x) as [H|H];
      [left; now rewrite H | now right].
  - intros Hall. inversion Hall as [|? ? Hx Hrest]; subst.
    destruct (fold_maximum_bound rest x Hx Hrest) as [H1 H2].
    constructor; assumption.
Qed.

Lemma np_min_spec (a : list float) :
  a <> [] ->
  In (np_min a) a /\
  (Forall (fun y => PrimFloat.is_nan y = false) a ->
   Forall (fun y => PrimFloat.leb (np_min a) y = true) a).
Proof.
  destruct a as [|x rest]; [congruence|]. intros _. cbn [np_min]. split.
  - destruct (fold_minimum_member rest x) as [H|H];
      [left; now rewrite H | now right].
  - intros Hall. inversion Hall as [|? ? Hx Hrest]; subst.
    destruct (fold_minimum_bound rest x Hx Hrest) as [H1 H2].
    constructor; assumption.
Qed.

(** ** The pairwise summation *)

Lemma fold_left_sum_of (a l0 : list float) (s0 : float) :
  sum_of l0 s0 -> sum_of (l0 ++ a) (fold_left PrimFloat.add a s0).
Proof.
  revert l0 s0. induction a as [|x a IH]; intros l0 s0 H; cbn [fold_left].
  - now rewrite app_nil_r.
  - replace (l0 ++ x :: a) with ((l0 ++ [x]) ++ a)
      by now rewrite <- app_assoc.
    apply IH. apply sum_of_add; [exact H | constructor].
Qed.

Lemma sum_from_left_sum_of (a : list float) : sum_of a (sum_from_left a).
Proof. exact (fold_left_sum_of a [] 0%float sum_of_nil). Qed.

(** One group of elements, added to the accumulators. *)
Lemma add_group_sum_of (lanes : list (list float)) (r : list float) :
  Forall2 sum_of lanes r ->
  forall group : list float,
    Forall2 sum_of (map2 (fun lane x => lane ++ [x]) lanes group)
      (map2 PrimFloat.add r group).
Proof.
  unfold map2.
  induction 1 as [|lane s lanes r Hs _ IH]; intros [|x group]; cbn;
    try constructor.
  - apply sum_of_add; [exact Hs | constructor].
  - apply IH.
Qed.

Lemma add_group_permutation (lanes : list (list float)) :
  forall group : list float,
    length group = length lanes ->
    Permutation (concat (map2 (fun lane x => lane ++ [x]) lanes group))
      (concat lanes ++ group).
Proof.
  unfold map2.
  induction lanes as [|lane lanes IH]; intros [|x group] Hlen;
    try discriminate; cbn; [constructor|].
  rewrite <- !app_assoc. apply Permutation_app_head. cbn [app].
  etransitivity; [apply Permutation_cons; [reflexivity | apply IH] |].
  - now injection Hlen.
  - apply Permutation_middle.
Qed.

Lemma map2_add_length (r group : list float) :
  length group = length r ->
  length (map2 PrimFloat.add r group) = length r.
Proof.
  intros H. unfold map2. rewrite length_map, length_combine. lia.
Qed.

(** The loop over the groups: every accumulator holds a sum of the elements
    it has taken, and together they have taken the elements of the groups
    gone through. *)
Lemma add_groups_sum_of (groups : nat) :
  forall (r a : list float) (lanes : list (list float)),
    Forall2 sum_of lanes r -> length r = 8 -> 8 * groups <= length a ->
    exists lanes',
      Forall2 sum_of lanes' (fst (add_groups groups r a)) /\
      length (fst (add_groups groups r a)) = 8 /\
      snd (add_groups groups r a) = skipn (8 * groups) a /\
      Permutation (concat lanes') (concat lanes ++ firstn (8 * groups) a).
Proof.
  induction groups as [|groups IH]; intros r a lanes Hsum Hr Ha.
  - exists lanes. cbn. rewrite app_nil_r. auto.
  - cbn [add_groups].
    assert (Hg : length (firstn 8 a) = 8) by (rewrite length_firstn; lia).
    assert (Hl : length lanes = 8)
      by (apply Forall2_length in Hsum; lia).
    destruct (IH (map2 PrimFloat.add r (firstn 8 a)) (skipn 8 a)
                (map2 (fun lane x => lane ++ [x]) lanes (firstn 8 a)))
      as (lanes' & Hsum' & Hr' & Hrest & Hperm).
    + now apply add_group_sum_of.
    + rewrite map2_add_length; lia.
    + rewrite length_skipn. lia.
    + exists lanes'. repeat split; try assumption.
      * rewrite Hrest, skipn_skipn. f_equal. lia.
      * rewrite Hperm, add_group_permutation by lia.
        rewrite <- app_assoc. apply Permutation_app_head.
        replace (8 * S groups) with (8 + 8 * groups) by lia.
        rewrite <- (firstn_skipn 8 (firstn (8 + 8 * groups) a)).
        rewrite firstn_firstn, skipn_firstn_comm.
        replace (Nat.min 8 (8 + 8 * groups)) with 8 by lia.
        replace (8 + 8 * groups - 8) with (8 * groups) by lia.
        reflexivity.
Qed.

Lemma add_accumulators_sum_of (lanes : list (list float))
    (r : list float) :
  Forall2 sum_of lanes r -> length r = 8 ->
  sum_of (concat lanes) (add_accumulators r).
Proof.
  intros H Hr.
  destruct r as [|r0 [|r1 [|r2 [|r3 [|r4 [|r5 [|r6 [|r7 [|? ?]]]]]]]]];
    try discriminate.
  destruct lanes
    as [|l0 [|l1 [|l2 [|l3 [|l4 [|l5 [|l6 [|l7 [|? ?]]]]]]]]];
    try (apply Forall2_length in H; discriminate).
  repeat match goal with
         | H : Forall2 _ (_ :: _) (_ :: _) |- _ =>
             apply Forall2_cons_iff in H; destruct H
         end.
  cbn [concat add_accumulators]. rewrite app_nil_r.
  replace (l0 ++ l1 ++ l2 ++ l3 ++ l4 ++ l5 ++ l6 ++ l7)
    with (((l0 ++ l1) ++ (l2 ++ l3)) ++ ((l4 ++ l5) ++ (l6 ++ l7)))
    by (now rewrite <- !app_assoc).
  repeat apply sum_of_add; assumption.
Qed.

(** A block of 8 elements or more: the unrolled sum is a sum of its
    elements. *)
Lemma sum_unrolled_sum_of (a : list float) :
  8 <= length a -> sum_of a (sum_unrolled a).
Proof.
  intros Hn. unfold sum_unrolled.
  assert (Hdiv : 8 * (length a / 8) <= length a)
    by (apply Nat.Div0.mul_div_le).
  destruct (add_groups_sum_of (length a / 8 - 1) (firstn 8 a) (skipn 8 a)
              (map (fun x => [x]) (firstn 8 a)))
    as (lanes & Hsum & Hr & Hrest & Hperm).
  - clear. induction (firstn 8 a) as [|x l IH]; cbn; constructor;
      [constructor | exact IH].
  - rewrite length_firstn. lia.
  - rewrite length_skipn. lia.
  - destruct (add_groups (length a / 8 - 1) (firstn 8 a) (skipn 8 a))
      as [r rest]. cbn [fst snd] in *.
    apply (sum_of_perm (concat lanes ++ rest)).
    + rewrite Hperm, Hrest, <- app_assoc, firstn_skipn.
      replace (concat (map (fun x => [x]) (firstn 8 a))) with (firstn 8 a).
      * now rewrite firstn_skipn.
      * clear. induction (firstn 8 a) as [|x l IH]; [reflexivity|].
        cbn. now rewrite <- IH.
    + apply fold_left_sum_of. now apply add_accumulators_sum_of.
Qed.

(** The halves of a block of more than 128 elements are shorter than the
    block. *)
Lemma halves_shorter (n : nat) :
  128 < n ->
  let n2 := n / 2 - (n / 2) mod 8 in
  0 < n2 /\ n2 < n.
Proof.
  intros H n2.
  assert (H2 : n / 2 < n) by (apply Nat.div_lt; lia).
  assert (H64 : 64 <= n / 2)
    by (apply Nat.div_le_lower_bound; lia).
  assert (Hm : (n / 2) mod 8 < 8) by (apply Nat.mod_upper_bound; lia).
  subst n2. lia.
Qed.

(** With enough fuel, the pairwise sum is a sum of the elements. *)
Lemma pairwise_sum_fuel_sum_of (fuel : nat) :
  forall a : list float,
    length a <= fuel -> sum_of a (pairwise_sum_fuel fuel a).
Proof.
  induction fuel as [|fuel IH]; intros a Hlen.
  - destruct a; [|cbn in Hlen; lia]. cbn. constructor.
  - cbn [pairwise_sum_fuel]. cbv zeta.
    destruct (Nat.ltb_spec (length a) 8); [apply sum_from_left_sum_of|].
    destruct (Nat.leb_spec (length a) 128);
      [now apply sum_unrolled_sum_of|].
    destruct (halves_shorter (length a)) as [Hpos Hlt]; [lia|].
    rewrite <- (firstn_skipn (length a / 2 - (length a / 2) mod 8) a)
      at 1.
    apply sum_of_add; apply IH.
    + rewrite length_firstn. lia.
    + rewrite length_skipn. lia.
Qed.

(** The fuel is never used up: more of it changes nothing. *)
Lemma pairwise_sum_fuel_enough (fuel1 : nat) :
  forall (fuel2 : nat) (a : list float),
    length a <= fuel1 -> length a <= fuel2 ->
    pairwise_sum_fuel fuel1 a = pairwise_sum_fuel fuel2 a.
Proof.
  induction fuel1 as [|fuel1 IH]; intros fuel2 a H1 H2.
  - destruct a; [|cbn in H1; lia]. now destruct fuel2.
  - destruct fuel2 as [|fuel2].
    { destruct a; [reflexivity | cbn in H2; lia]. }
    cbn [pairwise_sum_fuel]. cbv zeta.
    destruct (Nat.ltb_spec (length a) 8); [reflexivity|].
    destruct (Nat.leb_spec (length a) 128); [reflexivity|].
    destruct (halves_shorter (length a)) as [Hpos Hlt]; [lia|].
    f_equal; apply IH; rewrite ?length_firstn, ?length_skipn; lia.
Qed.

(** The pairwise sum, by cases on the length of the block. *)
Lemma pairwise_sum_unfold (a : list float) :
  pairwise_sum a =
  if Nat.ltb (length a) 8 then sum_from_left a
  else if Nat.leb (length a) 128 then sum_unrolled a
  else
    let n2 := length a / 2 - (length a / 2) mod 8 in
    (pairwise_sum (firstn n2 a) + pairwise_sum (skipn n2 a))%float.
Proof.
  unfold pairwise_sum. destruct (length a) as [|n] eqn:Hn.
  - destruct a; [reflexivity | discriminate].
  - cbn [pairwise_sum_fuel]. cbv zeta. rewrite Hn.
    destruct (Nat.ltb_spec (S n) 8); [reflexivity|].
    destruct (Nat.leb_spec (S n) 128); [reflexivity|].
    destruct (halves_shorter (S n)) as [Hpos Hlt]; [lia|].
    f_equal; apply pairwise_sum_fuel_enough;
      rewrite ?length_firstn, ?length_skipn; lia.
Qed.

(** [np.sum] adds up all the elements of the array, each once. *)
Lemma np_sum_sum_of (a : list float) : sum_of a (np_sum a).
Proof.
  unfold np_sum, pairwise_sum.
  apply (sum_of_add [] a); [constructor|].
  now apply pairwise_sum_fuel_sum_of.
Qed.

(** Fewer than 8 elements are added from the left. *)
Lemma np_sum_short (a : list float) :
  length a < 8 ->
  np_sum a = (0 + fold_left PrimFloat.add a 0)%float.
Proof.
  intros H. unfold np_sum. rewrite pairwise_sum_unfold.
  apply Nat.ltb_lt in H. now rewrite H.
Qed.

(** ** The analyzer, step by step *)

(** What a run does, by cases on its input: the value it returns or the
    exception it raises, and the records it appends to the logger. *)
Lemma run_backtest_cases (data : DataFrame) (condition : Condition)
    (holding_period : Z) (price_column : string) (lg : Logger) :
  run_backtest data condition holding_period price_column lg =
  if empty data then (Raise (ValueError "输入数据为空"), lg)
  else if negb (has_column data price_column) then
    (Raise (ValueError ("数据中缺少价格列: " ++ price_column)), lg)
  else
    let lg1 := lg ++ [(INFO, BacktestStarted holding_period)] in
    match evaluate condition data with
    | Raise e =>
        (Raise (ValueError ("计算条件信号失败: " ++ str_exn e)),
         lg1 ++ [(ERROR, SignalsFailed e)])
    | Ok sigs =>
        if negb (any sigs) then
          (Ok (_create_empty_result condition holding_period),
           lg1 ++ [(WARNING, NoSignals)])
        else
          match _calculate_signal_returns data sigs holding_period
                  price_column with
          | Raise e => (Raise e, lg1)
          | Ok triple =>
              let r := assemble_result data condition holding_period
                         price_column triple in
              (Ok r,
               lg1 ++ [(INFO, BacktestFinished (total_signals r) (win_rate r))])
          end
    end.
Proof.
  unfold run_backtest.
  destruct (empty data); [reflexivity|].
  destruct (negb (has_column data price_column)); [reflexivity|].
  unfold bind, log, _calculate_signals, try_except, lift, raise, ret.
  destruct (evaluate condition data) as [sigs|e]; [|reflexivity].
  destruct (negb (any sigs)); [reflexivity|].
  destruct (_calculate_signal_returns data sigs holding_period price_column)
    as [[[evs rets] hps]|e]; reflexivity.
Qed.

(** The value of a run does not depend on the logger it starts from. *)
Lemma run_backtest_fst (data : DataFrame) (condition : Condition)
    (holding_period : Z) (price_column : string) (lg : Logger) :
  fst (run_backtest data condition holding_period price_column lg) =
  run_result data condition holding_period price_column.
Proof.
  unfold run_result. rewrite !run_backtest_cases.
  destruct (empty data); [reflexivity|].
  destruct (negb (has_column data price_column)); [reflexivity|].
  cbv zeta.
  destruct (evaluate condition data) as [sigs|e]; [|reflexivity].
  destruct (negb (any sigs)); [reflexivity|].
  destruct (_calculate_signal_returns data sigs holding_period price_column);
    reflexivity.
Qed.

(** The value of a run, by cases. *)
Lemma run_result_cases (data : DataFrame) (condition : Condition)
    (holding_period : Z) (price_column : string) :
  run_result data condition holding_period price_column =
  if empty data then Raise (ValueError "输入数据为空")
  else if negb (has_column data price_column) then
    Raise (ValueError ("数据中缺少价格列: " ++ price_column))
  else
    match evaluate condition data with
    | Raise e => Raise (ValueError ("计算条件信号失败: " ++ str_exn e))
    | Ok sigs =>
        if negb (any sigs) then
          Ok (_create_empty_result condition holding_period)
        else
          match _calculate_signal_returns data sigs holding_period
                  price_column with
          | Raise e => Raise e
          | Ok triple =>
              Ok (assemble_result data condition holding_period
                    price_column triple)
          end
    end.
Proof.
  unfold run_result. rewrite run_backtest_cases.
  destruct (empty data); [reflexivity|].
  destruct (negb (has_column data price_column)); [reflexivity|].
  cbv zeta.
  destruct (evaluate condition data) as [sigs|e]; [|reflexivity].
  destruct (negb (any sigs)); [reflexivity|].
  destruct (_calculate_signal_returns data sigs holding_period price_column);
    reflexivity.
Qed.

(** ** Looking rows up *)

Lemma in_index_In (data : DataFrame) (t : Timestamp) :
  in_index data t = true <-> In t (index data).
Proof.
  unfold in_index. rewrite existsb_exists. split.
  - intros (x & Hx & E). apply Z.eqb_eq in E. now subst.
  - intros H. exists t. split; [exact H | apply Z.eqb_refl].
Qed.

Lemma in_index_false (data : DataFrame) (t : Timestamp) :
  in_index data t = false <-> ~ In t (index data).
Proof.
  rewrite <- in_index_In. destruct (in_index data t); split; congruence.
Qed.

Lemma position_In (t : Timestamp) (idx : list Timestamp) :
  In t idx ->
  exists i, position t idx = Some i /\ i < length idx /\
            nth_error idx i = Some t.
Proof.
  induction idx as [|t' rest IH]; [intros []|].
  intros Hin. cbn [position].
  destruct (Z.eqb_spec t t') as [->|Hne].
  - exists 0. cbn. repeat split. lia.
  - destruct Hin as [->|Hin]; [congruence|].
    destruct (IH Hin) as (i & Hp & Hi & Hn).
    exists (S i). rewrite Hp. cbn. repeat split; [lia | exact Hn].
Qed.

Lemma position_not_In (t : Timestamp) (idx : list Timestamp) :
  ~ In t idx -> position t idx = None.
Proof.
  induction idx as [|t' rest IH]; [reflexivity|].
  intros Hn. cbn [position].
  destruct (Z.eqb_spec t t') as [->|Hne].
  - exfalso. apply Hn. now left.
  - rewrite IH; [reflexivity|]. intros H. apply Hn. now right.
Qed.

(** In a table that holds column [c], [data.loc[t, c]] is the price at the
    row of [t]. *)
Lemma loc_price_at (data : DataFrame) (c : string) (t : Timestamp) :
  has_column data c = true ->
  forall p, loc data t c = Ok p <-> price_at data c t = Some p.
Proof.
  intros Hc p. destruct (has_column_lookup data c Hc) as (v & Hv & _).
  unfold loc, price_at, get_column. rewrite Hv.
  destruct (position t (index data)) as [i|]; [|split; discriminate].
  destruct (nth_error v i) as [x|]; split; congruence.
Qed.

Lemma price_at_defined (data : DataFrame) (c : string) (t : Timestamp) :
  wf_table data -> has_column data c = true -> In t (index data) ->
  exists p, price_at data c t = Some p.
Proof.
  intros Hwf Hc Hin.
  destruct (position_In t _ Hin) as (i & Hp & Hi & _).
  unfold price_at. rewrite Hp.
  rewrite <- (wf_column_length data c Hwf Hc) in Hi.
  destruct (nth_error (get_column data c) i) eqn:E; [eauto|].
  apply nth_error_None in E. lia.
Qed.

Lemma loc_defined (data : DataFrame) (c : string) (t : Timestamp) :
  wf_table data -> has_column data c = true -> In t (index data) ->
  exists p, loc data t c = Ok p /\ price_at data c t = Some p.
Proof.
  intros Hwf Hc Hin.
  destruct (price_at_defined data c t Hwf Hc Hin) as (p & Hp).
  exists p. split; [now apply loc_price_at | exact Hp].
Qed.

Lemma iloc_last_price (data : DataFrame) (c : string) :
  has_column data c = true ->
  forall p, iloc_last data c = Ok p <-> last_row_price data c = Some p.
Proof.
  intros Hc p. destruct (has_column_lookup data c Hc) as (v & Hv & _).
  unfold iloc_last, last_row_price, get_column. rewrite Hv.
  destruct (nth_error v (length (index data) - 1)); split; congruence.
Qed.

Lemma last_row_price_defined (data : DataFrame) (c : string) :
  wf_table data -> has_column data c = true -> index data <> [] ->
  exists p, last_row_price data c = Some p.
Proof.
  intros Hwf Hc Hne. unfold last_row_price.
  pose proof (wf_column_length data c Hwf Hc) as L.
  destruct (nth_error (get_column data c) (length (index data) - 1)) eqn:E;
    [eauto|].
  apply nth_error_None in E.
  destruct (index data); [congruence | simpl in *; lia].
Qed.

(** ** The first timestamp at or after a target *)

Lemma filter_head_first (target : Timestamp) (idx : list Timestamp) (t : Timestamp)
    (rest : list Timestamp) :
  filter (fun x => (target <=? x)%Z) idx = t :: rest ->
  In t idx /\ (target <= t)%Z.
Proof.
  intros H.
  assert (Hin : In t (filter (fun x => (target <=? x)%Z) idx))
    by (rewrite H; now left).
  apply filter_In in Hin. destruct Hin as [Hin Hle].
  split; [exact Hin | now apply Z.leb_le].
Qed.

(** In a table sorted by time, the first timestamp the filter keeps is the
    earliest one at or after the target. *)
Lemma filter_head_earliest (target : Timestamp) (idx : list Timestamp)
    (t : Timestamp) (rest : list Timestamp) :
  StronglySorted Z.lt idx ->
  filter (fun x => (target <=? x)%Z) idx = t :: rest ->
  forall t', In t' idx -> (target <= t')%Z -> (t <= t')%Z.
Proof.
  intros Hs. induction Hs as [|a l Hs IH Hall]; [discriminate|].
  cbn [filter]. destruct (Z.leb_spec target a) as [Hle|Hlt].
  - intros [= <- <-] t' [<-|Hin] Ht'; [lia|].
    rewrite Forall_forall in Hall. specialize (Hall _ Hin). lia.
  - intros Hf t' [<-|Hin] Ht'; [lia|]. now apply IH.
Qed.

Lemma filter_nil_all_before (target : Timestamp) (idx : list Timestamp) :
  filter (fun x => (target <=? x)%Z) idx = [] <->
  forall t, In t idx -> (t < target)%Z.
Proof.
  split.
  - intros H t Hin.
    destruct (Z.leb_spec target t) as [Hle|Hlt]; [|exact Hlt].
    assert (Hf : In t (filter (fun x => (target <=? x)%Z) idx))
      by (apply filter_In; split; [exact Hin | now apply Z.leb_le]).
    rewrite H in Hf. destruct Hf.
  - intros H. induction idx as [|a l IH]; [reflexivity|].
    cbn [filter]. destruct (Z.leb_spec target a) as [Hle|Hlt].
    + specialize (H a (or_introl eq_refl)). lia.
    + apply IH. intros t Ht. apply H. now right.
Qed.


(** ** Target-price resolution *)

(** The three cases of the resolution and the empty table, over a
    well-formed table that holds the price column. *)
Lemma find_target_price_cases (data : DataFrame) (c : string)
    (target : Timestamp) :
  wf_table data -> has_column data c = true ->
  (In target (index data) ->
     exists p, _find_target_price data target c = Ok (Some p) /\
               price_at data c target = Some p) /\
  (~ In target (index data) ->
     forall t, In t (index data) -> (target <= t)%Z ->
       (forall t', In t' (index data) -> (target <= t')%Z -> (t <= t')%Z) ->
       exists p, _find_target_price data target c = Ok (Some p) /\
                 price_at data c t = Some p) /\
  (index data <> [] ->
     (forall t, In t (index data) -> (t < target)%Z) ->
     exists p, _find_target_price data target c = Ok (Some p) /\
               last_row_price data c = Some p) /\
  (_find_target_price data target c = Ok None -> index data = []).
Proof.
  intros Hwf Hc. unfold _find_target_price. repeat split.
  - intros Hin. rewrite (proj2 (in_index_In data target) Hin).
    destruct (loc_defined data c target Hwf Hc Hin) as (p & Hl & Hp).
    exists p. rewrite Hl. cbn. split; [reflexivity | exact Hp].
  - intros Hnin t Hin Hle Hmin.
    rewrite (proj2 (in_index_false data target) Hnin).
    destruct (filter (fun x => (target <=? x)%Z) (index data))
      as [|t0 rest] eqn:Ef.
    + rewrite filter_nil_all_before in Ef. specialize (Ef t Hin). lia.
    + destruct (filter_head_first _ _ _ _ Ef) as [Hin0 Hle0].
      pose proof (filter_head_earliest _ _ _ _ (wf_sorted data Hwf) Ef t Hin Hle).
      pose proof (Hmin t0 Hin0 Hle0).
      assert (t0 = t) by lia. subst t0.
      destruct (loc_defined data c t Hwf Hc Hin) as (p & Hl & Hp).
      exists p. rewrite Hl. cbn. split; [reflexivity | exact Hp].
  - intros Hne Hall.
    assert (Hnin : ~ In target (index data))
      by (intros H; specialize (Hall _ H); lia).
    rewrite (proj2 (in_index_false data target) Hnin).
    rewrite (proj2 (filter_nil_all_before target (index data)) Hall).
    assert (He : empty data = false).
    { unfold empty. destruct (has_column_lookup data c Hc) as (v & _ & Hv).
      destruct (index data); [congruence|].
      destruct (columns data); [destruct Hv | reflexivity]. }
    rewrite He. cbn [negb].
    destruct (last_row_price_defined data c Hwf Hc Hne) as (p & Hp).
    exists p. rewrite (proj2 (iloc_last_price data c Hc p) Hp). cbn.
    split; [reflexivity | exact Hp].
  - destruct (in_index data target) eqn:Ein.
    + apply in_index_In in Ein.
      destruct (loc_defined data c target Hwf Hc Ein) as (p & Hl & _).
      rewrite Hl. discriminate.
    + destruct (filter (fun x => (target <=? x)%Z) (index data))
        as [|t0 rest] eqn:Ef.
      * destruct (index data) as [|a l] eqn:Ei; [reflexivity|].
        assert (Hne : index data <> []) by (rewrite Ei; discriminate).
        assert (He : empty data = false).
        { unfold empty. destruct (has_column_lookup data c Hc) as (v & _ & Hv).
          rewrite Ei. destruct (columns data); [destruct Hv | reflexivity]. }
        rewrite He. cbn [negb].
        destruct (last_row_price_defined data c Hwf Hc Hne) as (p & Hp).
        rewrite (proj2 (iloc_last_price data c Hc p) Hp). discriminate.
      * destruct (filter_head_first _ _ _ _ Ef) as [Hin0 _].
        destruct (loc_defined data c t0 Hwf Hc Hin0) as (p & Hl & _).
        rewrite Hl. discriminate.
Qed.

Lemma find_target_price_total (data : DataFrame) (c : string)
    (target : Timestamp) :
  wf_table data -> has_column data c = true -> index data <> [] ->
  exists p, _find_target_price data target c = Ok (Some p).
Proof.
  intros Hwf Hc Hne.
  destruct (find_target_price_cases data c target Hwf Hc)
    as (Hexact & Hnext & Hlast & _).
  destruct (in_index data target) eqn:Ein.
  - apply in_index_In in Ein. destruct (Hexact Ein) as (p & Hp & _). eauto.
  - apply in_index_false in Ein.
    destruct (filter (fun x => (target <=? x)%Z) (index data))
      as [|t0 rest] eqn:Ef.
    + rewrite filter_nil_all_before in Ef.
      destruct (Hlast Hne Ef) as (p & Hp & _). eauto.
    + destruct (filter_head_first _ _ _ _ Ef) as [Hin0 Hle0].
      destruct (Hnext Ein t0 Hin0 Hle0
                  (filter_head_earliest _ _ _ _ (wf_sorted data Hwf) Ef))
        as (p & Hp & _).
      eauto.
Qed.

(** ** The loop over the triggers *)

Lemma signal_dates_in_index (data : DataFrame) (sigs : list bool)
    (t : Timestamp) :
  In t (signal_dates_of data sigs) -> In t (index data).
Proof.
  unfold signal_dates_of. intros H.
  apply in_map_iff in H. destruct H as ([t' b] & <- & H).
  apply filter_In in H. destruct H as [H _].
  now apply in_combine_l in H.
Qed.

Lemma any_false_no_dates (data : DataFrame) (sigs : list bool) :
  any sigs = false -> signal_dates_of data sigs = [].
Proof.
  unfold any, signal_dates_of. generalize (index data). 
  induction sigs as [|b sigs IH]; intros idx H.
  - now destruct idx.
  - cbn in H. apply orb_false_elim in H. destruct H as [-> H].
    destruct idx as [|t idx]; [reflexivity|]. cbn. now apply IH.
Qed.

(** The constructor accepts up to 999999999 days in either direction. *)
Lemma timedelta_ok (h : Z) :
  (Z.abs h <= 999999999)%Z -> timedelta h = Ok (days_ns h).
Proof.
  intros H. unfold timedelta.
  now rewrite (proj2 (Z.leb_le _ _) H).
Qed.

Lemma timedelta_overflow (h : Z) :
  (999999999 < Z.abs h)%Z ->
  exists msg, timedelta h = Raise (OtherException "OverflowError" msg).
Proof.
  intros H. unfold timedelta.
  rewrite (proj2 (Z.leb_gt _ _) H).
  destruct ((- 2 ^ 31 <=? h) && (h <? 2 ^ 31))%Z; eauto.
Qed.

Lemma timedelta_cases (h : Z) :
  timedelta h = Ok (days_ns h) \/ exists e, timedelta h = Raise e.
Proof.
  unfold timedelta. destruct (Z.abs h <=? 999999999)%Z; [now left|].
  right. destruct ((- 2 ^ 31 <=? h) && (h <? 2 ^ 31))%Z; eauto.
Qed.

(** A holding period in range is one the constructor accepts. *)
Lemma holding_period_in_range_days (data : DataFrame) (h : Z) :
  holding_period_in_range data h = true -> (Z.abs h <= 999999999)%Z.
Proof.
  unfold holding_period_in_range, representable, ns_bound, days_ns,
    ns_per_day.
  intros H. apply andb_prop in H. destruct H as [H _].
  apply Z.leb_le in H. lia.
Qed.

Lemma signal_returns_loop_spec (data : DataFrame) (h : Z) (pc : string) :
  wf_table data -> has_column data pc = true ->
  timedelta h = Ok (days_ns h) ->
  forall dates : list Timestamp,
    (forall t, In t dates -> In t (index data)) ->
    forall evs0 rets0 hps0,
    exists evs rets,
      signal_returns_loop data h pc dates (evs0, rets0, hps0) =
        Ok (evs0 ++ evs, rets0 ++ rets, hps0 ++ repeat h (length dates)) /\
      map timestamp evs = dates /\
      Forall2 (trigger_record data h pc) evs rets.
Proof.
  intros Hwf Hc Hdays dates.
  induction dates as [|t dates IH]; intros Hin evs0 rets0 hps0.
  - exists [], []. cbn. rewrite !app_nil_r. repeat split. constructor.
  - assert (Ht : In t (index data)) by (apply Hin; now left).
    assert (Hne : index data <> []) by (intros E; rewrite E in Ht; destruct Ht).
    destruct (loc_defined data pc t Hwf Hc Ht) as (p & Hl & Hp).
    destruct (find_target_price_total data pc (t + days_ns h)%Z Hwf Hc Hne)
      as (tp & Htp).
    cbn [signal_returns_loop].
    rewrite (proj2 (in_index_In data t) Ht). cbn [negb].
    rewrite Hl, Hdays, Htp.
    destruct (IH (fun t' H => Hin t' (or_intror H))
                (evs0 ++ [mkSignalEvent t p "buy" ""])
                (rets0 ++ [((tp - p) / p)%float])
                (hps0 ++ [h]))
      as (evs & rets & Hloop & Hts & Hrec).
    exists (mkSignalEvent t p "buy" "" :: evs), (((tp - p) / p)%float :: rets).
    rewrite Hloop. rewrite <- !app_assoc. cbn [app length repeat map timestamp].
    repeat split.
    + now rewrite Hts.
    + constructor; [|exact Hrec].
      exists tp. cbn. repeat split; assumption.
Qed.

(** When the constructor of the duration raises, so does the loop at its
    first trigger. *)
Lemma signal_returns_loop_overflow (data : DataFrame) (h : Z) (pc : string)
    (e : exn) :
  wf_table data -> has_column data pc = true ->
  timedelta h = Raise e ->
  forall dates : list Timestamp,
    (forall t, In t dates -> In t (index data)) ->
    dates <> [] ->
    forall acc, signal_returns_loop data h pc dates acc = Raise e.
Proof.
  intros Hwf Hc Hdays [|t dates] Hin Hne acc; [congruence|].
  assert (Ht : In t (index data)) by (apply Hin; now left).
  destruct (loc_defined data pc t Hwf Hc Ht) as (p & Hl & Hp).
  cbn [signal_returns_loop].
  rewrite (proj2 (in_index_In data t) Ht). cbn [negb].
  now rewrite Hl, Hdays.
Qed.

(** A condition true at some row of the table has a trigger. *)
Lemma signal_dates_any (data : DataFrame) (sigs : list bool) :
  any sigs = true -> length sigs = length (index data) ->
  signal_dates_of data sigs <> [].
Proof.
  unfold any, signal_dates_of. generalize (index data).
  induction sigs as [|b sigs IH]; intros idx H Hlen; [discriminate|].
  destruct idx as [|t idx]; [discriminate|].
  cbn in H |- *. destruct b; cbn; [discriminate|].
  apply IH; [exact H | now injection Hlen].
Qed.

(** The lists of a successful run over a well-formed table: one event per
    true row of the condition, in order, each with its return and the
    holding period of the run. *)
Lemma run_result_lists (data : DataFrame) (c : Condition) (h : Z)
    (pc : string) (r : BacktestResult) :
  wf_table data ->
  run_result data c h pc = Ok r ->
  exists sigs,
    evaluate c data = Ok sigs /\
    map timestamp (signals r) = signal_dates_of data sigs /\
    Forall2 (trigger_record data h pc) (signals r) (returns r) /\
    holding_periods r = repeat h (length (signals r)).
Proof.
  intros Hwf. rewrite run_result_cases.
  destruct (empty data); [discriminate|].
  destruct (has_column data pc) eqn:Hc; [|discriminate]. cbn [negb].
  destruct (evaluate c data) as [sigs|e]; [|discriminate].
  destruct (any sigs) eqn:Ha; cbn [negb].
  - unfold _calculate_signal_returns.
    destruct (timedelta_cases h) as [Hdays|[e Hdays]].
    + destruct (signal_returns_loop_spec data h pc Hwf Hc Hdays
                  (signal_dates_of data sigs)
                  (signal_dates_in_index data sigs) [] [] [])
        as (evs & rets & Hloop & Hts & Hrec).
      rewrite Hloop. cbn [app]. intros [= <-].
      exists sigs. cbn. repeat split; try assumption.
      now rewrite <- Hts, length_map.
    + pose proof (signal_dates_in_index data sigs) as Hin.
      destruct (signal_dates_of data sigs) as [|t dates] eqn:Hd.
      * cbn. intros [= <-]. exists sigs. cbn. rewrite Hd.
        repeat split. constructor.
      * rewrite (signal_returns_loop_overflow data h pc e Hwf Hc Hdays
                   (t :: dates) Hin ltac:(discriminate)).
        discriminate.
  - intros [= <-]. exists sigs. cbn.
    rewrite (any_false_no_dates data sigs Ha).
    repeat split. constructor.
Qed.

(** ** Runs over well-formed tables *)

Lemma january_wf : wf_table january.
Proof.
  split.
  - cbn. repeat (constructor; [| repeat constructor; reflexivity ]).
    constructor.
  - cbn. repeat constructor; cbn; intuition discriminate.
  - cbn. repeat constructor.
Qed.


Lemma zero_price_table_wf : wf_table zero_price_table.
Proof.
  split.
  - cbn. repeat (constructor; [| repeat constructor; reflexivity ]).
    constructor.
  - cbn. repeat constructor; cbn; intuition discriminate.
  - cbn. repeat constructor.
Qed.

(** A run over a valid table, with a holding period that the constructor
    of the duration accepts, succeeds whenever the condition evaluates: the
    prices cannot make it fail. *)
Lemma run_succeeds (data : DataFrame) (c : Condition) (h : Z) (pc : string)
    (sigs : list bool) :
  wf_table data -> empty data = false -> has_column data pc = true ->
  (Z.abs h <= 999999999)%Z ->
  evaluate c data = Ok sigs ->
  exists r, run_result data c h pc = Ok r.
Proof.
  intros Hwf He Hc Hh Hev. rewrite run_result_cases, He, Hc, Hev.
  cbn [negb].
  destruct (negb (any sigs)); [eauto|].
  unfold _calculate_signal_returns.
  destruct (signal_returns_loop_spec data h pc Hwf Hc (timedelta_ok h Hh)
              (signal_dates_of data sigs)
              (signal_dates_in_index data sigs) [] [] [])
    as (evs & rets & Hloop & _).
  rewrite Hloop. eauto.
Qed.

Lemma run_ok_valid (data : DataFrame) (c : Condition) (h : Z) (pc : string)
    (r : BacktestResult) :
  run_result data c h pc = Ok r ->
  empty data = false /\ has_column data pc = true.
Proof.
  rewrite run_result_cases.
  destruct (empty data); [discriminate|].
  destruct (has_column data pc); [auto | discriminate].
Qed.



(** The three cases of the specification's example, computed. *)
Example target_exact_match :
  _find_target_price january (jan 5 + days_ns 3)%Z "close"
  = Ok (Some 110%float).
Proof. reflexivity. Qed.

Example target_next_available :
  _find_target_price january_gap (jan 5 + days_ns 3)%Z "close"
  = Ok (Some 120%float).
Proof. reflexivity. Qed.

Example target_beyond_table :
  _find_target_price january_gap (jan 5 + days_ns 30)%Z "close"
  = Ok (Some 130%float).
Proof. reflexivity. Qed.

(** ** Zero trigger prices *)

(** C2, as stated, fails: the marked row of [zero_price_table] has price
    0.0, and the run succeeds with an infinite return. *)
Lemma zero_price_run_succeeds :
  price_at zero_price_table "close" (jan 1) = Some 0%float /\
  exists r, run_result zero_price_table on_mark 1 "close" = Ok r /\
            map signal_price (signals r) = [0%float] /\
            returns r = [infinity] /\
            avg_return r = infinity.
Proof.
  split; [reflexivity|]. eexists. split; [vm_compute; reflexivity|].
  repeat split.
Qed.

(** C2, amended.  In every successful run over a well-formed table the
    return of each trigger is [(target_price - trigger_price) /
    trigger_price] in float arithmetic, with the trigger price read at the
    trigger's row; a trigger price of exactly zero does not fail the run:
    its return is recorded and is an infinity or NaN.  Whatever the prices,
    the run succeeds when the table is valid, the condition evaluates and
    the holding period can be added to the timestamps of the table. *)
Theorem zero_price_not_rejected (data : DataFrame) (c : Condition) (h : Z)
    (pc : string) (lg : Logger) :
  wf_table data ->
  (forall r, fst (run_backtest data c h pc lg) = Ok r ->
     Forall2
       (fun ev ret =>
          price_at data pc (timestamp ev) = Some (signal_price ev) /\
          (exists target_price : float,
             _find_target_price data (timestamp ev + days_ns h)%Z pc
               = Ok (Some target_price) /\
             ret = ((target_price - signal_price ev) / signal_price ev)%float)
          /\
          (is_zero (signal_price ev) = true -> is_finite ret = false))
       (signals r) (returns r)) /\
  (forall sigs, empty data = false -> has_column data pc = true ->
     holding_period_in_range data h = true ->
     evaluate c data = Ok sigs ->
     exists r, fst (run_backtest data c h pc lg) = Ok r).
Proof.
  intros Hwf. split.
  - intros r Hrun. rewrite run_backtest_fst in Hrun.
    destruct (run_result_lists data c h pc r Hwf Hrun)
      as (sigs & _ & _ & Hrec & _).
    eapply Forall2_impl; [|exact Hrec].
    intros ev ret (tp & Hprice & Hfind & Hret & _).
    repeat split.
    + exact Hprice.
    + exists tp. split; assumption.
    + intros Hz. subst ret. now apply div_zero_not_finite.
  - intros sigs He Hc Hh Hev. rewrite run_backtest_fst.
    exact (run_succeeds data c h pc sigs Hwf He Hc
             (holding_period_in_range_days data h Hh) Hev).
Qed.

Lemma zero_price_not_rejected_witness :
  exists r, fst (run_backtest zero_price_table on_mark 1 "close" []) = Ok r.
Proof.
  destruct (zero_price_not_rejected zero_price_table on_mark 1 "close" []
              zero_price_table_wf) as [_ H].
  exact (H [true; false; false] eq_refl eq_refl eq_refl eq_refl).
Defined.

(** The example of the specification: bought at 100.0 and valued at 110.0,
    a trigger returns 0.10. *)
Example return_ten_percent :
  exists r, run_result january on_mark 3 "close" = Ok r /\
            map signal_price (signals r) = [100%float] /\
            returns r = [0.1%float].
Proof. eexists. split; [vm_compute; reflexivity|]. split; reflexivity. Qed.

(** ** Input validation *)

(** C3, as stated, fails: a holding period of 0 days, and one of -2 days,
    are accepted and a result is returned. *)
Lemma nonpositive_holding_period_accepted :
  (exists r, run_result january on_mark 0 "close" = Ok r /\
             holding_periods r = [0%Z]) /\
  (exists r, run_result january on_mark (-2) "close" = Ok r /\
             holding_periods r = [(-2)%Z]).
Proof.
  split; eexists; (split; [vm_compute; reflexivity | reflexivity]).
Qed.

(** C3, amended.  A run fails with a ValueError, before anything is logged
    and without a result, whenever the table is empty or the price column
    is absent.  The sign of the holding period is not validated: over a
    valid table a run that succeeds for one holding period succeeds for
    every holding period, positive or not, that can be added to the
    timestamps of the table. *)
Theorem invalid_input_rejected (data : DataFrame) (c : Condition) (h : Z)
    (pc : string) :
  (empty data = true ->
     forall lg, run_backtest data c h pc lg
                = (Raise (ValueError "输入数据为空"), lg)) /\
  (empty data = false -> has_column data pc = false ->
     forall lg, run_backtest data c h pc lg
                = (Raise (ValueError ("数据中缺少价格列: " ++ pc)), lg)) /\
  (wf_table data ->
     forall h' r, run_result data c h pc = Ok r ->
       holding_period_in_range data h' = true ->
       exists r', run_result data c h' pc = Ok r').
Proof.
  repeat split.
  - intros He lg. now rewrite run_backtest_cases, He.
  - intros He Hc lg. now rewrite run_backtest_cases, He, Hc.
  - intros Hwf h' r Hrun Hh.
    destruct (run_ok_valid _ _ _ _ _ Hrun) as [He Hc].
    destruct (run_result_lists data c h pc r Hwf Hrun) as (sigs & Hev & _).
    exact (run_succeeds data c h' pc sigs Hwf He Hc
             (holding_period_in_range_days data h' Hh) Hev).
Qed.

Lemma invalid_input_rejected_witness :
  (forall lg, run_backtest (mkDataFrame [] []) on_mark 5 "close" lg
              = (Raise (ValueError "输入数据为空"), lg)) /\
  (forall lg, run_backtest january on_mark 5 "price" lg
              = (Raise (ValueError ("数据中缺少价格列: " ++ "price")), lg)) /\
  (exists r', run_result january on_mark (-2) "close" = Ok r').
Proof.
  split; [|split].
  - exact (proj1 (invalid_input_rejected (mkDataFrame [] []) on_mark 5 "close")
             eq_refl).
  - exact (proj1 (proj2 (invalid_input_rejected january on_mark 5 "price"))
             eq_refl eq_refl).
  - destruct (run_succeeds january on_mark 3 "close" _ january_wf
                eq_refl eq_refl ltac:(cbn; lia) eq_refl) as (r & Hr).
    exact (proj2 (proj2 (invalid_input_rejected january on_mark 3 "close"))
             january_wf (-2)%Z r Hr eq_refl).
Defined.

(** ** Runs without signals *)

(** C6. Over a valid table (not empty, with the price column), a condition
    that evaluates without error and is true at no row gives a result, not
    an exception: no events, no returns, [total_signals = 0], every
    statistic 0.0, and parameters that record the condition's description,
    the holding period and the note that no signals were found. *)
Theorem no_signals_empty_result (data : DataFrame) (c : Condition) (h : Z)
    (pc : string) (sigs : list bool) (lg : Logger) :
  empty data = false ->
  has_column data pc = true ->
  evaluate c data = Ok sigs ->
  any sigs = false ->
  exists r,
    fst (run_backtest data c h pc lg) = Ok r /\
    signals r = [] /\ returns r = [] /\ holding_periods r = [] /\
    total_signals r = 0 /\
    profitable_signals r = 0 /\ losing_signals r = 0 /\
    win_rate r = 0%float /\ avg_return r = 0%float /\
    max_return r = 0%float /\ min_return r = 0%float /\
    std_return r = 0%float /\ avg_holding_period r = 0%float /\
    parameters r = [("condition", PDescription (description c));
                    ("holding_period", PInt h);
                    ("note", PStr "No signals found")].
Proof.
  intros He Hc Hev Ha.
  exists (_create_empty_result c h).
  rewrite run_backtest_fst, run_result_cases, He, Hc, Hev, Ha.
  repeat split.
Qed.

Lemma no_signals_empty_result_witness :
  exists r,
    fst (run_backtest january never 5 "close" []) = Ok r /\
    signals r = [] /\ returns r = [] /\ holding_periods r = [] /\
    total_signals r = 0 /\
    profitable_signals r = 0 /\ losing_signals r = 0 /\
    win_rate r = 0%float /\ avg_return r = 0%float /\
    max_return r = 0%float /\ min_return r = 0%float /\
    std_return r = 0%float /\ avg_holding_period r = 0%float /\
    parameters r = [("condition", PDescription (description never));
                    ("holding_period", PInt 5);
                    ("note", PStr "No signals found")].
Proof.
  exact (no_signals_empty_result january never 5 "close"
           (repeat false 10) [] eq_refl eq_refl eq_refl eq_refl).
Defined.

(** ** Invariants of a result *)

(** Whatever the table, the loop over the triggers extends its three lists
    by the same number of entries, and every holding period it appends is
    the one of the run. *)
Lemma signal_returns_loop_lengths (data : DataFrame) (h : Z) (pc : string)
    (dates : list Timestamp) :
  forall evs0 rets0 hps0 evs rets hps,
    signal_returns_loop data h pc dates (evs0, rets0, hps0)
      = Ok (evs, rets, hps) ->
    exists k,
      length evs = length evs0 + k /\
      length rets = length rets0 + k /\
      hps = hps0 ++ repeat h k.
Proof.
  induction dates as [|t dates IH]; intros evs0 rets0 hps0 evs rets hps.
  - cbn. intros [= <- <- <-]. exists 0. cbn. rewrite app_nil_r.
    repeat split; lia.
  - cbn [signal_returns_loop].
    destruct (negb (in_index data t)); [apply IH|].
    destruct (loc data t pc) as [p|e]; [|discriminate].
    destruct (timedelta h) as [duration|e]; [|discriminate].
    destruct (_find_target_price data (t + duration)%Z pc)
      as [[tp|]|e]; [| apply IH | discriminate].
    intros Hloop. destruct (IH _ _ _ _ _ _ Hloop) as (k & He & Hr & Hh).
    exists (S k). rewrite !length_app in *. cbn [length] in *.
    repeat split; try lia.
    rewrite Hh, <- app_assoc. reflexivity.
Qed.

Lemma statistics_counts (rets : list float) (hps : list Z) :
  Stats.profitable_count (_calculate_statistics rets hps) = count_gains rets /\
  Stats.losing_count (_calculate_statistics rets hps) = count_losses rets.
Proof.
  unfold count_gains, count_losses.
  destruct rets as [|x rets]; [split; reflexivity|].
  unfold _calculate_statistics, count_true.
  cbn [Stats.profitable_count Stats.losing_count].
  split.
  - rewrite <- (length_map (fun r => PrimFloat.ltb 0 r)
                  (filter (fun r => PrimFloat.ltb 0 r) (x :: rets))).
    f_equal. generalize (x :: rets). intros l.
    induction l as [|y l IH]; [reflexivity|].
    cbn. destruct (PrimFloat.ltb 0 y) eqn:E; cbn; rewrite ?E, IH; reflexivity.
  - rewrite <- (length_map (fun r => PrimFloat.ltb r 0)
                  (filter (fun r => PrimFloat.ltb r 0) (x :: rets))).
    f_equal. generalize (x :: rets). intros l.
    induction l as [|y l IH]; [reflexivity|].
    cbn. destruct (PrimFloat.ltb y 0) eqn:E; cbn; rewrite ?E, IH; reflexivity.
Qed.

Lemma count_gains_losses_le (l : list float) :
  count_gains l + count_losses l <= length l.
Proof.
  unfold count_gains, count_losses.
  induction l as [|x l IH]; [cbn; lia|].
  cbn [filter length].
  destruct (PrimFloat.ltb 0 x) eqn:E.
  - rewrite (ltb_exclusive _ _ E). cbn [length]. lia.
  - destruct (PrimFloat.ltb x 0); cbn [length]; lia.
Qed.

(** C10. In every result of a successful run over a well-formed table the
    events, the returns and the holding periods are lists of one length,
    which is [total_signals];
    the profitable and the losing signals are the returns strictly above
    and strictly below zero, so that together they are at most
    [total_signals]; and every holding period listed is the one the run
    was given. *)
Theorem result_invariants (data : DataFrame) (c : Condition) (h : Z)
    (pc : string) (lg : Logger) (r : BacktestResult) :
  wf_table data ->
  fst (run_backtest data c h pc lg) = Ok r ->
  length (signals r) = total_signals r /\
  length (returns r) = total_signals r /\
  length (holding_periods r) = total_signals r /\
  profitable_signals r = count_gains (returns r) /\
  losing_signals r = count_losses (returns r) /\
  profitable_signals r + losing_signals r <= total_signals r /\
  Forall (fun hp => hp = h) (holding_periods r).
Proof.
  intros _. rewrite run_backtest_fst, run_result_cases.
  destruct (empty data); [discriminate|].
  destruct (negb (has_column data pc)); [discriminate|].
  destruct (evaluate c data) as [sigs|e]; [|discriminate].
  destruct (negb (any sigs)).
  - intros [= <-]. cbn. repeat split; try lia. constructor.
  - unfold _calculate_signal_returns.
    destruct (signal_returns_loop data h pc (signal_dates_of data sigs)
                ([], [], [])) as [[[evs rets] hps]|e] eqn:Hloop;
      [|discriminate].
    intros [= <-].
    destruct (signal_returns_loop_lengths _ _ _ _ _ _ _ _ _ _ Hloop)
      as (k & He & Hr & Hh).
    cbn [length app] in He, Hr, Hh. subst hps.
    destruct (statistics_counts rets (repeat h k)) as [Hg Hl].
    cbn [assemble_result signals returns holding_periods total_signals
         profitable_signals losing_signals].
    rewrite Hg, Hl, repeat_length.
    repeat split; try lia.
    + apply count_gains_losses_le.
    + apply Forall_forall. intros x Hx. now apply repeat_spec in Hx.
Qed.

Lemma result_invariants_witness :
  exists r,
    fst (run_backtest january golden_cross 2 "close" []) = Ok r /\
    length (signals r) = 2 /\ total_signals r = 2 /\
    profitable_signals r + losing_signals r <= total_signals r /\
    Forall (fun hp => hp = 2%Z) (holding_periods r).
Proof.
  eexists. split; [vm_compute; reflexivity|].
  destruct (result_invariants january golden_cross 2 "close" [] _
              january_wf eq_refl)
    as (_ & _ & _ & _ & _ & Hle & Hall).
  repeat split; [exact Hle | exact Hall].
Defined.

(** ** Crossings on the example table *)

Lemma signal_cross_rows_witness :
  exists golden death : list bool,
    evaluate (SignalCross "fast" "slow" "golden" (Text "")) january
      = Ok golden /\
    evaluate (SignalCross "fast" "slow" "death" (Text "")) january
      = Ok death /\
    nth 0 golden false = false /\ nth 0 death false = false.
Proof.
  destruct (signal_cross_rows january "fast" "slow" (Text "") january_wf
              eq_refl eq_refl)
    as (golden & death & Hg & Hd & _ & _ & Hg0 & Hd0 & _).
  exists golden, death. repeat split; assumption.
Defined.

(** The example of the specification: fast = [1,1,3,3] against
    slow = [2,2,2,2] crosses upward at the third row only. *)
Example golden_cross_example :
  evaluate (SignalCross "fast" "slow" "golden" (Text ""))
    (mkDataFrame (map jan [1; 2; 3; 4]%Z)
       [("fast", [1; 1; 3; 3]%float); ("slow", [2; 2; 2; 2]%float)])
  = Ok [false; false; true; false].
Proof. reflexivity. Qed.

(** ** Statistics *)

(** [np.mean] is a sum of all the elements over their number. *)
Lemma np_mean_mean_of (l : list float) : mean_of l (np_mean l).
Proof. exists (np_sum l). split; [apply np_sum_sum_of | reflexivity]. Qed.

(** [np.std] with [ddof] divides a sum of the squared deviations from the
    mean by [N - ddof]: by N with its default [ddof = 0]. *)
Lemma np_std_std_of (ddof : nat) (l : list float) :
  std_of (length l - ddof) l (np_mean l) (np_std ddof l).
Proof.
  exists (np_sum (squared_deviations (np_mean l) l)).
  split; [apply np_sum_sum_of|].
  unfold np_std, np_var, squared_deviations. now rewrite map_map.
Qed.

(** C5. For a non-empty list of returns the statistics are: the counts of
    returns strictly above and strictly below zero (a return that is a zero
    is in neither); the win rate, the count of gains over the number of
    returns; the mean, a sum of all the returns over their number N (numpy
    adds them pairwise; fewer than 8 returns are added from the left); the
    population standard deviation, the square root of a sum of all the
    squared deviations from that mean over N, not N - 1; and a maximum and
    a minimum that are elements of the list and, when no return is NaN,
    bound every return of the list. *)
Theorem statistics_of_returns (rets : list float) (hps : list Z) :
  rets <> [] ->
  let st := _calculate_statistics rets hps in
  Stats.profitable_count st = count_gains rets /\
  Stats.losing_count st = count_losses rets /\
  Stats.win_rate st
    = (float_of_nat (count_gains rets) / float_of_nat (length rets))%float /\
  (forall r, is_zero r = true ->
     PrimFloat.ltb 0 r = false /\ PrimFloat.ltb r 0 = false) /\
  mean_of rets (Stats.avg_return st) /\
  (length rets < 8 ->
   Stats.avg_return st
   = ((0 + fold_left PrimFloat.add rets 0)
      / float_of_nat (length rets))%float) /\
  std_of (length rets) rets (Stats.avg_return st) (Stats.std_return st) /\
  In (Stats.max_return st) rets /\
  In (Stats.min_return st) rets /\
  (Forall (fun r => PrimFloat.is_nan r = false) rets ->
   Forall (fun r => PrimFloat.leb r (Stats.max_return st) = true /\
                    PrimFloat.leb (Stats.min_return st) r = true) rets).
Proof.
  intros Hne st.
  destruct (statistics_counts rets hps) as [Hg Hl].
  destruct (np_max_spec rets Hne) as [Hmax_in Hmax_bound].
  destruct (np_min_spec rets Hne) as [Hmin_in Hmin_bound].
  assert (Hst : st = Stats.mk
            (float_of_nat (Stats.profitable_count st)
             / float_of_nat (length rets))%float
            (np_mean rets) (np_max rets) (np_min rets) (np_std 0 rets)
            (Stats.profitable_count st) (Stats.losing_count st)
            (Stats.avg_holding_period st)).
  { subst st. destruct rets as [|x rets]; [congruence | reflexivity]. }
  fold st in Hg, Hl.
  refine (conj Hg (conj Hl (conj _ (conj _ (conj _ (conj _ (conj _
            (conj _ (conj _ _))))))))).
  - rewrite Hst. cbn [Stats.win_rate]. now rewrite Hg.
  - intros r Hz. now apply ltb_zero_zero.
  - rewrite Hst. apply np_mean_mean_of.
  - intros Hshort. rewrite Hst. cbn [Stats.avg_return]. unfold np_mean.
    now rewrite np_sum_short.
  - rewrite Hst. cbn [Stats.avg_return Stats.std_return].
    rewrite <- (Nat.sub_0_r (length rets)) at 1. apply np_std_std_of.
  - rewrite Hst. exact Hmax_in.
  - rewrite Hst. exact Hmin_in.
  - intros Hnan. rewrite Hst. cbn [Stats.max_return Stats.min_return].
    specialize (Hmax_bound Hnan). specialize (Hmin_bound Hnan).
    rewrite Forall_forall in *. intros r Hr.
    split; [now apply Hmax_bound | now apply Hmin_bound].
Qed.

(** The example of the specification: of the returns 0.05, -0.02, 0.03,
    0.0 and -0.01, two are gains and two are losses; the win rate is
    2/5 = 0.40, and the mean is their sum from the left over 5. *)
Lemma statistics_of_returns_witness :
  let rets := [0.05; -0.02; 0.03; 0; -0.01]%float in
  let st := _calculate_statistics rets [3; 3; 3; 3; 3]%Z in
  Stats.profitable_count st = 2 /\
  Stats.losing_count st = 2 /\
  Stats.win_rate st = 0.4%float /\
  Stats.avg_return st
  = ((0 + ((((0 + 0.05) + -0.02) + 0.03) + 0) + -0.01) / 5)%float /\
  std_of 5 rets (Stats.avg_return st) (Stats.std_return st).
Proof.
  intros rets st.
  assert (Hne : rets <> []) by discriminate.
  destruct (statistics_of_returns rets [3; 3; 3; 3; 3]%Z Hne)
    as (Hg & Hl & Hw & _ & _ & Hmean & Hstd & _).
  fold st in Hg, Hl, Hw, Hmean, Hstd.
  refine (conj _ (conj _ (conj _ (conj _ Hstd)))).
  - rewrite Hg. reflexivity.
  - rewrite Hl. reflexivity.
  - rewrite Hw. reflexivity.
  - rewrite Hmean by (cbn; lia). reflexivity.
Defined.

(** On that list dividing by N and dividing by N - 1 differ, and the
    statistics report the former. *)
Example std_is_population_not_sample :
  let rets := [0.05; -0.02; 0.03; 0; -0.01]%float in
  Stats.std_return (_calculate_statistics rets []) = np_std 0 rets /\
  PrimFloat.eqb (np_std 0 rets) (np_std 1 rets) = false.
Proof. split; reflexivity. Qed.

(** Eight returns or more are not added from the left: on ten returns of
    0.1 the pairwise sum is 1.0, where the sum from the left is not. *)
Example pairwise_sum_of_ten :
  np_sum (repeat 0.1%float 10) = 1%float /\
  PrimFloat.eqb (fold_left PrimFloat.add (repeat 0.1%float 10) 0%float) 1
  = false.
Proof. split; reflexivity. Qed.

(** ** Sweeps *)

Lemma test_numbers_app (l1 l2 : Logger) :
  test_numbers (l1 ++ l2) = test_numbers l1 ++ test_numbers l2.
Proof. apply flat_map_app. Qed.

Lemma failed_tests_app (l1 l2 : Logger) :
  failed_tests (l1 ++ l2) = failed_tests l1 ++ failed_tests l2.
Proof. apply flat_map_app. Qed.

(** A run only appends to the logger, and none of its records is the record
    of a sweep. *)
Lemma run_backtest_appends (data : DataFrame) (c : Condition) (h : Z)
    (pc : string) (lg : Logger) :
  exists entries,
    run_backtest data c h pc lg = (run_result data c h pc, lg ++ entries) /\
    test_numbers entries = [] /\ failed_tests entries = [].
Proof.
  rewrite run_result_cases, run_backtest_cases.
  destruct (empty data).
  { exists []. now rewrite app_nil_r. }
  destruct (negb (has_column data pc)).
  { exists []. now rewrite app_nil_r. }
  cbv zeta.
  destruct (evaluate c data) as [sigs|e].
  2:{ eexists. rewrite <- app_assoc. repeat split. }
  destruct (negb (any sigs)).
  { eexists. rewrite <- app_assoc. repeat split. }
  destruct (_calculate_signal_returns data sigs h pc) as [triple|e].
  - eexists. rewrite <- app_assoc. repeat split.
  - eexists. repeat split.
Qed.

(** One iteration of the inner loop never raises: it keeps the result of
    the run or drops the failed run, counts the test and records it. *)
Lemma sweep_step_spec (data : DataFrame) (total : nat) (c : Condition)
    (results : list BacktestResult) (n : nat) (h : Z) (lg : Logger) :
  exists entries,
    sweep_step data total c (results, n) h lg =
      (Ok (results ++ kept (run_result data c h "close"), S n),
       lg ++ entries) /\
    test_numbers entries = [S n] /\
    length (kept (run_result data c h "close"))
      + length (failed_tests entries) = 1.
Proof.
  destruct (run_backtest_appends data c h "close" lg)
    as (entries & Hrun & Hnum & Hfail).
  unfold sweep_step, try_except, bind, log, ret. rewrite Hrun.
  destruct (run_result data c h "close") as [r|e]; cbn [kept].
  - exists (entries ++ [(INFO, TestFinished (S n) total)]).
    rewrite app_assoc, test_numbers_app, failed_tests_app, Hnum, Hfail.
    repeat split.
  - exists (entries ++ [(ERROR, TestFailed (S n) total e)]).
    rewrite app_assoc, app_nil_r, test_numbers_app, failed_tests_app,
      Hnum, Hfail.
    repeat split.
Qed.

(** The inner loop, over the holding periods. *)
Lemma inner_loop_spec (data : DataFrame) (total : nat) (c : Condition)
    (hps : list Z) :
  forall (results : list BacktestResult) (n : nat) (lg : Logger),
  exists entries,
    for_each hps (sweep_step data total c) (results, n) lg =
      (Ok (results ++ successful_runs data c hps, n + length hps),
       lg ++ entries) /\
    test_numbers entries = seq (S n) (length hps) /\
    length (successful_runs data c hps) + length (failed_tests entries)
      = length hps.
Proof.
  induction hps as [|h hps IH]; intros results n lg.
  - exists []. cbn. rewrite !app_nil_r, Nat.add_0_r. repeat split.
  - destruct (sweep_step_spec data total c results n h lg)
      as (e1 & Hstep & Hn1 & Hf1).
    destruct (IH (results ++ kept (run_result data c h "close")) (S n)
                (lg ++ e1)) as (e2 & Hrest & Hn2 & Hf2).
    exists (e1 ++ e2).
    cbn [for_each]. unfold bind at 1. rewrite Hstep, Hrest.
    unfold successful_runs in *. cbn [flat_map length seq].
    rewrite test_numbers_app, failed_tests_app, Hn1, Hn2, !length_app.
    rewrite <- !app_assoc.
    repeat split; try lia.
    now rewrite Nat.add_succ_r.
Qed.

(** The outer loop, over the conditions. *)
Lemma outer_loop_spec (data : DataFrame) (total : nat) (hps : list Z)
    (conditions : list Condition) :
  forall (results : list BacktestResult) (n : nat) (lg : Logger),
  exists entries,
    for_each conditions
      (fun acc condition =>
         for_each hps (sweep_step data total condition) acc)
      (results, n) lg =
      (Ok (results ++ sweep_results data conditions hps,
           n + length conditions * length hps),
       lg ++ entries) /\
    test_numbers entries = seq (S n) (length conditions * length hps) /\
    length (sweep_results data conditions hps)
      + length (failed_tests entries)
      = length conditions * length hps.
Proof.
  induction conditions as [|c conditions IH]; intros results n lg.
  - exists []. cbn. rewrite !app_nil_r, Nat.add_0_r. repeat split.
  - destruct (inner_loop_spec data total c hps results n lg)
      as (e1 & Hin & Hn1 & Hf1).
    destruct (IH (results ++ successful_runs data c hps) (n + length hps)
                (lg ++ e1)) as (e2 & Hrest & Hn2 & Hf2).
    exists (e1 ++ e2).
    cbn [for_each]. unfold bind at 1. rewrite Hin, Hrest.
    unfold sweep_results in *. cbn [flat_map length].
    rewrite test_numbers_app, failed_tests_app, Hn1, Hn2, !length_app.
    rewrite <- !app_assoc.
    repeat split; try lia.
    + now replace (n + S (length conditions) * length hps)
        with (n + length hps + length conditions * length hps) by lia.
    + now rewrite <- seq_app.
Qed.

(** A condition that cannot be run yields no result, whatever the holding
    period. *)
Lemma successful_runs_none (data : DataFrame) (c : Condition)
    (hps : list Z) :
  runnable data c = false -> successful_runs data c hps = [].
Proof.
  intros Hrun. unfold successful_runs.
  induction hps as [|h hps IH]; [reflexivity|].
  cbn [flat_map]. rewrite IH, app_nil_r.
  rewrite run_result_cases. unfold runnable in Hrun.
  destruct (empty data); [reflexivity|].
  destruct (has_column data "close"); [|reflexivity].
  cbn [negb andb] in Hrun |- *.
  destruct (evaluate c data); [discriminate | reflexivity].
Qed.

(** Over a well-formed table a condition that can be run yields one result
    per holding period, when the holding periods can be added to the
    timestamps of the table. *)
Lemma successful_runs_all (data : DataFrame) (c : Condition) (hps : list Z) :
  wf_table data ->
  Forall (fun h => holding_period_in_range data h = true) hps ->
  runnable data c = true ->
  length (successful_runs data c hps) = length hps.
Proof.
  intros Hwf Hrange Hrun. unfold runnable in Hrun.
  apply andb_prop in Hrun. destruct Hrun as [Hrun Hev].
  apply andb_prop in Hrun. destruct Hrun as [He Hc].
  apply negb_true_iff in He.
  destruct (evaluate c data) as [sigs|e] eqn:Heval; [|discriminate].
  unfold successful_runs.
  induction Hrange as [|h hps Hh _ IH]; [reflexivity|].
  cbn [flat_map length]. rewrite length_app, IH.
  destruct (run_succeeds data c h "close" sigs Hwf He Hc
              (holding_period_in_range_days data h Hh) Heval) as [r Hr].
  now rewrite Hr.
Qed.

Lemma sweep_results_count (data : DataFrame) (conditions : list Condition)
    (hps : list Z) :
  wf_table data ->
  Forall (fun h => holding_period_in_range data h = true) hps ->
  length (sweep_results data conditions hps)
  = length (filter (runnable data) conditions) * length hps.
Proof.
  intros Hwf Hrange. unfold sweep_results.
  induction conditions as [|c conditions IH]; [reflexivity|].
  cbn [flat_map filter]. rewrite length_app, IH.
  destruct (runnable data c) eqn:Hrun.
  - rewrite successful_runs_all by assumption. cbn [length]. lia.
  - rewrite successful_runs_none by assumption. reflexivity.
Qed.

(** C8. A sweep never raises, whatever the table, the conditions and the
    holding periods (the defaults when none are given).  It attempts the
    pairs in order, conditions in the outer loop and holding periods in the
    inner one: the tests it records are numbered 1, 2, ... up to the number
    of pairs.  It returns, in that order, the result of every pair whose run
    succeeds and nothing for a pair whose run fails; every failed pair is
    recorded as failed.  Over a well-formed table, with holding periods
    that can be added to its timestamps, a condition that cannot be run
    fails for every holding period and every other run succeeds, so that
    the number of results is the number of runnable conditions times the
    number of holding periods: with three conditions of which one is
    malformed and two holding periods, four. *)
Theorem sweep_resilience (data : DataFrame) (conditions : list Condition)
    (holding_periods : option (list Z)) (lg : Logger) :
  let hps := periods_of holding_periods in
  exists entries : Logger,
    run_multiple_backtests data conditions holding_periods lg
      = (Ok (sweep_results data conditions hps),
         lg ++ (INFO, SweepStarted (length conditions * length hps))
               :: entries) /\
    test_numbers entries = seq 1 (length conditions * length hps) /\
    length (sweep_results data conditions hps)
      + length (failed_tests entries)
      = length conditions * length hps /\
    (wf_table data ->
     Forall (fun h => holding_period_in_range data h = true) hps ->
     length (sweep_results data conditions hps)
       = length (filter (runnable data) conditions) * length hps) /\
    (wf_table data ->
     Forall (fun h => holding_period_in_range data h = true) hps ->
     forall c1 c2 c3 h1 h2,
       conditions = [c1; c2; c3] -> holding_periods = Some [h1; h2] ->
       length (filter (fun c => negb (runnable data c)) conditions) = 1 ->
       length (sweep_results data conditions hps) = 4).
Proof.
  intros hps.
  destruct (outer_loop_spec data (length conditions * length hps) hps
              conditions [] 0
              (lg ++ [(INFO, SweepStarted (length conditions * length hps))]))
    as (entries & Hloop & Hnum & Hfail).
  exists entries.
  refine (conj _ (conj Hnum (conj Hfail (conj _ _)))).
  - unfold run_multiple_backtests. fold (periods_of holding_periods).
    fold hps. cbv zeta. unfold bind, log, ret.
    rewrite Hloop. cbn [fst app]. now rewrite <- app_assoc.
  - intros Hwf Hrange. now apply sweep_results_count.
  - intros Hwf Hrange c1 c2 c3 h1 h2 Hc Hh Hone.
    rewrite sweep_results_count by assumption.
    subst conditions. subst hps. rewrite Hh. cbn [periods_of length].
    cbn [filter] in Hone |- *.
    destruct (runnable data c1), (runnable data c2), (runnable data c3);
      cbn in Hone |- *; lia.
Qed.

Lemma sweep_resilience_witness :
  wf_table january /\
  exists entries : Logger,
    example_sweep
      = (Ok (sweep_results january [on_mark; malformed; golden_cross]
               [3; 5]%Z),
         (INFO, SweepStarted 6) :: entries) /\
    test_numbers entries = [1; 2; 3; 4; 5; 6] /\
    failed_tests entries = [3; 4] /\
    length (sweep_results january [on_mark; malformed; golden_cross]
              [3; 5]%Z) = 4.
Proof.
  split; [exact january_wf|].
  destruct (sweep_resilience january [on_mark; malformed; golden_cross]
              (Some [3; 5]%Z) [])
    as (entries & Hrun & Hnum & Hfail & Hcount & Hfour).
  exists entries.
  refine (conj Hrun (conj Hnum (conj _ _))).
  - unfold example_sweep in *.
    assert (Hlog : snd (run_multiple_backtests january
                          [on_mark; malformed; golden_cross]
                          (Some [3; 5]%Z) [])
                   = (INFO, SweepStarted 6) :: entries)
      by now rewrite Hrun.
    vm_compute in Hlog. injection Hlog as <-. reflexivity.
  - apply (Hfour january_wf ltac:(repeat constructor)
             on_mark malformed golden_cross 3%Z 5%Z);
      reflexivity.
Defined.

(** Three conditions, the second of them malformed, and two holding
    periods: the sweep returns four results, not five; both runs of the
    malformed condition fail. *)
Lemma malformed_condition_drops_every_period :
  In malformed [on_mark; malformed; golden_cross] /\
  is_ok (evaluate malformed january) = false /\
  is_ok (evaluate on_mark january) = true /\
  is_ok (evaluate golden_cross january) = true /\
  exists results : list BacktestResult,
    fst example_sweep = Ok results /\
    length results = 4 /\ length results <> 5.
Proof.
  split; [right; left; reflexivity|].
  split; [reflexivity|]. split; [reflexivity|]. split; [reflexivity|].
  destruct (sweep_results january [on_mark; malformed; golden_cross]
              [3; 5]%Z) as [|r1 [|r2 [|r3 [|r4 [|r5 rest]]]]] eqn:E;
    try (vm_compute in E; discriminate E).
  exists [r1; r2; r3; r4].
  split; [| split; [reflexivity | discriminate]].
  unfold example_sweep.
  destruct (outer_loop_spec january 6 [3; 5]%Z
              [on_mark; malformed; golden_cross] [] 0
              ([] ++ [(INFO, SweepStarted 6)])) as (entries & Hloop & _).
  unfold run_multiple_backtests, bind, log, ret. cbn [length Nat.mul Nat.add].
  rewrite Hloop. cbn [fst app]. now rewrite E.
Defined.

(** ** Strings *)

Lemma length_slice_from (n : nat) (s : string) :
  String.length (Str.slice_from n s) = String.length s - n.
Proof.
  revert s. induction n as [|n IH]; intros s; cbn.
  - lia.
  - destruct s as [|c s]; cbn; [reflexivity | apply IH].
Qed.

Lemma length_slice_to (n : nat) (s : string) :
  String.length (Str.slice_to n s) = Nat.min n (String.length s).
Proof.
  revert s. induction n as [|n IH]; intros s; cbn; [reflexivity|].
  destruct s as [|c s]; cbn; [reflexivity | now rewrite IH].
Qed.

Lemma slice_to_from (n : nat) (s : string) :
  (Str.slice_to n s ++ Str.slice_from n s)%string = s.
Proof.
  revert s. induction n as [|n IH]; intros s; cbn; [reflexivity|].
  destruct s as [|c s]; cbn; [reflexivity | now rewrite IH].
Qed.

Lemma slice_from_add (n m : nat) (s : string) :
  Str.slice_from (n + m) s = Str.slice_from m (Str.slice_from n s).
Proof.
  revert s. induction n as [|n IH]; intros s; cbn; [reflexivity|].
  destruct s as [|c s]; cbn; [now destruct m | apply IH].
Qed.

Lemma length_lstrip_le (s : string) :
  String.length (Str.lstrip s) <= String.length s.
Proof.
  induction s as [|c s IH]; cbn; [lia|].
  destruct (is_space c); cbn; lia.
Qed.

Lemma length_rstrip_le (s : string) :
  String.length (Str.rstrip s) <= String.length s.
Proof.
  induction s as [|c s IH]; cbn; [lia|].
  destruct (Str.rstrip s) as [|b r]; [destruct (is_space c)|]; cbn in *; lia.
Qed.

Lemma length_strip_le (s : string) :
  String.length (Str.strip s) <= String.length s.
Proof.
  unfold Str.strip.
  pose proof (length_rstrip_le (Str.lstrip s)).
  pose proof (length_lstrip_le s). lia.
Qed.

Lemma length_append (a b : string) :
  String.length (a ++ b) = String.length a + String.length b.
Proof. induction a as [|c a IH]; cbn; [reflexivity | now rewrite IH]. Qed.

Lemma startswith_app (s prefix : string) :
  Str.startswith s prefix = true <->
  exists rest, s = (prefix ++ rest)%string.
Proof.
  revert s. induction prefix as [|a p IH]; intros s; cbn.
  - split; [intros _; now exists s | reflexivity].
  - destruct s as [|b s].
    + split; [discriminate | intros [rest H]; discriminate].
    + rewrite andb_true_iff, Ascii.eqb_eq, IH. split.
      * intros [-> [rest ->]]. now exists rest.
      * intros [rest H]. injection H as -> ->. split; [reflexivity|].
        now exists rest.
Qed.

Lemma startswith_length (s prefix : string) :
  Str.startswith s prefix = true -> String.length prefix <= String.length s.
Proof.
  rewrite startswith_app. intros [rest ->].
  rewrite length_append. lia.
Qed.

Lemma startswith_slice (s prefix : string) :
  Str.startswith s prefix = true ->
  s = (prefix ++ Str.slice_from (String.length prefix) s)%string.
Proof.
  rewrite startswith_app. intros [rest ->]. f_equal.
  induction prefix as [|a p IH]; cbn; [reflexivity | exact IH].
Qed.

(** ** Finding and splitting *)

(** [find] returns the offset of an occurrence that lies within the
    string. *)
Lemma find_occurs (s sub : string) (i : nat) :
  Str.find s sub = Some i ->
  occurs_at s sub i = true /\ i + String.length sub <= String.length s.
Proof.
  unfold occurs_at. revert i. induction s as [|c s IH]; intros i; cbn [Str.find].
  - destruct (Str.startswith "" sub) eqn:E; [|discriminate].
    intros [= <-]. split; [exact E|]. apply startswith_length in E.
    cbn in *. lia.
  - destruct (Str.startswith (String c s) sub) eqn:E.
    + intros [= <-]. split; [exact E|]. apply startswith_length in E. lia.
    + destruct (Str.find s sub) as [j|]; [|discriminate].
      cbn. intros [= <-]. destruct (IH j eq_refl) as [H1 H2].
      split; [exact H1 | cbn; lia].
Qed.

(** No occurrence starts before the one [find] returns. *)
Lemma find_first (s sub : string) (i : nat) :
  Str.find s sub = Some i ->
  forall j, j < i -> occurs_at s sub j = false.
Proof.
  unfold occurs_at. revert i. induction s as [|c s IH]; intros i; cbn [Str.find].
  - destruct (Str.startswith "" sub); [|discriminate].
    intros [= <-] j Hj. lia.
  - destruct (Str.startswith (String c s) sub) eqn:E.
    + intros [= <-] j Hj. lia.
    + destruct (Str.find s sub) as [k|] eqn:F; [|discriminate].
      cbn. intros [= <-] [|j] Hj; [exact E|].
      cbn. apply (IH k eq_refl). lia.
Qed.

(** [find] fails only when there is no occurrence at all. *)
Lemma find_none (s sub : string) :
  Str.find s sub = None -> forall j, j <= String.length s -> occurs_at s sub j = false.
Proof.
  unfold occurs_at. induction s as [|c s IH]; cbn [Str.find].
  - destruct (Str.startswith "" sub) eqn:E; [discriminate|].
    intros _ j Hj. cbn in Hj. now replace j with 0 by lia.
  - destruct (Str.startswith (String c s) sub) eqn:E; [discriminate|].
    destruct (Str.find s sub) as [k|] eqn:F; [discriminate|].
    intros _ [|j] Hj; [exact E|]. cbn. apply IH; [reflexivity|].
    cbn in Hj. lia.
Qed.

Lemma contains_find (s sub : string) :
  Str.contains s sub = true <-> exists i, Str.find s sub = Some i.
Proof.
  unfold Str.contains. destruct (Str.find s sub) as [i|].
  - split; [intros _; now exists i | reflexivity].
  - split; [discriminate | intros [i H]; discriminate].
Qed.

(** Any fuel that reaches the length of the string is enough for [split]. *)
Lemma split_loop_fuel (sep : string) :
  sep <> EmptyString ->
  forall (fuel1 fuel2 : nat) (s : string),
    String.length s <= fuel1 -> String.length s <= fuel2 ->
    Str.split_loop fuel1 s sep = Str.split_loop fuel2 s sep.
Proof.
  intros Hsep.
  assert (Hlen : 1 <= String.length sep)
    by (destruct sep; [congruence | cbn; lia]).
  induction fuel1 as [|fuel1 IH]; intros fuel2 s H1 H2.
  - destruct fuel2 as [|fuel2]; [reflexivity|]. cbn [Str.split_loop].
    destruct (Str.find s sep) as [i|] eqn:F; [|reflexivity].
    destruct (find_occurs s sep i F) as [_ Hb]. lia.
  - cbn [Str.split_loop]. destruct (Str.find s sep) as [i|] eqn:F.
    + destruct (find_occurs s sep i F) as [_ Hb].
      destruct fuel2 as [|fuel2]; [lia|].
      cbn [Str.split_loop]. rewrite F. f_equal.
      apply IH; rewrite length_slice_from; lia.
    + destruct fuel2; cbn [Str.split_loop]; now rewrite ?F.
Qed.

(** [split] cuts at the first occurrence of the separator and goes on with
    what follows it. *)
Lemma split_unfold (s sep : string) :
  sep <> EmptyString ->
  Str.split s sep =
  match Str.find s sep with
  | Some i =>
      Str.slice_to i s
      :: Str.split (Str.slice_from (i + String.length sep) s) sep
  | None => [s]
  end.
Proof.
  intros Hsep.
  assert (Hlen : 1 <= String.length sep)
    by (destruct sep; [congruence | cbn; lia]).
  unfold Str.split. destruct (Str.find s sep) as [i|] eqn:F.
  - destruct (find_occurs s sep i F) as [_ Hb].
    destruct (String.length s) as [|m] eqn:Hm; [lia|].
    cbn [Str.split_loop]. rewrite F. f_equal.
    apply split_loop_fuel; [exact Hsep | | reflexivity].
    rewrite length_slice_from, Hm. lia.
  - destruct (String.length s); cbn [Str.split_loop]; now rewrite ?F.
Qed.

Lemma split_not_nil (s sep : string) :
  sep <> EmptyString -> Str.split s sep <> [].
Proof.
  intros Hsep. rewrite split_unfold by exact Hsep.
  destruct (Str.find s sep); discriminate.
Qed.

Lemma concat_cons (sep a : string) (l : list string) :
  l <> [] ->
  String.concat sep (a :: l) = (a ++ sep ++ String.concat sep l)%string.
Proof. destruct l; [congruence | reflexivity]. Qed.

(** Joining the parts with the separator gives the string back. *)
Lemma split_concat (sep : string) :
  sep <> EmptyString ->
  forall (n : nat) (s : string),
    String.length s <= n -> String.concat sep (Str.split s sep) = s.
Proof.
  intros Hsep.
  assert (Hlen : 1 <= String.length sep)
    by (destruct sep; [congruence | cbn; lia]).
  induction n as [|n IH]; intros s Hs; rewrite split_unfold by exact Hsep.
  - destruct (Str.find s sep) as [i|] eqn:F; [|reflexivity].
    destruct (find_occurs s sep i F) as [_ Hb]. lia.
  - destruct (Str.find s sep) as [i|] eqn:F; [|reflexivity].
    destruct (find_occurs s sep i F) as [Ho Hb].
    rewrite concat_cons by now apply split_not_nil.
    rewrite IH by (rewrite length_slice_from; lia).
    rewrite slice_from_add.
    unfold occurs_at in Ho. apply startswith_slice in Ho.
    rewrite <- Ho. apply slice_to_from.
Qed.

(** Every part is shorter than a string that holds the separator. *)
Lemma split_parts_shorter (sep : string) :
  sep <> EmptyString ->
  forall (n : nat) (s : string),
    String.length s <= n ->
    Forall (fun part => String.length part <= String.length s)
      (Str.split s sep) /\
    (Str.contains s sep = true ->
     Forall (fun part => String.length part < String.length s)
       (Str.split s sep)).
Proof.
  intros Hsep.
  assert (Hlen : 1 <= String.length sep)
    by (destruct sep; [congruence | cbn; lia]).
  induction n as [|n IH]; intros s Hs; rewrite split_unfold by exact Hsep;
    unfold Str.contains.
  - destruct (Str.find s sep) as [i|] eqn:F.
    + destruct (find_occurs s sep i F) as [_ Hb]. lia.
    + split; [repeat constructor | discriminate].
  - destruct (Str.find s sep) as [i|] eqn:F.
    + destruct (find_occurs s sep i F) as [_ Hb].
      destruct (IH (Str.slice_from (i + String.length sep) s)) as [Hle _].
      { rewrite length_slice_from. lia. }
      rewrite length_slice_from in Hle.
      split; [|intros _]; constructor;
        try (rewrite length_slice_to; lia);
        (eapply Forall_impl; [|exact Hle]); cbn; intros; lia.
    + split; [repeat constructor | discriminate].
Qed.

(** ** The pattern of a numeric comparison *)

Lemma append_assoc (a b c : string) :
  ((a ++ b) ++ c = a ++ b ++ c)%string.
Proof. induction a as [|x a IH]; cbn; [reflexivity | now rewrite IH]. Qed.

Lemma append_nil_r (a : string) : (a ++ "")%string = a.
Proof. induction a as [|x a IH]; cbn; [reflexivity | now rewrite IH]. Qed.

Lemma all_app (p : ascii -> bool) (a b : string) :
  all p (a ++ b) = all p a && all p b.
Proof.
  induction a as [|x a IH]; cbn; [reflexivity|].
  now rewrite IH, andb_assoc.
Qed.

(** The classes of the pattern that follow one another have no character
    in common. *)
Ltac by_cases_on c :=
  destruct c as [[] [] [] [] [] [] [] []]; vm_compute;
  solve [reflexivity | discriminate | intros; discriminate | intros; reflexivity].

Lemma space_not_word (c : ascii) : is_space c = true -> is_word c = false.
Proof. by_cases_on c. Qed.

Lemma space_not_numch (c : ascii) : is_space c = true -> is_numch c = false.
Proof. by_cases_on c. Qed.

Lemma numch_not_space (c : ascii) : is_numch c = true -> is_space c = false.
Proof. by_cases_on c. Qed.

(** Neither whitespace nor a character of a number is an equals sign. *)
Lemma not_equals_sign (c : ascii) :
  is_space c || is_numch c = true -> Ascii.eqb "=" c = false.
Proof. by_cases_on c. Qed.

(** An operator starts with a character that is neither of a word nor
    whitespace. *)
Lemma operator_head (op : ComparisonOperator) :
  exists c rest,
    ComparisonOperator_value op = String c rest /\
    is_word c = false /\ is_space c = false.
Proof. destruct op; eexists; eexists; repeat split. Qed.

(** [span] splits the string where the class stops. *)
Lemma span_eq (p : ascii -> bool) (s a b : string) :
  span p s = (a, b) ->
  s = (a ++ b)%string /\ all p a = true /\
  (forall c r, b = String c r -> p c = false).
Proof.
  revert a b. induction s as [|x s IH]; intros a b; cbn [span].
  - intros [= <- <-]. repeat split. discriminate.
  - destruct (p x) eqn:Hx.
    + destruct (span p s) as [a' b']. intros [= <- <-].
      destruct (IH a' b' eq_refl) as (-> & Ha & Hb).
      repeat split; [cbn; now rewrite Hx | exact Hb].
    + intros [= <- <-]. repeat split. now intros c r [= <- <-].
Qed.

Lemma span_app (p : ascii -> bool) (a b : string) :
  all p a = true -> (forall c r, b = String c r -> p c = false) ->
  span p (a ++ b) = (a, b).
Proof.
  intros Ha Hb. induction a as [|x a IH]; cbn in *.
  - destruct b as [|c r]; cbn [span]; [reflexivity|].
    now rewrite (Hb c r eq_refl).
  - apply andb_prop in Ha. destruct Ha as [Hx Ha].
    now rewrite Hx, (IH Ha).
Qed.

Lemma first_alternative_spec (alternatives : list string)
    (s alt rest : string) :
  first_alternative alternatives s = Some (alt, rest) ->
  In alt alternatives /\ s = (alt ++ rest)%string.
Proof.
  induction alternatives as [|a l IH]; cbn [first_alternative];
    [discriminate|].
  destruct (Str.startswith s a) eqn:E.
  - intros [= <- <-]. split; [now left | now apply startswith_slice].
  - intros H. destruct (IH H). split; [now right | assumption].
Qed.

(** The alternatives of the pattern are the values of the enumeration. *)
Lemma operator_alternatives_values (alt : string) :
  In alt operator_alternatives <->
  exists op, alt = ComparisonOperator_value op.
Proof.
  split.
  - cbn. intros [<-|[<-|[<-|[<-|[<-|[<-|[]]]]]]];
      [exists GREATER_EQUAL | exists LESS_EQUAL | exists GREATER_THAN
      | exists LESS_THAN | exists EQUAL | exists NOT_EQUAL]; reflexivity.
  - intros [[] ->]; cbn; tauto.
Qed.

Lemma operator_of_string_value (op : ComparisonOperator) :
  operator_of_string (ComparisonOperator_value op) = Some op.
Proof. now destruct op. Qed.

(** The first alternative that matches is the operator itself, when what
    follows it is whitespace or a number: [>=] is tried before [>], and [>]
    is not followed by [=]. *)
Lemma first_alternative_operator (op : ComparisonOperator) (rest : string) :
  (forall c r, rest = String c r -> is_space c || is_numch c = true) ->
  first_alternative operator_alternatives
    (ComparisonOperator_value op ++ rest)
  = Some (ComparisonOperator_value op, rest).
Proof.
  intros Hrest.
  destruct op; try reflexivity;
    (destruct rest as [|c r]; [reflexivity|]);
    pose proof (not_equals_sign c (Hrest c r eq_refl)) as Hc;
    cbn -[Ascii.eqb]; rewrite Hc; reflexivity.
Qed.

Lemma rstrip_no_trailing_space (s : string) :
  no_trailing_space (Str.rstrip s).
Proof.
  unfold no_trailing_space.
  induction s as [|a s IH]; intros pre c; cbn [Str.rstrip].
  - destruct pre; discriminate.
  - destruct (Str.rstrip s) as [|b r] eqn:E.
    + destruct (is_space a) eqn:Ha.
      * destruct pre; discriminate.
      * destruct pre as [|x pre]; cbn.
        -- now intros [= <-].
        -- destruct pre; discriminate.
    + destruct pre as [|x pre]; cbn; [discriminate|].
      intros [= <- H]. now apply (IH pre c).
Qed.

Lemma strip_no_trailing_space (s : string) :
  no_trailing_space (Str.strip s).
Proof. apply rstrip_no_trailing_space. Qed.

(** The pattern matches exactly the strings of the grammar, and its groups
    are the identifier, the operator and the number: the decomposition is
    unique. *)
Lemma match_numeric_grammar (s column operator value_str : string) :
  no_trailing_space s ->
  match_numeric s = Some (column, operator, value_str) <->
  exists op, operator = ComparisonOperator_value op /\
             numeric_grammar s column op value_str.
Proof.
  intros Hend. split.
  - unfold match_numeric.
    destruct (span is_word s) as [col r1] eqn:E1.
    destruct (String.eqb col "") eqn:Hcol; [discriminate|].
    destruct (span is_space r1) as [ws1 r2] eqn:E2.
    destruct (first_alternative operator_alternatives r2)
      as [[opv r3]|] eqn:E3; [|discriminate].
    destruct (span is_space r3) as [ws2 r4] eqn:E4.
    destruct (span is_numch r4) as [v r5] eqn:E5.
    destruct (String.eqb v "") eqn:Hv; [discriminate|].
    destruct (at_end r5) eqn:Hr5; [|discriminate].
    intros [= <- <- <-].
    apply span_eq in E1, E2, E4, E5.
    destruct E1 as (-> & Hw & _), E2 as (-> & Hs1 & _),
             E4 as (-> & Hs2 & _), E5 as (-> & Hn & _).
    apply first_alternative_spec in E3. destruct E3 as [Hin ->].
    apply operator_alternatives_values in Hin. destruct Hin as [op ->].
    apply String.eqb_neq in Hcol, Hv.
    assert (r5 = "") as ->.
    { unfold at_end in Hr5. apply orb_prop in Hr5.
      destruct Hr5 as [H|H]; apply String.eqb_eq in H; [exact H|].
      subst r5. exfalso.
      specialize (Hend (col ++ ws1 ++ ComparisonOperator_value op ++ ws2 ++ v)%string
                    "010"%char).
      rewrite !append_assoc in Hend. specialize (Hend eq_refl).
      discriminate Hend. }
    exists op. split; [reflexivity|].
    exists ws1, ws2. rewrite append_nil_r. repeat split; assumption.
  - intros (op & -> & ws1 & ws2 & -> & Hcol & Hw & Hs1 & Hs2 & Hv & Hn).
    destruct (operator_head op) as (oc & orest & Hop & Hoc_w & Hoc_s).
    assert (Hhead : forall c r, (ws2 ++ value_str)%string = String c r ->
                      is_space c || is_numch c = true).
    { intros c r. destruct ws2 as [|x ws2]; cbn.
      - intros ->. cbn in Hn. apply andb_prop in Hn. destruct Hn as [-> _].
        apply orb_true_r.
      - intros [= <- <-]. cbn in Hs2. apply andb_prop in Hs2.
        now destruct Hs2 as [-> _]. }
    unfold match_numeric.
    rewrite (span_app is_word column); [| exact Hw |].
    2:{ intros c r. destruct ws1 as [|x ws1]; cbn.
        - rewrite Hop. cbn. now intros [= <- <-].
        - intros [= <- <-]. cbn in Hs1. apply andb_prop in Hs1.
          destruct Hs1 as [Hx _]. now apply space_not_word. }
    apply String.eqb_neq in Hcol. rewrite Hcol.
    rewrite (span_app is_space ws1); [| exact Hs1 |].
    2:{ intros c r. rewrite Hop. cbn. now intros [= <- <-]. }
    rewrite first_alternative_operator by exact Hhead.
    rewrite (span_app is_space ws2); [| exact Hs2 |].
    2:{ intros c r ->. cbn in Hn. apply andb_prop in Hn.
        destruct Hn as [Hc _]. now apply numch_not_space. }
    rewrite <- (append_nil_r value_str) at 1.
    rewrite (span_app is_numch value_str ""); [| exact Hn | discriminate].
    apply String.eqb_neq in Hv. now rewrite Hv.
Qed.

(** ** Stripping *)

Lemma lstrip_head (s : string) (c : ascii) (r : string) :
  Str.lstrip s = String c r -> is_space c = false.
Proof.
  induction s as [|a s IH]; cbn [Str.lstrip]; [discriminate|].
  destruct (is_space a) eqn:Ha; [exact IH|]. now intros [= <- <-].
Qed.

Lemma rstrip_head (s : string) (c : ascii) (r : string) :
  Str.rstrip s = String c r -> exists r', s = String c r'.
Proof.
  destruct s as [|a s]; cbn [Str.rstrip]; [discriminate|].
  destruct (Str.rstrip s); [destruct (is_space a)|];
    intros [= <- <-] || discriminate; now exists s.
Qed.

Lemma lstrip_id (s : string) :
  (forall c r, s = String c r -> is_space c = false) -> Str.lstrip s = s.
Proof.
  destruct s as [|a s]; [reflexivity|]. intros H. cbn.
  now rewrite (H a s eq_refl).
Qed.

Lemma rstrip_idem (s : string) : Str.rstrip (Str.rstrip s) = Str.rstrip s.
Proof.
  induction s as [|a s IH]; [reflexivity|]. cbn [Str.rstrip].
  destruct (Str.rstrip s) as [|b r] eqn:E.
  - destruct (is_space a) eqn:Ha; [reflexivity|]. cbn. now rewrite Ha.
  - change (Str.rstrip (String a (String b r)))
      with (match Str.rstrip (String b r) with
            | EmptyString =>
                if is_space a then EmptyString else String a EmptyString
            | rest => String a rest
            end).
    now rewrite IH.
Qed.

(** Stripping twice is stripping once. *)
Lemma strip_idem (s : string) : Str.strip (Str.strip s) = Str.strip s.
Proof.
  unfold Str.strip.
  rewrite (lstrip_id (Str.rstrip (Str.lstrip s))); [apply rstrip_idem|].
  intros c r H. destruct (rstrip_head _ _ _ H) as [r' H'].
  exact (lstrip_head _ _ _ H').
Qed.

(** ** The parser *)

Lemma comprehension_ext {A B} (f g : A -> result B) (l : list A) :
  (forall x, In x l -> f x = g x) -> comprehension f l = comprehension g l.
Proof.
  induction l as [|x l IH]; intros H; [reflexivity|]. cbn [comprehension].
  rewrite (H x (or_introl eq_refl)), IH; [reflexivity|].
  intros y Hy. apply H. now right.
Qed.

(** The strings the parser calls itself on are shorter than the one it was
    given. *)
Lemma not_operand_shorter (cs : string) :
  Str.startswith cs "NOT " = true ->
  String.length (Str.strip (Str.slice_from 4 cs)) < String.length cs.
Proof.
  intros H. apply startswith_length in H. cbn in H.
  pose proof (length_strip_le (Str.slice_from 4 cs)) as Hle.
  rewrite length_slice_from in Hle. lia.
Qed.

Lemma inner_shorter (cs : string) :
  Str.startswith cs "(" = true ->
  String.length (Str.strip (Str.inner cs)) < String.length cs.
Proof.
  intros H. apply startswith_length in H. cbn in H.
  pose proof (length_strip_le (Str.inner cs)) as Hle.
  unfold Str.inner in *.
  rewrite length_slice_to, length_slice_from in Hle. lia.
Qed.

Lemma parts_shorter (cs sep part : string) :
  sep <> EmptyString -> Str.contains cs sep = true ->
  In part (map Str.strip (Str.split cs sep)) ->
  String.length part < String.length cs.
Proof.
  intros Hsep Hc Hin. apply in_map_iff in Hin.
  destruct Hin as (p & <- & Hp).
  destruct (split_parts_shorter sep Hsep (String.length cs) cs (le_n _))
    as [_ Hlt].
  specialize (Hlt Hc). rewrite Forall_forall in Hlt.
  pose proof (Hlt p Hp). pose proof (length_strip_le p). lia.
Qed.

(** The body of the parser only calls [self_parse] on shorter strings. *)
Lemma parse_body_ext (f g : string -> result Condition) (s : string) :
  (forall x, String.length x < String.length (Str.strip s) -> f x = g x) ->
  parse_body f s = parse_body g s.
Proof.
  intros H. unfold parse_body. cbv zeta. f_equal.
  destruct (Str.startswith (Str.strip s) "NOT ") eqn:Hnot.
  { now rewrite (H _ (not_operand_shorter _ Hnot)). }
  destruct (Str.startswith (Str.strip s) "(") eqn:Hopen;
    cbn [andb].
  - destruct (Str.endswith (Str.strip s) ")").
    { exact (H _ (inner_shorter _ Hopen)). }
    destruct (Str.contains (Str.strip s) " AND ") eqn:Hand.
    { rewrite (comprehension_ext f g); [reflexivity|].
      intros x Hx. apply H. eapply parts_shorter; eauto. discriminate. }
    destruct (Str.contains (Str.strip s) " OR ") eqn:Hor; [|reflexivity].
    rewrite (comprehension_ext f g); [reflexivity|].
    intros x Hx. apply H. eapply parts_shorter; eauto. discriminate.
  - destruct (Str.contains (Str.strip s) " AND ") eqn:Hand.
    { rewrite (comprehension_ext f g); [reflexivity|].
      intros x Hx. apply H. eapply parts_shorter; eauto. discriminate. }
    destruct (Str.contains (Str.strip s) " OR ") eqn:Hor; [|reflexivity].
    rewrite (comprehension_ext f g); [reflexivity|].
    intros x Hx. apply H. eapply parts_shorter; eauto. discriminate.
Qed.

(** Any fuel above the length of the string gives the same parse. *)
Lemma parse_fuel_enough (fuel1 : nat) :
  forall (fuel2 : nat) (s : string),
    String.length s < fuel1 -> String.length s < fuel2 ->
    parse_fuel fuel1 s = parse_fuel fuel2 s.
Proof.
  induction fuel1 as [|fuel1 IH]; intros fuel2 s H1 H2; [lia|].
  destruct fuel2 as [|fuel2]; [lia|]. cbn [parse_fuel].
  apply parse_body_ext. intros x Hx.
  pose proof (length_strip_le s). apply IH; lia.
Qed.

(** The parser satisfies the recursive equation of its source: the fuel is
    never used up. *)
Lemma parse_condition_string_unfold (s : string) :
  parse_condition_string s = parse_body parse_condition_string s.
Proof.
  unfold parse_condition_string at 1. cbn [parse_fuel].
  apply parse_body_ext. intros x Hx.
  pose proof (length_strip_le s).
  unfold parse_condition_string. apply parse_fuel_enough; lia.
Qed.

(** ** Atomic comparisons *)

Lemma create_numeric_condition_value (column : string)
    (op : ComparisonOperator) (value : float) :
  create_numeric_condition column (ComparisonOperator_value op) value
  = Ok (NumericCompareCondition column op value "").
Proof.
  unfold create_numeric_condition. now rewrite operator_of_string_value.
Qed.

Lemma parse_numeric_cases (s : string) :
  (exists column op value_str value,
     numeric_grammar (Str.strip s) column op value_str /\
     py_float value_str = Some value /\
     _parse_numeric_condition s
     = Ok (NumericCompareCondition column op value "")) \/
  (exists column op value_str,
     numeric_grammar (Str.strip s) column op value_str /\
     py_float value_str = None /\
     _parse_numeric_condition s
     = Raise (ValueError ("无效的数值: " ++ value_str))) \/
  ((forall column op value_str,
      ~ numeric_grammar (Str.strip s) column op value_str) /\
   _parse_numeric_condition s
   = Raise (ValueError ("无效的条件格式: " ++ s))).
Proof.
  unfold _parse_numeric_condition.
  pose proof (strip_no_trailing_space s) as Hend.
  destruct (match_numeric (Str.strip s)) as [[[column operator] value_str]|]
    eqn:M.
  - apply (match_numeric_grammar _ _ _ _ Hend) in M.
    destruct M as (op & -> & G).
    destruct (py_float value_str) as [value|] eqn:F.
    + left. exists column, op, value_str, value.
      rewrite create_numeric_condition_value. auto.
    + right. left. exists column, op, value_str. auto.
  - right. right. split; [|reflexivity].
    intros column op value_str G.
    assert (M' : match_numeric (Str.strip s)
                 = Some (column, ComparisonOperator_value op, value_str)).
    { apply (match_numeric_grammar _ _ _ _ Hend). now exists op. }
    congruence.
Qed.

(** The decomposition of the grammar is unique. *)
Lemma numeric_grammar_unique (s c1 c2 : string) (o1 o2 : ComparisonOperator)
    (v1 v2 : string) :
  no_trailing_space s ->
  numeric_grammar s c1 o1 v1 -> numeric_grammar s c2 o2 v2 ->
  c1 = c2 /\ o1 = o2 /\ v1 = v2.
Proof.
  intros Hend G1 G2.
  assert (M1 : match_numeric s = Some (c1, ComparisonOperator_value o1, v1))
    by (apply (match_numeric_grammar _ _ _ _ Hend); now exists o1).
  assert (M2 : match_numeric s = Some (c2, ComparisonOperator_value o2, v2))
    by (apply (match_numeric_grammar _ _ _ _ Hend); now exists o2).
  rewrite M1 in M2. injection M2 as -> Ho ->.
  repeat split. destruct o1, o2; (reflexivity || discriminate).
Qed.

(** ** What the text parser accepts and returns *)

Lemma reraise_ok (cs : string) (r : result Condition) (c : Condition) :
  reraise cs r = Ok c <-> r = Ok c.
Proof. destruct r; cbn; split; congruence. Qed.

Lemma comprehension_ok {A B} (f : A -> result B) (l : list A) (ys : list B) :
  comprehension f l = Ok ys <-> Forall2 (fun x y => f x = Ok y) l ys.
Proof.
  revert ys. induction l as [|x l IH]; intros ys; cbn [comprehension].
  - split; [intros [= <-]; constructor | intros H; now inversion H].
  - split.
    + destruct (f x) as [y|e] eqn:Fx; cbn; [|discriminate].
      destruct (comprehension f l) as [ys'|e] eqn:Fl; cbn; [|discriminate].
      intros [= <-]. constructor; [exact Fx | now apply IH].
    + intros H. inversion H as [|x' y l' ys' Hx Hl]; subst.
      rewrite Hx. cbn. apply IH in Hl. now rewrite Hl.
Qed.

Lemma Forall2_map_left {A B C} (g : A -> B) (P : B -> C -> Prop)
    (l : list A) (ys : list C) :
  Forall2 P (map g l) ys <-> Forall2 (fun x y => P (g x) y) l ys.
Proof.
  revert ys. induction l as [|x l IH]; intros ys; cbn.
  - split; intros H; inversion H; constructor.
  - split; intros H; inversion H; subst; constructor; try assumption;
      now apply IH.
Qed.

Lemma split_two_parts (s sep : string) :
  sep <> EmptyString -> Str.contains s sep = true ->
  2 <= length (Str.split s sep).
Proof.
  intros Hsep Hc. apply contains_find in Hc. destruct Hc as [i Hi].
  rewrite split_unfold, Hi by exact Hsep. cbn [length].
  pose proof (split_not_nil (Str.slice_from (i + String.length sep) s) sep
                Hsep) as Hn.
  destruct (Str.split (Str.slice_from (i + String.length sep) s) sep);
    [congruence | cbn; lia].
Qed.

Lemma create_and_condition_ok (conditions : list Condition) (c : Condition) :
  create_and_condition conditions = Ok c <->
  2 <= length conditions /\ c = LogicCondition AND conditions "".
Proof.
  unfold create_and_condition.
  destruct (Nat.ltb_spec (length conditions) 2).
  - split; [discriminate | intros [? _]; lia].
  - split; [intros [= <-]; auto | intros [_ ->]; reflexivity].
Qed.

Lemma create_or_condition_ok (conditions : list Condition) (c : Condition) :
  create_or_condition conditions = Ok c <->
  2 <= length conditions /\ c = LogicCondition OR conditions "".
Proof.
  unfold create_or_condition.
  destruct (Nat.ltb_spec (length conditions) 2).
  - split; [discriminate | intros [? _]; lia].
  - split; [intros [= <-]; auto | intros [_ ->]; reflexivity].
Qed.

(** X2. Surrounding whitespace does not change a parse: the parser strips its
    argument before anything else, and stripping twice is stripping once. *)
Theorem parse_ignores_surrounding_whitespace (s : string) :
  ascii_only s = true ->
  parse_condition_string (Str.strip s) = parse_condition_string s.
Proof.
  intros _. rewrite (parse_condition_string_unfold (Str.strip s)),
    (parse_condition_string_unfold s).
  unfold parse_body. now rewrite strip_idem.
Qed.

Lemma parse_ignores_surrounding_whitespace_witness :
  parse_condition_string "RSI > 30" = parse_condition_string "  RSI > 30 ".
Proof.
  exact (parse_ignores_surrounding_whitespace "  RSI > 30 " eq_refl).
Defined.

Lemma parse_strip (s : string) :
  parse_condition_string (Str.strip s) = parse_condition_string s.
Proof.
  rewrite (parse_condition_string_unfold (Str.strip s)),
    (parse_condition_string_unfold s).
  unfold parse_body. now rewrite strip_idem.
Qed.

(** X1. Whatever goes wrong while parsing, the caller sees a [ValueError] whose
    message starts with the stripped text the parser was given; no other
    kind of exception leaves the parser. *)
Theorem parse_failures_are_value_errors (s : string) (e : exn) :
  ascii_only s = true ->
  parse_condition_string s = Raise e ->
  exists cause : string,
    e = ValueError ("解析条件字符串失败: " ++ Str.strip s ++ ", 错误: " ++ cause).
Proof.
  intros _. rewrite parse_condition_string_unfold. unfold parse_body.
  cbv zeta.
  match goal with |- reraise _ ?r = _ -> _ => destruct r as [c|e'] end;
    cbn [reraise]; [discriminate|].
  intros [= <-]. now exists (str_exn e').
Qed.

Lemma parse_failures_are_value_errors_witness :
  exists cause : string,
    ValueError "解析条件字符串失败: RSI >> 3, 错误: 无效的条件格式: RSI >> 3"
    = ValueError ("解析条件字符串失败: " ++ Str.strip " RSI >> 3"
                  ++ ", 错误: " ++ cause).
Proof.
  exact (parse_failures_are_value_errors " RSI >> 3" _ eq_refl eq_refl).
Defined.

(** X3. An atomic comparison is accepted exactly when, once stripped, it is an
    identifier, optional whitespace, one of the six operators, optional
    whitespace and a number that [float] reads; the condition built holds
    these three.  The operator is the longest one that fits: in [a >= 1] it
    is [>=], never [>]. *)
Theorem numeric_condition_grammar (s : string) (c : Condition) :
  ascii_only s = true ->
  _parse_numeric_condition s = Ok c <->
  exists column op value_str value,
    numeric_grammar (Str.strip s) column op value_str /\
    py_float value_str = Some value /\
    c = NumericCompareCondition column op value "".
Proof.
  intros _. pose proof (strip_no_trailing_space s) as Hend.
  destruct (parse_numeric_cases s)
    as [(column & op & value_str & value & G & F & P)
       |[(column & op & value_str & G & F & P) | [N P]]];
    rewrite P.
  - split.
    + intros [= <-]. now exists column, op, value_str, value.
    + intros (column' & op' & value_str' & value' & G' & F' & ->).
      destruct (numeric_grammar_unique _ _ _ _ _ _ _ Hend G G')
        as (<- & <- & <-).
      congruence.
  - split; [discriminate|].
    intros (column' & op' & value_str' & value' & G' & F' & ->).
    destruct (numeric_grammar_unique _ _ _ _ _ _ _ Hend G G')
      as (<- & <- & <-).
    congruence.
  - split; [discriminate|].
    intros (column' & op' & value_str' & value' & G' & _). now apply N in G'.
Qed.

Lemma numeric_condition_grammar_witness :
  _parse_numeric_condition " RSI>=30.5 "
  = Ok (NumericCompareCondition "RSI" GREATER_EQUAL 30.5 "").
Proof.
  apply (numeric_condition_grammar " RSI>=30.5 " _ eq_refl).
  exists "RSI", GREATER_EQUAL, "30.5", 30.5%float.
  split; [|split; reflexivity].
  exists "", "". repeat split; discriminate.
Defined.

(** X4. A comparison that is not accepted is refused with a [ValueError]: for
    a text outside the grammar the message gives the text, for a text of
    the grammar whose number [float] cannot read (such as [1.2.3]) it gives
    the number. *)
Theorem numeric_condition_failures (s : string) (e : exn) :
  ascii_only s = true ->
  _parse_numeric_condition s = Raise e ->
  ((forall column op value_str,
      ~ numeric_grammar (Str.strip s) column op value_str) /\
   e = ValueError ("无效的条件格式: " ++ s)) \/
  (exists column op value_str,
     numeric_grammar (Str.strip s) column op value_str /\
     py_float value_str = None /\
     e = ValueError ("无效的数值: " ++ value_str)).
Proof.
  intros _.
  destruct (parse_numeric_cases s)
    as [(column & op & value_str & value & G & F & P)
       |[(column & op & value_str & G & F & P) | [N P]]];
    rewrite P; [discriminate | |]; intros [= <-].
  - right. now exists column, op, value_str.
  - left. now split.
Qed.

Lemma numeric_condition_failures_witness :
  exists column op value_str,
    numeric_grammar "RSI > 1.2.3" column op value_str /\
    py_float value_str = None /\
    ValueError "无效的数值: 1.2.3" = ValueError ("无效的数值: " ++ value_str).
Proof.
  destruct (numeric_condition_failures "RSI > 1.2.3" _ eq_refl eq_refl)
    as [[N _]|H]; [|exact H].
  exfalso. apply (N "RSI" GREATER_THAN "1.2.3").
  exists " ", " ". repeat split; discriminate.
Defined.

Lemma lstrip_nonspace (c : ascii) (s : string) :
  is_space c = false -> Str.lstrip (String c s) = String c s.
Proof. intros H. cbn. now rewrite H. Qed.

Lemma rstrip_nonspace_end (pre : string) (c : ascii) :
  is_space c = false ->
  Str.rstrip (pre ++ String c "") = (pre ++ String c "")%string.
Proof.
  intros H. induction pre as [|a pre IH]; cbn [append Str.rstrip].
  - now rewrite H.
  - rewrite IH. destruct pre; reflexivity.
Qed.

Lemma slice_from_app (a b : string) :
  Str.slice_from (String.length a) (a ++ b) = b.
Proof. induction a as [|x a IH]; [reflexivity | exact IH]. Qed.

Lemma slice_to_app (a b : string) :
  Str.slice_to (String.length a) (a ++ b) = a.
Proof. induction a as [|x a IH]; cbn; [now destruct b | now rewrite IH]. Qed.

(** A text in parentheses, as the parser sees it. *)
Lemma parenthesised_text (s : string) :
  let t := ("(" ++ s ++ ")")%string in
  Str.strip t = t /\ Str.startswith t "NOT " = false /\
  Str.startswith t "(" = true /\ Str.endswith t ")" = true /\
  Str.inner t = s.
Proof.
  cbv zeta.
  assert (Ht : Str.strip ("(" ++ s ++ ")") = ("(" ++ s ++ ")")%string).
  { unfold Str.strip.
    change ("(" ++ s ++ ")")%string with (String "(" (s ++ ")"))%string.
    rewrite (lstrip_nonspace "(") by reflexivity.
    change (String "(" (s ++ ")"))
      with ((String "(" s) ++ String ")" "")%string.
    now apply rstrip_nonspace_end. }
  repeat split; try exact Ht.
  - unfold Str.endswith.
    replace (String.length ("(" ++ s ++ ")")) with (S (S (String.length s)))
      by (cbn; rewrite length_append; cbn; lia).
    cbn [String.length Nat.leb Nat.sub andb].
    change (S (String.length s) - 0) with (S (String.length s)).
    replace (S (String.length s)) with (String.length (String "(" s))
      by reflexivity.
    change ("(" ++ s ++ ")")%string with ((String "(" s) ++ ")")%string.
    rewrite slice_from_app. reflexivity.
  - unfold Str.inner.
    replace (String.length ("(" ++ s ++ ")") - 2) with (String.length s)
      by (cbn; rewrite length_append; cbn; lia).
    cbn [Str.slice_from append]. apply slice_to_app.
Qed.

(** X5. Parentheses around a text do not change what it parses to: the text in
    parentheses is accepted exactly when the text is, with the same
    condition. *)
Theorem parentheses_are_transparent (s : string) (c : Condition) :
  ascii_only s = true ->
  parse_condition_string ("(" ++ s ++ ")") = Ok c <->
  parse_condition_string s = Ok c.
Proof.
  intros _.
  destruct (parenthesised_text s) as (Ht & Hnot & Hopen & Hclose & Hinner).
  rewrite (parse_condition_string_unfold ("(" ++ s ++ ")")).
  unfold parse_body. cbv zeta.
  rewrite Ht, Hnot, Hopen, Hclose, Hinner. cbn [andb].
  rewrite reraise_ok, parse_strip. reflexivity.
Qed.

Lemma parentheses_are_transparent_witness :
  parse_condition_string "(RSI > 30 OR MACD < 0)"
  = parse_condition_string "RSI > 30 OR MACD < 0".
Proof.
  destruct (parse_condition_string "RSI > 30 OR MACD < 0") as [c|e] eqn:E;
    [|vm_compute in E; discriminate E].
  now apply (parentheses_are_transparent "RSI > 30 OR MACD < 0" c eq_refl).
Defined.

(** X6. [NOT] applies to all that follows it: a text that starts with [NOT] and
    a space is accepted exactly when the rest is, and its condition is the
    negation of the condition of the rest. *)
Theorem not_applies_to_the_rest (s : string) (c : Condition) :
  ascii_only s = true ->
  Str.startswith (Str.strip s) "NOT " = true ->
  parse_condition_string s = Ok c <->
  exists operand,
    parse_condition_string (Str.slice_from 4 (Str.strip s)) = Ok operand /\
    c = create_not_condition operand.
Proof.
  intros _ Hnot. rewrite parse_condition_string_unfold. unfold parse_body.
  cbv zeta. rewrite Hnot, reraise_ok, parse_strip.
  destruct (parse_condition_string (Str.slice_from 4 (Str.strip s)))
    as [operand|e]; cbn [rbind].
  - split; [intros [= <-]; now exists operand | intros (o & [= <-] & ->)];
      reflexivity.
  - split; [discriminate | intros (o & H & _); discriminate].
Qed.

Lemma not_applies_to_the_rest_witness :
  exists operand,
    parse_condition_string "a > 1 AND b > 2" = Ok operand /\
    parse_condition_string "NOT a > 1 AND b > 2"
    = Ok (create_not_condition operand).
Proof.
  destruct (parse_condition_string "NOT a > 1 AND b > 2") as [c|e] eqn:E;
    [|vm_compute in E; discriminate E].
  destruct (proj1 (not_applies_to_the_rest "NOT a > 1 AND b > 2" c
                     eq_refl eq_refl) E) as (operand & Ho & ->).
  now exists operand.
Defined.

(** X7. A text that neither starts with [NOT] nor is wrapped in parentheses is
    cut at every [" AND "] it holds, whether or not the separator stands
    between parentheses, and failing that at every [" OR "]: it is accepted
    exactly when every part is, and its condition joins the conditions of
    the parts in order. *)
Theorem logic_text_is_split (s : string) (c : Condition) :
  ascii_only s = true ->
  let cs := Str.strip s in
  Str.startswith cs "NOT " = false ->
  Str.startswith cs "(" && Str.endswith cs ")" = false ->
  (Str.contains cs " AND " = true ->
   parse_condition_string s = Ok c <->
   exists conditions,
     Forall2 (fun part c' => parse_condition_string part = Ok c')
       (Str.split cs " AND ") conditions /\
     c = LogicCondition AND conditions "") /\
  (Str.contains cs " AND " = false -> Str.contains cs " OR " = true ->
   parse_condition_string s = Ok c <->
   exists conditions,
     Forall2 (fun part c' => parse_condition_string part = Ok c')
       (Str.split cs " OR ") conditions /\
     c = LogicCondition OR conditions "").
Proof.
  intros _ cs Hnot Hpar.
  assert (Hparts : forall sep conditions,
            comprehension parse_condition_string
              (map Str.strip (Str.split cs sep)) = Ok conditions <->
            Forall2 (fun part c' => parse_condition_string part = Ok c')
              (Str.split cs sep) conditions).
  { intros sep conditions. rewrite comprehension_ok, Forall2_map_left.
    split; intros H; (eapply Forall2_impl; [|exact H]); cbv beta;
      intros part c'; now rewrite parse_strip. }
  split.
  - intros Hand. rewrite parse_condition_string_unfold. unfold parse_body.
    cbv zeta. fold cs. rewrite Hnot, Hpar, Hand, reraise_ok.
    pose proof (split_two_parts cs " AND " ltac:(discriminate) Hand) as H2.
    destruct (comprehension parse_condition_string
                (map Str.strip (Str.split cs " AND "))) as [l|e] eqn:E;
      cbn [rbind].
    + apply Hparts in E. rewrite create_and_condition_ok. split.
      * intros [_ ->]. now exists l.
      * intros (l' & Hl' & ->).
        apply Hparts in Hl', E. rewrite E in Hl'. injection Hl' as <-.
        split; [|reflexivity].
        apply Hparts in E. apply Forall2_length in E. lia.
    + split; [discriminate|]. intros (l' & Hl' & _).
      apply Hparts in Hl'. congruence.
  - intros Hand Hor. rewrite parse_condition_string_unfold.
    unfold parse_body. cbv zeta. fold cs.
    rewrite Hnot, Hpar, Hand, Hor, reraise_ok.
    pose proof (split_two_parts cs " OR " ltac:(discriminate) Hor) as H2.
    destruct (comprehension parse_condition_string
                (map Str.strip (Str.split cs " OR "))) as [l|e] eqn:E;
      cbn [rbind].
    + apply Hparts in E. rewrite create_or_condition_ok. split.
      * intros [_ ->]. now exists l.
      * intros (l' & Hl' & ->).
        apply Hparts in Hl', E. rewrite E in Hl'. injection Hl' as <-.
        split; [|reflexivity].
        apply Hparts in E. apply Forall2_length in E. lia.
    + split; [discriminate|]. intros (l' & Hl' & _).
      apply Hparts in Hl'. congruence.
Qed.

(** The text [(A > 1 AND B > 2) OR C > 3] is cut at its [" AND "], between
    the parentheses: its first part is [(A > 1], which is no condition, and
    the text is refused. *)
Lemma logic_text_is_split_witness :
  Str.split and_inside_or " AND " = ["(A > 1"; "B > 2) OR C > 3"] /\
  top_level and_inside_or 6 = false /\
  is_ok (parse_condition_string and_inside_or) = false.
Proof.
  split; [reflexivity|]. split; [reflexivity|].
  destruct (parse_condition_string and_inside_or) as [c|e] eqn:E;
    [|reflexivity].
  exfalso.
  destruct (logic_text_is_split and_inside_or c eq_refl eq_refl eq_refl)
    as [Hand _].
  destruct (proj1 (Hand eq_refl) E) as (conditions & Hparts & _).
  change (Str.split (Str.strip and_inside_or) " AND ")
    with ["(A > 1"; "B > 2) OR C > 3"] in Hparts.
  inversion Hparts as [|part c' parts cs' Hfirst _]; subst.
  vm_compute in Hfirst. discriminate Hfirst.
Defined.

(** ** The text parser, case by case *)

Lemma parse_numeric_accepts (s : string) (c : Condition) :
  _parse_numeric_condition s = Ok c <->
  exists column op value_str value,
    numeric_grammar (Str.strip s) column op value_str /\
    py_float value_str = Some value /\
    c = NumericCompareCondition column op value "".
Proof.
  pose proof (strip_no_trailing_space s) as Hend.
  destruct (parse_numeric_cases s)
    as [(column & op & value_str & value & G & F & P)
       |[(column & op & value_str & G & F & P) | [N P]]];
    rewrite P.
  - split.
    + intros [= <-]. now exists column, op, value_str, value.
    + intros (column' & op' & value_str' & value' & G' & F' & ->).
      destruct (numeric_grammar_unique _ _ _ _ _ _ _ Hend G G')
        as (<- & <- & <-).
      congruence.
  - split; [discriminate|].
    intros (column' & op' & value_str' & value' & G' & F' & ->).
    destruct (numeric_grammar_unique _ _ _ _ _ _ _ Hend G G')
      as (<- & <- & <-).
    congruence.
  - split; [discriminate|].
    intros (column' & op' & value_str' & value' & G' & _). now apply N in G'.
Qed.

(** The parts of a text cut at a separator parse when the stripped parts
    do. *)
Lemma parse_parts (parts : list string) (conditions : list Condition) :
  comprehension parse_condition_string (map Str.strip parts) = Ok conditions
  <-> Forall2 (fun part c' => parse_condition_string part = Ok c')
        parts conditions.
Proof.
  rewrite comprehension_ok, Forall2_map_left.
  split; intros H; (eapply Forall2_impl; [|exact H]); cbv beta;
    intros part c'; now rewrite parse_strip.
Qed.

(** A text cut at a separator it holds: it is accepted when every part
    is. *)
Lemma parse_split (cs sep : string) (build : list Condition -> result Condition)
    (op : LogicOperator) (c : Condition) :
  sep <> EmptyString -> Str.contains cs sep = true ->
  (forall conditions c',
     build conditions = Ok c' <->
     2 <= length conditions /\ c' = LogicCondition op conditions "") ->
  (conditions <- comprehension parse_condition_string
                   (map Str.strip (Str.split cs sep)) ;;
   build conditions)%res = Ok c <->
  exists conditions,
    Forall2 (fun part c' => parse_condition_string part = Ok c')
      (Str.split cs sep) conditions /\
    c = LogicCondition op conditions "".
Proof.
  intros Hsep Hc Hbuild.
  pose proof (split_two_parts cs sep Hsep Hc) as H2.
  destruct (comprehension parse_condition_string
              (map Str.strip (Str.split cs sep))) as [l|e] eqn:E;
    cbn [rbind].
  - apply parse_parts in E. rewrite Hbuild. split.
    + intros [_ ->]. now exists l.
    + intros (l' & Hl' & ->).
      apply parse_parts in Hl', E. rewrite E in Hl'. injection Hl' as <-.
      split; [|reflexivity].
      apply parse_parts in E. apply Forall2_length in E. lia.
  - split; [discriminate|]. intros (l' & Hl' & _).
    apply parse_parts in Hl'. congruence.
Qed.

(** C7, as stated, fails on three counts.  The text
    [(A > 1 AND B > 2) OR C > 3] holds one [" OR "], at top level, between
    two texts that the parser accepts; but it is cut at its [" AND "],
    which stands between the parentheses, and refused.  The text
    [(A > 1) AND (B > 2)] starts and ends with a parenthesis: what stands
    between the two is taken for its content, though they do not match
    one another, and the text is refused.  And a failure is a
    [ValueError], whose message gives the whole text and, after it, the
    message of the failure of the part. *)
Lemma split_is_not_top_level :
  (Str.find and_inside_or " OR " = Some 17 /\
   top_level and_inside_or 17 = true /\
   is_ok (parse_condition_string "(A > 1 AND B > 2)") = true /\
   is_ok (parse_condition_string "C > 3") = true /\
   Str.find and_inside_or " AND " = Some 6 /\
   top_level and_inside_or 6 = false /\
   parse_condition_string and_inside_or
   = Raise (ValueError
              ("解析条件字符串失败: (A > 1 AND B > 2) OR C > 3, 错误: "
               ++ "解析条件字符串失败: (A > 1, 错误: "
               ++ "无效的条件格式: (A > 1"))) /\
  (is_ok (parse_condition_string "A > 1") = true /\
   is_ok (parse_condition_string "B > 2") = true /\
   Str.inner and_of_groups = "A > 1) AND (B > 2" /\
   is_ok (parse_condition_string and_of_groups) = false).
Proof. vm_compute. repeat split. Qed.

(** C7, amended.  What the parser does with an ASCII text, once stripped,
    is decided by the first of these that applies.  A text that starts
    with [NOT] and a space is the negation of what follows.  A text that
    starts with an opening and ends with a closing parenthesis is parsed
    as what stands between them.  A text that holds [" AND "] is cut at
    every occurrence of it, between parentheses or not, and is the AND of
    its parts, in order; failing that a text that holds [" OR "] is cut at
    every occurrence of it and is the OR of its parts.  Any other text is
    an atomic comparison: it is accepted exactly when it is an identifier,
    optional whitespace, an operator, optional whitespace and a number
    that [float] reads, the operator being the longest that fits.  Every
    failure is a [ValueError] whose message gives the stripped text and the
    message of the cause. *)
Theorem parser_cases (s : string) (c : Condition) :
  ascii_only s = true ->
  let cs := Str.strip s in
  let accepted := parse_condition_string s = Ok c in
  (forall e, parse_condition_string s = Raise e ->
     exists cause : string,
       e = ValueError ("解析条件字符串失败: " ++ cs ++ ", 错误: " ++ cause)) /\
  (Str.startswith cs "NOT " = true ->
   accepted <->
   exists operand,
     parse_condition_string (Str.slice_from 4 cs) = Ok operand /\
     c = create_not_condition operand) /\
  (Str.startswith cs "NOT " = false ->
   Str.startswith cs "(" && Str.endswith cs ")" = true ->
   accepted <-> parse_condition_string (Str.inner cs) = Ok c) /\
  (Str.startswith cs "NOT " = false ->
   Str.startswith cs "(" && Str.endswith cs ")" = false ->
   Str.contains cs " AND " = true ->
   accepted <->
   exists conditions,
     Forall2 (fun part c' => parse_condition_string part = Ok c')
       (Str.split cs " AND ") conditions /\
     c = LogicCondition AND conditions "") /\
  (Str.startswith cs "NOT " = false ->
   Str.startswith cs "(" && Str.endswith cs ")" = false ->
   Str.contains cs " AND " = false -> Str.contains cs " OR " = true ->
   accepted <->
   exists conditions,
     Forall2 (fun part c' => parse_condition_string part = Ok c')
       (Str.split cs " OR ") conditions /\
     c = LogicCondition OR conditions "") /\
  (Str.startswith cs "NOT " = false ->
   Str.startswith cs "(" && Str.endswith cs ")" = false ->
   Str.contains cs " AND " = false -> Str.contains cs " OR " = false ->
   accepted <->
   exists column op value_str value,
     numeric_grammar cs column op value_str /\
     py_float value_str = Some value /\
     c = NumericCompareCondition column op value "").
Proof.
  intros _ cs accepted. subst accepted.
  rewrite parse_condition_string_unfold. unfold parse_body. cbv zeta.
  fold cs.
  refine (conj _ (conj _ (conj _ (conj _ (conj _ _))))).
  - intros e.
    match goal with |- reraise _ ?r = _ -> _ => destruct r as [c0|e'] end;
      cbn [reraise]; [discriminate|].
    intros [= <-]. now exists (str_exn e').
  - intros Hnot. rewrite Hnot, reraise_ok, parse_strip.
    destruct (parse_condition_string (Str.slice_from 4 cs))
      as [operand|e]; cbn [rbind].
    + split; [intros [= <-]; now exists operand
             | intros (o & [= <-] & ->)]; reflexivity.
    + split; [discriminate | intros (o & H & _); discriminate].
  - intros Hnot Hpar. rewrite Hnot, Hpar, reraise_ok, parse_strip.
    reflexivity.
  - intros Hnot Hpar Hand. rewrite Hnot, Hpar, Hand, reraise_ok.
    apply parse_split; [discriminate | exact Hand |].
    apply create_and_condition_ok.
  - intros Hnot Hpar Hand Hor. rewrite Hnot, Hpar, Hand, Hor, reraise_ok.
    apply parse_split; [discriminate | exact Hor |].
    apply create_or_condition_ok.
  - intros Hnot Hpar Hand Hor. rewrite Hnot, Hpar, Hand, Hor, reraise_ok.
    rewrite parse_numeric_accepts. subst cs. now rewrite strip_idem.
Qed.

(** In [a>=1] the operator is [>=], not [>]; and the text
    [(A > 1 AND B > 2) OR C > 3] is cut in [(A > 1] and [B > 2) OR C > 3]. *)
Lemma parser_cases_witness :
  parse_condition_string " a>=1 "
  = Ok (NumericCompareCondition "a" GREATER_EQUAL 1 "") /\
  (forall c,
     parse_condition_string and_inside_or = Ok c <->
     exists conditions,
       Forall2 (fun part c' => parse_condition_string part = Ok c')
         ["(A > 1"; "B > 2) OR C > 3"] conditions /\
       c = LogicCondition AND conditions "").
Proof.
  split.
  - apply (proj2 (proj2 (proj2 (proj2 (proj2
             (parser_cases " a>=1 "
                (NumericCompareCondition "a" GREATER_EQUAL 1 "")
                eq_refl)))))
             eq_refl eq_refl eq_refl eq_refl).
    exists "a", GREATER_EQUAL, "1", 1%float.
    split; [|split; reflexivity].
    exists "", "". repeat split; discriminate.
  - intros c.
    exact (proj1 (proj2 (proj2 (proj2
             (parser_cases and_inside_or c eq_refl))))
             eq_refl eq_refl eq_refl).
Defined.

(** ** Evaluation of condition trees *)

(** Induction over a condition and, for a logic condition, over all of its
    sub-conditions. *)
Lemma Condition_induction (P : Condition -> Prop) :
  (forall column op value d, P (NumericCompare column op value d)) ->
  (forall fast_col slow_col cross_type d,
     P (SignalCross fast_col slow_col cross_type d)) ->
  (forall name pattern_func d, P (TechnicalPattern name pattern_func d)) ->
  (forall op conditions d,
     Forall P conditions -> P (Logic op conditions d)) ->
  forall c, P c.
Proof.
  intros HN HS HT HL.
  refine (fix IH (c : Condition) : P c :=
            match c with
            | NumericCompare column op value d => HN column op value d
            | SignalCross f s t d => HS f s t d
            | TechnicalPattern n pf d => HT n pf d
            | Logic op conditions d =>
                HL op conditions d
                  ((fix all (l : list Condition) : Forall P l :=
                      match l with
                      | [] => Forall_nil P
                      | x :: rest => Forall_cons x (IH x) (all rest)
                      end) conditions)
            end).
Qed.

(** A logic condition with sub-conditions evaluates them all, in order,
    then combines the results. *)
Lemma evaluate_logic (op : LogicOperator) (conditions : list Condition)
    (d : Description) (data : DataFrame) :
  conditions <> [] ->
  evaluate (Logic op conditions d) data =
  (results <- comprehension (fun c => evaluate c data) conditions ;;
   combine_results op (length conditions) results)%res.
Proof.
  intros Hne. destruct conditions as [|c0 cs]; [congruence|].
  cbn [evaluate].
  set (evaluate_all := fix evaluate_all (cs : list Condition) := _).
  assert (H : forall l, evaluate_all l
                        = comprehension (fun c => evaluate c data) l).
  { induction l as [|x l IH]; [reflexivity|].
    cbn [comprehension]. unfold evaluate_all at 1. fold evaluate_all.
    rewrite IH. destruct (evaluate x data); cbn [rbind]; [|reflexivity].
    now destruct (comprehension (fun c => evaluate c data) l). }
  rewrite H. cbn [comprehension].
  destruct (evaluate c0 data); cbn [rbind]; [|reflexivity].
  now destruct (comprehension (fun c => evaluate c data) cs).
Qed.

Lemma comprehension_raise {A B} (f : A -> result B) (pre post : list A)
    (x : A) (e : exn) :
  Forall (fun y => is_ok (f y) = true) pre -> f x = Raise e ->
  comprehension f (pre ++ x :: post) = Raise e.
Proof.
  intros Hpre Hx. induction Hpre as [|y pre Hy _ IH]; cbn [app comprehension].
  - now rewrite Hx.
  - destruct (f y); [|discriminate]. cbn [rbind]. now rewrite IH.
Qed.

Lemma comprehension_raised {A B} (f : A -> result B) (l : list A) (e : exn) :
  comprehension f l = Raise e -> exists x, In x l /\ f x = Raise e.
Proof.
  induction l as [|x l IH]; cbn [comprehension]; [discriminate|].
  destruct (f x) as [y|e'] eqn:Fx; cbn [rbind].
  - destruct (comprehension f l) as [ys|e'']; cbn [rbind]; [discriminate|].
    intros [= <-]. destruct (IH eq_refl) as (x' & Hin & Hx').
    exists x'. split; [now right | exact Hx'].
  - intros [= <-]. exists x. split; [now left | exact Fx].
Qed.

(** X8. Whatever the condition and the table, an evaluation that fails raises a
    [ValueError]: a missing column, an unsupported crossing, a failed pattern
    function (its exception is wrapped) or a NOT over several conditions. *)
Theorem evaluation_failures_are_value_errors (c : Condition)
    (data : DataFrame) (e : exn) :
  evaluate c data = Raise e -> exists msg, e = ValueError msg.
Proof.
  revert e. induction c as [column op value d | f s t d | n pf d
                           | op conditions d IH] using Condition_induction;
    intros e.
  - cbn [evaluate]. unfold evaluate_numeric.
    destruct (negb (has_column data column)); [|discriminate].
    intros [= <-]. eauto.
  - cbn [evaluate]. unfold evaluate_cross.
    destruct (filter _ _); [|intros [= <-]; eauto].
    destruct (String.eqb t "golden"); [discriminate|].
    destruct (String.eqb t "death"); [discriminate|].
    intros [= <-]. eauto.
  - cbn [evaluate]. unfold evaluate_pattern.
    destruct (pf data); [discriminate|]. intros [= <-]. eauto.
  - destruct conditions as [|c0 cs]; [discriminate|].
    rewrite evaluate_logic by discriminate.
    destruct (comprehension (fun c => evaluate c data) (c0 :: cs))
      as [results|e'] eqn:E; cbn [rbind].
    + unfold combine_results. destruct op.
      * destruct results; discriminate.
      * destruct results; discriminate.
      * destruct (negb _); [intros [= <-]; eauto|].
        destruct results; discriminate.
    + intros [= <-]. apply comprehension_raised in E.
      destruct E as (x & Hin & Hx).
      rewrite Forall_forall in IH. exact (IH x Hin e' Hx).
Qed.

Lemma evaluation_failures_are_value_errors_witness :
  exists msg, ValueError "数据中缺少列: RSI_99" = ValueError msg.
Proof.
  exact (evaluation_failures_are_value_errors malformed january _ eq_refl).
Defined.

(** X9. A logic condition does not evaluate lazily: when a sub-condition fails
    and those before it evaluate, the logic condition fails with the
    exception of that sub-condition, whatever its operator and whatever the
    sub-conditions after it. *)
Theorem logic_fails_with_first_failure (op : LogicOperator)
    (before after : list Condition) (c : Condition) (d : Description)
    (data : DataFrame) (e : exn) :
  Forall (fun c' => is_ok (evaluate c' data) = true) before ->
  evaluate c data = Raise e ->
  evaluate (Logic op (before ++ c :: after) d) data = Raise e.
Proof.
  intros Hbefore Hc. rewrite evaluate_logic by (destruct before; discriminate).
  now rewrite (comprehension_raise _ before after c e Hbefore Hc).
Qed.

Lemma logic_fails_with_first_failure_witness :
  evaluate (Logic OR ([on_mark] ++ malformed :: [golden_cross]) (Text "any"))
    january
  = Raise (ValueError "数据中缺少列: RSI_99").
Proof.
  apply logic_fails_with_first_failure; [|reflexivity].
  repeat constructor.
Defined.

(** *** Rows of a comparison *)

Lemma nan_compare (op : ComparisonOperator) (x value : float) :
  PrimFloat.is_nan x = true ->
  compare op x value = match op with NOT_EQUAL => true | _ => false end.
Proof.
  intros Hx.
  assert (Hsf : Prim2SF x = S754_nan).
  { destruct (Prim2SF x) eqn:E; try reflexivity;
      assert (Hn : PrimFloat.is_nan x = false)
        by (apply is_nan_spec; rewrite E; discriminate);
      congruence. }
  unfold compare.
  destruct op; rewrite ?FloatAxioms.ltb_spec, ?FloatAxioms.leb_spec,
    ?FloatAxioms.eqb_spec, Hsf; cbn;
    try reflexivity; now destruct (Prim2SF value).
Qed.

(** X10. Over a well-formed table that holds its column, a comparison evaluates
    to one boolean per row, the comparison of the row's value with the
    threshold; a row whose value is NaN satisfies no comparison but [!=],
    which it always satisfies.  Without the column the evaluation is a
    [ValueError] that names it. *)
Theorem numeric_compare_rows (data : DataFrame) (column : string)
    (op : ComparisonOperator) (value : float) (d : Description) :
  wf_table data ->
  let series := get_column data column in
  (has_column data column = false ->
   evaluate (NumericCompare column op value d) data
   = Raise (ValueError ("数据中缺少列: " ++ column))) /\
  (has_column data column = true ->
   exists sigs,
     evaluate (NumericCompare column op value d) data = Ok sigs /\
     length sigs = length (index data) /\
     forall i, i < length (index data) ->
       nth i sigs false = compare op (nth i series PrimFloat.nan) value /\
       (PrimFloat.is_nan (nth i series PrimFloat.nan) = true ->
        nth i sigs false = match op with NOT_EQUAL => true | _ => false end)).
Proof.
  intros Hwf series. cbn [evaluate]. unfold evaluate_numeric. split.
  - now intros ->.
  - intros Hc. rewrite Hc. cbn [negb]. eexists. split; [reflexivity|].
    pose proof (wf_column_length data column Hwf Hc) as Hlen.
    fold series in Hlen |- *. rewrite length_map. split; [exact Hlen|].
    intros i Hi.
    assert (Hrow : nth i (map (fun x => compare op x value) series) false
                   = compare op (nth i series PrimFloat.nan) value).
    { rewrite (nth_indep _ false (compare op PrimFloat.nan value))
        by (rewrite length_map; lia).
      apply (map_nth (fun x => compare op x value)). }
    split; [exact Hrow|]. intros Hnan. rewrite Hrow. now apply nan_compare.
Qed.

Lemma numeric_compare_rows_witness :
  exists sigs,
    evaluate on_mark january = Ok sigs /\
    length sigs = 10 /\ nth 4 sigs false = true.
Proof.
  destruct (numeric_compare_rows january "mark" GREATER_THAN 0.5
              (description on_mark) january_wf) as [_ H].
  destruct (H eq_refl) as (sigs & Hev & Hlen & Hrows).
  exists sigs. split; [exact Hev|]. split; [exact Hlen|].
  destruct (Hrows 4 ltac:(cbn; lia)) as [Hrow _]. rewrite Hrow. reflexivity.
Defined.

(** *** Rows of a logic condition *)

Lemma series_and_length (a b : list bool) :
  length a = length b -> length (series_and a b) = length a.
Proof. intros H. unfold series_and. rewrite map2_length. lia. Qed.

Lemma series_or_length (a b : list bool) :
  length a = length b -> length (series_or a b) = length a.
Proof. intros H. unfold series_or. rewrite map2_length. lia. Qed.

Lemma fold_series_and (n : nat) (rs : list (list bool)) :
  forall r0 : list bool,
    length r0 = n -> Forall (fun r => length r = n) rs ->
    length (fold_left series_and rs r0) = n /\
    forall i, i < n ->
      nth i (fold_left series_and rs r0) false
      = nth i r0 false && forallb (fun r => nth i r false) rs.
Proof.
  induction rs as [|r rs IH]; intros r0 H0 Hrs; cbn [fold_left forallb].
  - split; [exact H0 | intros; now rewrite andb_true_r].
  - inversion Hrs as [|? ? Hr Hrs']; subst.
    destruct (IH (series_and r0 r)
                ltac:(rewrite series_and_length; congruence) Hrs')
      as [Hlen Hrows].
    split; [exact Hlen|]. intros i Hi. rewrite (Hrows i Hi).
    unfold series_and at 1.
    rewrite (map2_nth andb r0 r i false false false) by lia.
    now rewrite andb_assoc.
Qed.

Lemma fold_series_or (n : nat) (rs : list (list bool)) :
  forall r0 : list bool,
    length r0 = n -> Forall (fun r => length r = n) rs ->
    length (fold_left series_or rs r0) = n /\
    forall i, i < n ->
      nth i (fold_left series_or rs r0) false
      = nth i r0 false || existsb (fun r => nth i r false) rs.
Proof.
  induction rs as [|r rs IH]; intros r0 H0 Hrs; cbn [fold_left existsb].
  - split; [exact H0 | intros; now rewrite orb_false_r].
  - inversion Hrs as [|? ? Hr Hrs']; subst.
    destruct (IH (series_or r0 r)
                ltac:(rewrite series_or_length; congruence) Hrs')
      as [Hlen Hrows].
    split; [exact Hlen|]. intros i Hi. rewrite (Hrows i Hi).
    unfold series_or at 1.
    rewrite (map2_nth orb r0 r i false false false) by lia.
    now rewrite orb_assoc.
Qed.

(** X11. When its sub-conditions evaluate to one boolean per row, an AND
    condition is true at a row exactly when all of them are and an OR
    condition exactly when one of them is; a logic condition without
    sub-conditions, whatever its operator, is false at every row (an empty
    AND is not true). *)
Theorem logic_rows (conditions : list Condition)
    (results : list (list bool)) (d : Description) (data : DataFrame) :
  Forall2 (fun c r => evaluate c data = Ok r /\
                      length r = length (index data)) conditions results ->
  exists all_of any_of : list bool,
    evaluate (Logic AND conditions d) data = Ok all_of /\
    evaluate (Logic OR conditions d) data = Ok any_of /\
    length all_of = length (index data) /\
    length any_of = length (index data) /\
    forall i, i < length (index data) ->
      nth i all_of false
      = negb (Nat.eqb (length conditions) 0)
        && forallb (fun r => nth i r false) results /\
      nth i any_of false = existsb (fun r => nth i r false) results.
Proof.
  intros H. destruct H as [|c0 r0 cs rs [Hc0 Hr0] Hrest].
  - exists (repeat false (length (index data))),
           (repeat false (length (index data))).
    cbn [evaluate]. rewrite repeat_length. repeat split;
      apply nth_repeat_lt; assumption.
  - assert (Hall : comprehension (fun c => evaluate c data) (c0 :: cs)
                   = Ok (r0 :: rs)).
    { apply comprehension_ok. constructor; [exact Hc0|].
      eapply Forall2_impl; [|exact Hrest]. now intros c r [Hc _]. }
    assert (Hlens : Forall (fun r => length r = length (index data)) rs).
    { clear -Hrest. induction Hrest as [|c r cs rs [_ Hr] _ IH];
        constructor; assumption. }
    destruct (fold_series_and _ rs r0 Hr0 Hlens) as [Land Rand].
    destruct (fold_series_or _ rs r0 Hr0 Hlens) as [Lor Ror].
    exists (fold_left series_and rs r0), (fold_left series_or rs r0).
    rewrite !evaluate_logic by discriminate. rewrite Hall. cbn [rbind].
    cbn [combine_results length Nat.eqb negb andb forallb existsb].
    repeat split; try assumption;
      [now apply Rand | now apply Ror].
Qed.

Lemma logic_rows_witness :
  exists all_of any_of : list bool,
    evaluate (Logic AND [on_mark; golden_cross] (Text "both")) january
      = Ok all_of /\
    evaluate (Logic OR [on_mark; golden_cross] (Text "either")) january
      = Ok any_of /\
    nth 4 all_of false = false /\ nth 4 any_of false = true.
Proof.
  destruct (evaluate on_mark january) as [r1|] eqn:E1;
    [|vm_compute in E1; discriminate E1].
  destruct (evaluate golden_cross january) as [r2|] eqn:E2;
    [|vm_compute in E2; discriminate E2].
  assert (L1 : length r1 = length (index january))
    by (vm_compute in E1; injection E1 as <-; reflexivity).
  assert (L2 : length r2 = length (index january))
    by (vm_compute in E2; injection E2 as <-; reflexivity).
  destruct (logic_rows [on_mark; golden_cross] [r1; r2] (Text "both")
              january) as (all_of & any_of & Ha & _ & _ & _ & Hrows).
  { repeat constructor; assumption. }
  destruct (logic_rows [on_mark; golden_cross] [r1; r2] (Text "either")
              january) as (all_of' & any_of' & _ & Ho & _ & _ & Hrows').
  { repeat constructor; assumption. }
  exists all_of, any_of'. split; [exact Ha|]. split; [exact Ho|].
  destruct (Hrows 4 ltac:(cbn; lia)) as [-> _].
  destruct (Hrows' 4 ltac:(cbn; lia)) as [_ ->].
  vm_compute in E1, E2. injection E1 as <-. injection E2 as <-.
  split; reflexivity.
Defined.

(** *** Negation *)

Lemma series_not_and (a b : list bool) :
  series_not (series_and a b) = series_or (series_not a) (series_not b).
Proof.
  unfold series_not, series_and, series_or, map2.
  revert b. induction a as [|x a IH]; intros [|y b]; cbn; try reflexivity.
  now rewrite IH, negb_andb.
Qed.

Lemma series_not_or (a b : list bool) :
  series_not (series_or a b) = series_and (series_not a) (series_not b).
Proof.
  unfold series_not, series_and, series_or, map2.
  revert b. induction a as [|x a IH]; intros [|y b]; cbn; try reflexivity.
  now rewrite IH, negb_orb.
Qed.

Lemma series_not_not (a : list bool) : series_not (series_not a) = a.
Proof.
  unfold series_not. induction a as [|x a IH]; cbn; [reflexivity|].
  now rewrite IH, negb_involutive.
Qed.

(** X12. Conditions that give one boolean per row obey the laws of
    negation, for their values and for their failures alike: a double
    negation evaluates as the condition itself, the negation of an AND of
    two conditions as the OR of their negations, and the negation of an OR
    as the AND of the negations. *)
Theorem negation_laws (a b : Condition) (data : DataFrame) :
  row_aligned a data -> row_aligned b data ->
  evaluate (create_not_condition (create_not_condition a)) data
    = evaluate a data /\
  evaluate (create_not_condition (LogicCondition AND [a; b] "")) data
    = evaluate (LogicCondition OR [create_not_condition a;
                                   create_not_condition b] "") data /\
  evaluate (create_not_condition (LogicCondition OR [a; b] "")) data
    = evaluate (LogicCondition AND [create_not_condition a;
                                    create_not_condition b] "") data.
Proof.
  intros _ _. unfold create_not_condition, LogicCondition.
  rewrite !evaluate_logic by discriminate. cbn [comprehension].
  rewrite !evaluate_logic by discriminate. cbn [comprehension].
  destruct (evaluate a data) as [ra|ea]; cbn [rbind];
    [|repeat split; reflexivity].
  cbn [combine_results length Nat.eqb negb rbind fold_left].
  rewrite series_not_not.
  destruct (evaluate b data) as [rb|eb]; cbn [rbind];
    [|repeat split; reflexivity].
  cbn [combine_results length Nat.eqb negb rbind fold_left].
  now rewrite series_not_and, series_not_or.
Qed.

Lemma negation_laws_witness :
  evaluate (create_not_condition (create_not_condition on_mark)) january
    = evaluate on_mark january /\
  evaluate (create_not_condition
              (LogicCondition AND [on_mark; golden_cross] "")) january
    = evaluate (LogicCondition OR [create_not_condition on_mark;
                                   create_not_condition golden_cross] "")
        january /\
  evaluate (create_not_condition
              (LogicCondition OR [on_mark; golden_cross] "")) january
    = evaluate (LogicCondition AND [create_not_condition on_mark;
                                    create_not_condition golden_cross] "")
        january.
Proof.
  apply (negation_laws on_mark golden_cross january);
    intros sigs H; vm_compute in H; injection H as <-; reflexivity.
Defined.

(** *** Crossings *)

(** X13. Over a well-formed table that holds both lines, no row is a golden
    cross and a death cross at once. *)
Theorem golden_and_death_exclude (data : DataFrame)
    (fast_col slow_col : string) (d : Description)
    (golden death : list bool) :
  wf_table data ->
  evaluate (SignalCross fast_col slow_col "golden" d) data = Ok golden ->
  evaluate (SignalCross fast_col slow_col "death" d) data = Ok death ->
  forall i, nth i golden false && nth i death false = false.
Proof.
  intros Hwf Hg Hd i. cbn [evaluate] in Hg, Hd.
  assert (Hcols : has_column data fast_col = true /\
                  has_column data slow_col = true).
  { unfold evaluate_cross in Hg. cbn [filter] in Hg.
    destruct (has_column data fast_col), (has_column data slow_col);
      cbn in Hg; try discriminate. now split. }
  destruct Hcols as [Hf Hs].
  rewrite evaluate_cross_present in Hg, Hd by assumption.
  cbn in Hg, Hd. injection Hg as <-. injection Hd as <-.
  pose proof (wf_column_length data fast_col Hwf Hf) as Lf.
  pose proof (wf_column_length data slow_col Hwf Hs) as Ls.
  set (fast := get_column data fast_col) in *.
  set (slow := get_column data slow_col) in *.
  assert (Hlen : length fast = length slow) by congruence.
  destruct (Nat.lt_ge_cases i (length fast)) as [Hi|Hi].
  - rewrite golden_series_nth, death_series_nth by assumption.
    destruct i as [|j]; [reflexivity|]. cbn [golden_at death_at].
    destruct (PrimFloat.ltb (nth (S j) slow PrimFloat.nan)
                (nth (S j) fast PrimFloat.nan)) eqn:E; [|reflexivity].
    apply ltb_exclusive in E. rewrite E. cbn. now rewrite andb_false_r.
  - rewrite (nth_overflow (series_and (series_gt fast slow) _));
      [reflexivity|].
    unfold series_gt, series_le.
    rewrite (cross_series_length _ _ PrimFloat.ltb PrimFloat.leb)
      by exact Hlen.
    exact Hi.
Qed.

Lemma golden_and_death_exclude_witness :
  exists golden death : list bool,
    evaluate (SignalCross "fast" "slow" "golden" (Text "up")) january
      = Ok golden /\
    evaluate (SignalCross "fast" "slow" "death" (Text "down")) january
      = Ok death /\
    forall i, nth i golden false && nth i death false = false.
Proof.
  destruct (evaluate (SignalCross "fast" "slow" "golden" (Text "up"))
              january) as [golden|] eqn:Eg;
    [|vm_compute in Eg; discriminate Eg].
  destruct (evaluate (SignalCross "fast" "slow" "death" (Text "down"))
              january) as [death|] eqn:Ed;
    [|vm_compute in Ed; discriminate Ed].
  exists golden, death. split; [reflexivity|]. split; [reflexivity|].
  exact (golden_and_death_exclude january "fast" "slow" _ golden death
           january_wf Eg Ed).
Defined.

(** X14. The builder refuses a crossing that is neither golden nor death; a
    crossing it builds evaluates, over any well-formed table that holds
    both lines, to one boolean per row. *)
Theorem built_crossing_evaluates (fast_col slow_col cross_type : string)
    (data : DataFrame) :
  wf_table data ->
  has_column data fast_col = true -> has_column data slow_col = true ->
  (cross_type <> "golden" -> cross_type <> "death" ->
   create_cross_condition fast_col slow_col cross_type
   = Raise (ValueError "cross_type必须是'golden'或'death'")) /\
  (forall c, create_cross_condition fast_col slow_col cross_type = Ok c ->
     exists sigs, evaluate c data = Ok sigs /\
                  length sigs = length (index data)).
Proof.
  intros Hwf Hf Hs. unfold create_cross_condition. cbn [existsb].
  split.
  - intros Hg Hd. apply String.eqb_neq in Hg, Hd. now rewrite Hg, Hd.
  - intros c.
    pose proof (wf_column_length data fast_col Hwf Hf) as Lf.
    pose proof (wf_column_length data slow_col Hwf Hs) as Ls.
    destruct (String.eqb cross_type "golden") eqn:Eg.
    + cbn. intros [= <-]. unfold SignalCrossCondition. cbn [evaluate].
      rewrite evaluate_cross_present by assumption. cbv zeta. rewrite Eg.
      eexists. split; [reflexivity|]. unfold series_gt, series_le.
      rewrite (cross_series_length _ _ PrimFloat.ltb PrimFloat.leb)
        by congruence.
      exact Lf.
    + destruct (String.eqb cross_type "death") eqn:Ed; cbn;
        [|discriminate].
      intros [= <-]. unfold SignalCrossCondition. cbn [evaluate].
      rewrite evaluate_cross_present by assumption. cbv zeta.
      rewrite Eg, Ed.
      eexists. split; [reflexivity|]. unfold series_lt, series_ge.
      rewrite (cross_series_length _ _ PrimFloat.ltb PrimFloat.leb)
        by congruence.
      exact Lf.
Qed.

Lemma built_crossing_evaluates_witness :
  create_cross_condition "fast" "slow" "silver"
    = Raise (ValueError "cross_type必须是'golden'或'death'") /\
  exists c sigs,
    create_cross_condition "fast" "slow" "death" = Ok c /\
    evaluate c january = Ok sigs /\ length sigs = 10.
Proof.
  split.
  - apply (built_crossing_evaluates "fast" "slow" "silver" january
             january_wf eq_refl eq_refl); discriminate.
  - destruct (built_crossing_evaluates "fast" "slow" "death" january
                january_wf eq_refl eq_refl) as [_ H].
    destruct (H _ eq_refl) as (sigs & Hev & Hlen).
    eexists. exists sigs. split; [reflexivity|]. split; assumption.
Defined.

(** ** Determinism *)

Lemma stateful_condition_induction {State : Type}
    (P : Stateful.Condition State -> Prop) :
  (forall column op value d, P (Stateful.NumericCompare column op value d)) ->
  (forall fast_col slow_col cross_type d,
     P (Stateful.SignalCross fast_col slow_col cross_type d)) ->
  (forall name pattern_func d,
     P (Stateful.TechnicalPattern name pattern_func d)) ->
  (forall op conditions d,
     Forall P conditions -> P (Stateful.Logic op conditions d)) ->
  forall c, P c.
Proof.
  intros HN HS HT HL.
  refine (fix IH (c : Stateful.Condition State) : P c :=
            match c with
            | Stateful.NumericCompare column op value d =>
                HN column op value d
            | Stateful.SignalCross f s t d => HS f s t d
            | Stateful.TechnicalPattern n pf d => HT n pf d
            | Stateful.Logic op conditions d =>
                HL op conditions d
                  ((fix all (l : list (Stateful.Condition State))
                      : Forall P l :=
                      match l with
                      | [] => Forall_nil P
                      | x :: rest => Forall_cons x (IH x) (all rest)
                      end) conditions)
            end).
Qed.

(** A logic condition with sub-conditions evaluates them all, in order,
    and then combines their results. *)
Lemma stateful_evaluate_logic {State : Type} (op : LogicOperator)
    (conditions : list (Stateful.Condition State)) (d : Description)
    (data : DataFrame) (s : State) :
  conditions <> [] ->
  Stateful.evaluate (Stateful.Logic op conditions d) data s =
  match Stateful.evaluate_each conditions data s with
  | (Raise e, s') => (Raise e, s')
  | (Ok results, s') =>
      (combine_results op (length conditions) results, s')
  end.
Proof.
  intros Hne.
  destruct conditions as [|c0 rest]; [congruence|].
  cbn [Stateful.evaluate].
  set (all := fix evaluate_all (cs : list (Stateful.Condition State))
                (s : State) : result (list (list bool)) * State := _).
  assert (H : forall cs s, all cs s = Stateful.evaluate_each cs data s).
  { induction cs as [|c cs IH]; intros s0; [reflexivity|].
    cbn [Stateful.evaluate_each]. unfold all at 1. fold all.
    destruct (Stateful.evaluate c data s0) as [[r|e] s1]; [|reflexivity].
    now rewrite IH. }
  cbn [Stateful.evaluate_each].
  destruct (Stateful.evaluate c0 data s) as [[r|e] s1]; [|reflexivity].
  now rewrite H.
Qed.

(** A condition whose callables keep no state evaluates, from any state,
    to one result, and leaves the state as it is. *)
Lemma stateless_evaluate {State : Type} (c : Stateful.Condition State)
    (data : DataFrame) :
  Stateful.stateless c ->
  forall s s0,
    Stateful.evaluate c data s = (fst (Stateful.evaluate c data s0), s).
Proof.
  induction c as [column op value d | f sl t d | n pf d
                 | op conditions d IH] using stateful_condition_induction;
    intros Hs s s0.
  - reflexivity.
  - reflexivity.
  - inversion Hs as [| |? ? ? Hres Hstate|]; subst.
    cbn [Stateful.evaluate]. unfold Stateful.evaluate_pattern.
    rewrite (surjective_pairing (pf data s)),
      (surjective_pairing (pf data s0)).
    rewrite (Hres data s s0), !Hstate.
    now destruct (fst (pf data s0)).
  - inversion Hs as [| | |? ? ? Hall]; subst.
    destruct conditions as [|c0 rest]; [reflexivity|].
    assert (Heach : forall cs : list (Stateful.Condition State),
              Forall (fun c : Stateful.Condition State =>
                        Stateful.stateless c ->
                        forall s s0 : State,
                                 Stateful.evaluate c data s
                                 = (fst (Stateful.evaluate c data s0), s))
                cs ->
              Forall Stateful.stateless cs ->
              forall s s0 : State,
                Stateful.evaluate_each cs data s
                = (fst (Stateful.evaluate_each cs data s0), s)).
    { clear. induction cs as [|c cs IHcs]; intros IH Hall s s0;
        [reflexivity|].
      inversion IH as [|? ? Hc IHrest]; subst.
      inversion Hall as [|? ? Hsc Hsrest]; subst.
      cbn [Stateful.evaluate_each].
      rewrite (Hc Hsc s s0), (Hc Hsc s0 s0).
      destruct (fst (Stateful.evaluate c data s0)) as [r|e];
        [|reflexivity].
      rewrite (IHcs IHrest Hsrest s s0), (IHcs IHrest Hsrest s0 s0).
      now destruct (fst (Stateful.evaluate_each cs data s0)). }
    rewrite !stateful_evaluate_logic by discriminate.
    rewrite (Heach _ IH Hall s s0), (Heach _ IH Hall s0 s0).
    now destruct (fst (Stateful.evaluate_each (c0 :: rest) data s0)).
Qed.

(** A run reads the state and the logger through the evaluation of the
    condition only. *)
Lemma stateless_run {State : Type} (c : Stateful.Condition State)
    (data : DataFrame) (h : Z) (pc : string) :
  Stateful.stateless c ->
  forall s lg s0 lg0,
    value_of (Stateful.run_backtest data c h pc s lg)
    = value_of (Stateful.run_backtest data c h pc s0 lg0) /\
    state_of (Stateful.run_backtest data c h pc s lg) = s.
Proof.
  intros Hs s lg s0 lg0. unfold Stateful.run_backtest.
  destruct (empty data); [split; reflexivity|].
  destruct (negb (has_column data pc)); [split; reflexivity|].
  cbv zeta.
  pose proof (stateless_evaluate c data Hs s s0) as E1.
  pose proof (stateless_evaluate c data Hs s0 s0) as E2.
  set (r := fst (Stateful.evaluate c data s0)) in *.
  rewrite E1, E2.
  destruct r as [sigs|e]; [|split; reflexivity].
  destruct (negb (any sigs)); [split; reflexivity|].
  destruct (_calculate_signal_returns data sigs h pc)
    as [[[evs rets] hps]|e]; split; reflexivity.
Qed.

(** The conditions of the first model keep no state. *)
Lemma pure_condition_stateless {State : Type} (c : Condition) :
  Stateful.stateless (pure_condition (State := State) c).
Proof.
  induction c as [column op value d | f s t d | n pf d
                 | op conditions d IH] using Condition_induction;
    cbn [pure_condition]; try (constructor; reflexivity).
  - constructor. rewrite Forall_map. exact IH.
Qed.

(** Over them the two models agree. *)
Lemma pure_condition_evaluate {State : Type} (c : Condition)
    (data : DataFrame) (s : State) :
  Stateful.evaluate (pure_condition c) data s = (evaluate c data, s).
Proof.
  revert s.
  induction c as [column op value d | f sl t d | n pf d
                 | op conditions d IH] using Condition_induction;
    intros s; try reflexivity.
  - cbn [pure_condition Stateful.evaluate evaluate].
    unfold Stateful.evaluate_pattern, evaluate_pattern.
    now destruct (pf data).
  - destruct conditions as [|c0 rest]; [reflexivity|].
    cbn [pure_condition].
    rewrite stateful_evaluate_logic by discriminate.
    rewrite evaluate_logic by discriminate.
    assert (Heach : forall cs,
              Forall (fun c => forall s : State,
                        Stateful.evaluate (pure_condition c) data s
                        = (evaluate c data, s)) cs ->
              forall s : State,
                Stateful.evaluate_each (map pure_condition cs) data s
                = (comprehension (fun c => evaluate c data) cs, s)).
    { clear. induction cs as [|c cs IHcs]; intros IH s; [reflexivity|].
      inversion IH as [|? ? Hc IHrest]; subst.
      cbn [map Stateful.evaluate_each comprehension].
      rewrite Hc. destruct (evaluate c data) as [r|e]; [|reflexivity].
      rewrite (IHcs IHrest). cbn [rbind].
      now destruct (comprehension (fun c => evaluate c data) cs). }
    rewrite (Heach _ IH). rewrite length_map.
    now destruct (comprehension (fun c => evaluate c data) (c0 :: rest)).
Qed.

Lemma pure_condition_description {State : Type} (c : Condition) :
  Stateful.description (pure_condition (State := State) c) = description c.
Proof. now destruct c. Qed.

Lemma pure_condition_run {State : Type} (c : Condition) (data : DataFrame)
    (h : Z) (pc : string) (s : State) (lg : Logger) :
  Stateful.run_backtest data (pure_condition c) h pc s lg
  = (fst (run_backtest data c h pc lg), s,
     snd (run_backtest data c h pc lg)).
Proof.
  rewrite run_backtest_cases. unfold Stateful.run_backtest.
  destruct (empty data); [reflexivity|].
  destruct (negb (has_column data pc)); [reflexivity|].
  cbv zeta. rewrite pure_condition_evaluate.
  destruct (evaluate c data) as [sigs|e]; [|reflexivity].
  destruct (negb (any sigs)).
  { unfold Stateful._create_empty_result, _create_empty_result.
    now rewrite pure_condition_description. }
  destruct (_calculate_signal_returns data sigs h pc)
    as [[[evs rets] hps]|e]; [|reflexivity].
  unfold assemble_result. now rewrite pure_condition_description.
Qed.

(** C9, as stated, fails: the pattern function of a condition is any
    callable, and one that keeps a state makes two runs with the same
    arguments differ.  The callable of [Stateful.flickering] counts its
    calls: the first run finds a trigger at each of the ten rows, the
    second, with the same table, condition, holding period and price
    column, finds none; and two evaluations of the condition over the same
    table give two sequences. *)
Lemma stateful_pattern_breaks_determinism :
  let first :=
    Stateful.run_backtest january Stateful.flickering 3 "close" 0 [] in
  let second :=
    Stateful.run_backtest january Stateful.flickering 3 "close"
      (state_of first) (logger_of first) in
  (exists r1 r2,
     value_of first = Ok r1 /\ value_of second = Ok r2 /\
     total_signals r1 = 10 /\ total_signals r2 = 0) /\
  fst (Stateful.evaluate Stateful.flickering january 0)
  = Ok (repeat true 10) /\
  fst (Stateful.evaluate Stateful.flickering january 1)
  = Ok (repeat false 10).
Proof.
  cbv zeta. split; [|split; reflexivity].
  eexists. eexists.
  split; [vm_compute; reflexivity|]. split; [vm_compute; reflexivity|].
  split; reflexivity.
Qed.

(** C9, amended.  When the callables of the condition keep no state (as
    the comparisons, the crossings and the logic conditions over them do,
    having no callable at all), a run is a function of its arguments: the
    evaluation of the condition gives the same sequence, or the same
    failure, from every state and leaves the state as it is; the value of
    a run (its events, its returns and its statistics, or its exception)
    is the same from every state of the callables and of the logger; and a
    second run, started from what the first has left, returns what the
    first returned. *)
Theorem run_backtest_deterministic {State : Type}
    (c : Stateful.Condition State) (data : DataFrame) (h : Z)
    (pc : string) :
  Stateful.stateless c ->
  (forall s s0,
     fst (Stateful.evaluate c data s) = fst (Stateful.evaluate c data s0) /\
     snd (Stateful.evaluate c data s) = s) /\
  (forall s lg s0 lg0,
     value_of (Stateful.run_backtest data c h pc s lg)
     = value_of (Stateful.run_backtest data c h pc s0 lg0)) /\
  (forall s lg,
     let first := Stateful.run_backtest data c h pc s lg in
     let second :=
       Stateful.run_backtest data c h pc (state_of first)
         (logger_of first) in
     state_of first = s /\ value_of second = value_of first).
Proof.
  intros Hs. split; [|split].
  - intros s s0. now rewrite (stateless_evaluate c data Hs s s0).
  - intros s lg s0 lg0. apply (stateless_run c data h pc Hs).
  - intros s lg first second. subst first second. split.
    + apply (stateless_run c data h pc Hs s lg s lg).
    + apply (stateless_run c data h pc Hs).
Qed.

(** The marked row of the example table, run twice. *)
Lemma run_backtest_deterministic_witness :
  let c : Stateful.Condition nat := pure_condition on_mark in
  let first := Stateful.run_backtest january c 3 "close" 0 [] in
  let second :=
    Stateful.run_backtest january c 3 "close" (state_of first)
      (logger_of first) in
  state_of first = 0 /\ value_of second = value_of first /\
  value_of first = run_result january on_mark 3 "close".
Proof.
  intros c first second.
  destruct (run_backtest_deterministic c january 3 "close"
              (pure_condition_stateless on_mark)) as (_ & _ & H).
  destruct (H 0 []) as [Hstate Hvalue].
  split; [exact Hstate|]. split; [exact Hvalue|].
  subst first c. now rewrite pure_condition_run.
Defined.

(** ** The validator *)

Lemma existsb_eqb_In (x : string) (l : list string) :
  existsb (String.eqb x) l = true <-> In x l.
Proof.
  rewrite existsb_exists. split.
  - intros (y & Hy & E). apply String.eqb_eq in E. now subst.
  - intros H. exists x. split; [exact H | apply String.eqb_refl].
Qed.

(** The loop over the sub-conditions of a logic condition. *)
Lemma validate_logic (op : LogicOperator) (conditions : list Condition)
    (d : Description) (cols : list string) :
  Forall (fun c => Validation.valid (validate_condition c cols) = true ->
                   Validation.errors (validate_condition c cols) = [])
    conditions ->
  validate_condition (Logic op conditions d) cols =
  Validation.mk
    (forallb (fun c => Validation.valid (validate_condition c cols))
       conditions)
    (flat_map (fun c => Validation.errors (validate_condition c cols))
       conditions)
    (flat_map (fun c => Validation.warnings (validate_condition c cols))
       conditions).
Proof.
  intros Hsub. cbn [validate_condition].
  set (loop := fix loop (sub_conditions : list Condition)
                 (result : Validation.t) : Validation.t := _).
  assert (H : forall acc,
            loop conditions acc =
            Validation.mk
              (Validation.valid acc
               && forallb (fun c => Validation.valid
                                      (validate_condition c cols)) conditions)
              (Validation.errors acc
               ++ flat_map (fun c => Validation.errors
                                       (validate_condition c cols))
                    conditions)
              (Validation.warnings acc
               ++ flat_map (fun c => Validation.warnings
                                       (validate_condition c cols))
                    conditions)).
  { induction Hsub as [|c cs Hc _ IH]; intros [v es ws].
    - cbn. now rewrite andb_true_r, !app_nil_r.
    - cbn [loop]. unfold loop at 1. fold loop. cbv zeta.
      rewrite IH. cbn [forallb flat_map].
      destruct (Validation.valid (validate_condition c cols)) eqn:E;
        cbn [negb Validation.valid Validation.errors Validation.warnings
             andb].
      + rewrite (Hc eq_refl). cbn [app]. now rewrite <- !app_assoc.
      + rewrite andb_false_r. cbn [andb]. now rewrite <- !app_assoc. }
  rewrite H. reflexivity.
Qed.

(** What the validator answers, for any condition. *)
Lemma validate_condition_spec (cols : list string) (c : Condition) :
  let v := validate_condition c cols in
  (Validation.valid v = true <->
   Forall (fun col => In col cols) (referenced_columns c)) /\
  (Validation.valid v = true <-> Validation.errors v = []) /\
  Validation.warnings v = [].
Proof.
  induction c as [column op value d | f s t d | n pf d
                 | op conditions d IH] using Condition_induction;
    cbv zeta.
  - cbn [validate_condition referenced_columns].
    destruct (existsb (String.eqb column) cols) eqn:E; cbn.
    + apply existsb_eqb_In in E. repeat split; auto.
    + repeat split; try discriminate.
      intros H. inversion H as [|? ? Hin _]; subst.
      apply existsb_eqb_In in Hin. congruence.
  - cbn [validate_condition referenced_columns filter].
    destruct (existsb (String.eqb f) cols) eqn:Ef,
             (existsb (String.eqb s) cols) eqn:Es; cbn;
      repeat split; try discriminate; auto;
      try (intros H; inversion H as [|? ? Hf Hrest]; subst;
           inversion Hrest as [|? ? Hs _]; subst;
           apply existsb_eqb_In in Hf, Hs; congruence).
    apply existsb_eqb_In in Ef, Es. repeat constructor; assumption.
  - cbn. repeat split; auto.
  - rewrite validate_logic.
    2:{ eapply Forall_impl; [|exact IH]. cbv beta zeta.
        intros c (_ & H & _). apply H. }
    cbn [Validation.valid Validation.errors Validation.warnings
         referenced_columns].
    induction IH as [|c cs (Hv & He & Hw) _ IHcs]; cbn [forallb flat_map].
    + repeat split; auto.
    + destruct IHcs as (Hv' & He' & Hw').
      rewrite Hw, Hw'. rewrite andb_true_iff, Forall_app.
      split; [|split; [|reflexivity]].
      * rewrite Hv, Hv'. reflexivity.
      * split.
        -- intros [H1 H2]. apply He in H1. apply He' in H2.
           now rewrite H1, H2.
        -- intros H. apply app_eq_nil in H. destruct H as [H1 H2].
           split; [now apply He | now apply He'].
Qed.

(** X15. The validator accepts a condition exactly when every column its
    comparisons and crossings read, at any depth, is among the columns
    given; it reports an error exactly when it refuses, and never a
    warning.  Pattern functions, crossing directions and the number of
    sub-conditions of a NOT are not looked at. *)
Theorem validation_checks_the_columns (c : Condition) (cols : list string) :
  let v := validate_condition c cols in
  (Validation.valid v = true <->
   Forall (fun col => In col cols) (referenced_columns c)) /\
  (Validation.valid v = false <-> Validation.errors v <> []) /\
  Validation.warnings v = [].
Proof.
  destruct (validate_condition_spec cols c) as (Hv & He & Hw).
  cbv zeta. split; [exact Hv|]. split; [|exact Hw].
  destruct (Validation.valid (validate_condition c cols)).
  - split; [discriminate|]. intros H. exfalso. apply H. now apply He.
  - split; [|reflexivity]. intros _ H. apply He in H. discriminate.
Qed.

Lemma comprehension_not_ok {A B} (f : A -> result B) (l : list A) (x : A) :
  In x l -> is_ok (f x) = false -> is_ok (comprehension f l) = false.
Proof.
  induction l as [|y l IH]; [intros []|]. cbn [comprehension].
  intros [->|Hin] Hx.
  - now destruct (f x).
  - destruct (f y); [|reflexivity]. cbn [rbind].
    specialize (IH Hin Hx).
    now destruct (comprehension f l).
Qed.

(** X16. A condition the validator refuses for the columns of a table cannot be
    evaluated over that table: the evaluation raises. *)
Theorem refused_condition_does_not_evaluate (c : Condition)
    (data : DataFrame) :
  Validation.valid (validate_condition c (column_names data)) = false ->
  is_ok (evaluate c data) = false.
Proof.
  induction c as [column op value d | f s t d | n pf d
                 | op conditions d IH] using Condition_induction.
  - cbn [validate_condition evaluate]. unfold evaluate_numeric, has_column.
    destruct (existsb (String.eqb column) (column_names data));
      cbn; [discriminate | reflexivity].
  - cbn [validate_condition evaluate]. unfold evaluate_cross, has_column.
    destruct (filter _ [f; s]); cbn; [discriminate | reflexivity].
  - discriminate.
  - rewrite validate_logic.
    2:{ apply Forall_forall. intros c _.
        apply (validate_condition_spec (column_names data) c). }
    cbn [Validation.valid]. intros Hv.
    assert (Hbad : exists c, In c conditions /\
                     Validation.valid
                       (validate_condition c (column_names data)) = false).
    { clear IH. induction conditions as [|c cs IHcs]; [discriminate|].
      cbn [forallb] in Hv. apply andb_false_iff in Hv.
      destruct Hv as [Hc|Hcs].
      - exists c. split; [now left | exact Hc].
      - destruct (IHcs Hcs) as (c' & Hin & Hc').
        exists c'. split; [now right | exact Hc']. }
    destruct Hbad as (c & Hin & Hc).
    rewrite Forall_forall in IH. specialize (IH c Hin Hc).
    rewrite evaluate_logic
      by (destruct conditions; [destruct Hin | discriminate]).
    pose proof (comprehension_not_ok (fun c => evaluate c data)
                  conditions c Hin IH) as Hall.
    now destruct (comprehension (fun c => evaluate c data) conditions).
Qed.

Lemma refused_condition_does_not_evaluate_witness :
  is_ok (evaluate (LogicCondition OR [on_mark; malformed] "") january) = false.
Proof.
  apply refused_condition_does_not_evaluate. reflexivity.
Defined.

(** The parser only builds comparisons, AND and OR nodes of at least two
    sub-conditions and NOT nodes of one. *)
Lemma comprehension_forall {A B} (f : A -> result B) (P : B -> Prop)
    (l : list A) (ys : list B) :
  (forall x y, f x = Ok y -> P y) ->
  comprehension f l = Ok ys -> Forall P ys.
Proof.
  intros Hf H. apply comprehension_ok in H.
  induction H; constructor; eauto.
Qed.

Lemma parse_fuel_text (fuel : nat) :
  forall s c, parse_fuel fuel s = Ok c -> text_condition c.
Proof.
  induction fuel as [|fuel IH]; intros s c; cbn [parse_fuel];
    [discriminate|].
  unfold parse_body. cbv zeta. rewrite reraise_ok.
  destruct (Str.startswith (Str.strip s) "NOT ").
  { destruct (parse_fuel fuel _) as [c'|] eqn:E; cbn [rbind];
      [|discriminate].
    intros [= <-]. apply text_not. now apply IH in E. }
  destruct (Str.startswith (Str.strip s) "(" && Str.endswith (Str.strip s) ")").
  { apply IH. }
  destruct (Str.contains (Str.strip s) " AND ").
  { destruct (comprehension (parse_fuel fuel) _) as [l|] eqn:E;
      cbn [rbind]; [|discriminate].
    rewrite create_and_condition_ok. intros [Hlen ->].
    apply text_and; [exact Hlen|].
    eapply comprehension_forall; [|exact E]. exact IH. }
  destruct (Str.contains (Str.strip s) " OR ").
  { destruct (comprehension (parse_fuel fuel) _) as [l|] eqn:E;
      cbn [rbind]; [|discriminate].
    rewrite create_or_condition_ok. intros [Hlen ->].
    apply text_or; [exact Hlen|].
    eapply comprehension_forall; [|exact E]. exact IH. }
  intros H.
  destruct (parse_numeric_cases (Str.strip s))
    as [(column & op & value_str & value & _ & _ & P)
       |[(column & op & value_str & _ & _ & P) | [_ P]]];
    rewrite P in H; try discriminate.
  injection H as <-. apply text_comparison.
Qed.

Lemma series_not_length (a : list bool) : length (series_not a) = length a.
Proof. apply length_map. Qed.

Lemma children_evaluate (data : DataFrame) (conditions : list Condition) :
  Forall (fun c => exists sigs, evaluate c data = Ok sigs /\
                                length sigs = length (index data))
    conditions ->
  exists results,
    comprehension (fun c => evaluate c data) conditions = Ok results /\
    length results = length conditions /\
    Forall (fun r => length r = length (index data)) results.
Proof.
  induction 1 as [|c cs (r & Hr & Lr) _ (rs & Hrs & Lrs & Frs)].
  - exists []. repeat split; constructor.
  - exists (r :: rs). cbn [comprehension]. rewrite Hr, Hrs.
    repeat split; [cbn; lia | now constructor].
Qed.

(** A condition of the parser's making evaluates over a well-formed table
    that holds the columns it reads. *)
Lemma text_condition_evaluates (data : DataFrame) (c : Condition) :
  wf_table data -> text_condition c ->
  Forall (fun col => has_column data col = true) (referenced_columns c) ->
  exists sigs, evaluate c data = Ok sigs /\
               length sigs = length (index data).
Proof.
  intros Hwf.
  induction c as [column op value d | f s t d | n pf d
                 | op conditions d IH] using Condition_induction;
    intros Htext Hcols.
  - cbn [referenced_columns] in Hcols.
    inversion Hcols as [|? ? Hc _]; subst.
    cbn [evaluate]. unfold evaluate_numeric. rewrite Hc. cbn [negb].
    eexists. split; [reflexivity|]. rewrite length_map.
    now apply wf_column_length.
  - inversion Htext.
  - inversion Htext.
  - assert (Hsubs : Forall text_condition conditions /\ conditions <> [] /\
                    (op = NOT -> length conditions = 1)).
    { inversion Htext; subst; repeat split; auto;
        try (destruct conditions; [cbn in *; lia | discriminate]);
        try discriminate. }
    destruct Hsubs as (Hsubs & Hne & Hnot).
    cbn [referenced_columns] in Hcols.
    assert (Hres : exists results,
              comprehension (fun c => evaluate c data) conditions
                = Ok results /\
              length results = length conditions /\
              Forall (fun r => length r = length (index data)) results).
    { apply children_evaluate. apply Forall_forall. intros c Hin.
      rewrite Forall_forall in IH, Hsubs, Hcols.
      apply (IH c Hin (Hsubs c Hin)). apply Forall_forall.
      intros col Hcol. apply Hcols. apply in_flat_map. now exists c. }
    destruct Hres as (results & Hall & Hlen & Hlens).
    rewrite evaluate_logic by exact Hne. rewrite Hall. cbn [rbind].
    destruct results as [|r0 rs];
      [destruct conditions; [congruence | discriminate]|].
    inversion Hlens as [|? ? L0 Lrs]; subst.
    destruct op; cbn [combine_results].
    + eexists. split; [reflexivity|]. now apply fold_series_and.
    + eexists. split; [reflexivity|]. now apply fold_series_or.
    + rewrite (Hnot eq_refl). cbn [Nat.eqb negb].
      eexists. split; [reflexivity|]. now rewrite series_not_length.
Qed.

(** X17. Parsing, validating and evaluating fit together: a condition the
    parser returns and the validator accepts for the columns of a
    well-formed table evaluates over that table, to one boolean per row. *)
Theorem accepted_text_condition_evaluates (s : string) (c : Condition)
    (data : DataFrame) :
  ascii_only s = true ->
  wf_table data ->
  parse_condition_string s = Ok c ->
  Validation.valid (validate_condition c (column_names data)) = true ->
  exists sigs, evaluate c data = Ok sigs /\
               length sigs = length (index data).
Proof.
  intros _ Hwf Hparse Hvalid.
  apply (text_condition_evaluates data c Hwf).
  - exact (parse_fuel_text _ _ _ Hparse).
  - apply (proj1 (validate_condition_spec (column_names data) c)) in Hvalid.
    eapply Forall_impl; [|exact Hvalid]. cbv beta.
    intros col Hin. unfold has_column. now apply existsb_eqb_In.
Qed.

Lemma accepted_text_condition_evaluates_witness :
  exists c sigs,
    parse_condition_string "mark > 0.5 AND NOT fast >= 3" = Ok c /\
    evaluate c january = Ok sigs /\ length sigs = 10.
Proof.
  destruct (parse_condition_string "mark > 0.5 AND NOT fast >= 3")
    as [c|e] eqn:E; [|vm_compute in E; discriminate E].
  destruct (accepted_text_condition_evaluates
              "mark > 0.5 AND NOT fast >= 3" c january eq_refl january_wf E)
    as (sigs & Hev & Hlen).
  { vm_compute in E. injection E as <-. reflexivity. }
  exists c, sigs. auto.
Defined.

(** *** Lists of conditions *)

Lemma validate_list_loop_spec (cols : list string)
    (conditions : list Condition) :
  forall (i : nat) (acc : Validation.t),
  validate_list_loop conditions cols i acc =
  Validation.mk
    (Validation.valid acc
     && forallb (fun c => Validation.valid (validate_condition c cols))
          conditions)
    (Validation.errors acc
     ++ flat_map (labelled_errors cols)
          (combine (seq i (length conditions)) conditions))
    (Validation.warnings acc).
Proof.
  induction conditions as [|c conditions IH]; intros i [v es ws].
  - cbn. now rewrite andb_true_r, app_nil_r.
  - cbn [validate_list_loop]. cbv zeta. rewrite IH.
    destruct (validate_condition_spec cols c) as (_ & He & Hw).
    cbv zeta in He, Hw. rewrite Hw.
    cbn [length seq combine flat_map forallb map].
    unfold labelled_errors at 2. cbn [fst snd]. fold (position_label i).
    destruct (Validation.valid (validate_condition c cols)) eqn:E;
      cbn [negb Validation.valid Validation.errors Validation.warnings andb].
    + rewrite (proj1 He eq_refl). cbn [map app]. now rewrite app_nil_r.
    + rewrite andb_false_r, app_nil_r. cbn [andb]. now rewrite <- app_assoc.
Qed.

(** X18. [validate_condition_list] accepts a list exactly when every column read
    by one of its conditions is among the columns given.  Its errors are
    those of the conditions, in the order of the list, each behind the
    label of its condition, numbered from 1; it gives no warning. *)
Theorem validation_of_a_list (conditions : list Condition)
    (cols : list string) :
  let v := validate_condition_list conditions cols in
  (Validation.valid v = true <->
   Forall (fun c => Forall (fun col => In col cols) (referenced_columns c))
     conditions) /\
  Validation.errors v
  = flat_map (labelled_errors cols)
      (combine (seq 0 (length conditions)) conditions) /\
  Validation.warnings v = [].
Proof.
  cbv zeta. unfold validate_condition_list. rewrite validate_list_loop_spec.
  cbn [Validation.valid Validation.errors Validation.warnings andb app].
  split; [|split; reflexivity].
  rewrite forallb_forall, Forall_forall.
  split; intros H c Hin;
    apply (proj1 (validate_condition_spec cols c)); now apply H.
Qed.

(** ** How a run fails *)

(** X19. Over a well-formed table, with a condition that gives one boolean
    per row when it evaluates, and a holding period that either can be
    added to the timestamps of the table or is beyond the 999999999 days a
    duration can have, a run fails in four ways and no other: the table is
    empty, the price column is missing, the condition does not evaluate (a
    [ValueError] wraps the exception of the evaluation), or the condition
    has a trigger and the duration cannot be built, in which case the
    [OverflowError] of its constructor leaves the run.  With a holding
    period in range the fourth does not happen: nothing in the simulation
    of the trades raises. *)
Theorem run_fails_in_four_ways (data : DataFrame) (c : Condition) (h : Z)
    (pc : string) (e : exn) :
  wf_table data -> row_aligned c data ->
  holding_period_in_range data h = true \/ (999999999 < Z.abs h)%Z ->
  run_result data c h pc = Raise e <->
  (empty data = true /\ e = ValueError "输入数据为空") \/
  (empty data = false /\ has_column data pc = false /\
   e = ValueError ("数据中缺少价格列: " ++ pc)) \/
  (empty data = false /\ has_column data pc = true /\
   exists cause,
     evaluate c data = Raise cause /\
     e = ValueError ("计算条件信号失败: " ++ str_exn cause)) \/
  (empty data = false /\ has_column data pc = true /\
   exists sigs,
     evaluate c data = Ok sigs /\ any sigs = true /\
     timedelta h = Raise e).
Proof.
  intros Hwf Haligned Hh.
  destruct (empty data) eqn:He.
  { rewrite run_result_cases, He. split.
    - intros [= <-]. now left.
    - intros [[_ ->]|[(H & _)|[(H & _)|(H & _)]]];
        [reflexivity|discriminate..]. }
  destruct (has_column data pc) eqn:Hc.
  2:{ rewrite run_result_cases, He, Hc. cbn [negb]. split.
      - intros [= <-]. right. now left.
      - intros [[H _]|[(_ & _ & ->)|[(_ & H & _)|(_ & H & _)]]];
          [discriminate|reflexivity|discriminate..]. }
  destruct (evaluate c data) as [sigs|cause] eqn:Hev.
  2:{ rewrite run_result_cases, He, Hc, Hev. cbn [negb]. split.
      - intros [= <-]. right. right. left. repeat split.
        now exists cause.
      - intros [[H _]|[(_ & H & _)|[(_ & _ & cause' & [= <-] & ->)
                                   |(_ & _ & sigs & H & _)]]];
          [discriminate..|reflexivity|discriminate]. }
  destruct (any sigs) eqn:Ha.
  2:{ rewrite run_result_cases, He, Hc, Hev, Ha. cbn [negb]. split.
      - discriminate.
      - intros [[H _]|[(_ & H & _)|[(_ & _ & cause & H & _)
                                   |(_ & _ & sigs' & [= <-] & H & _)]]];
          congruence. }
  destruct Hh as [Hh|Hh].
  - destruct (run_succeeds data c h pc sigs Hwf He Hc
                (holding_period_in_range_days data h Hh) Hev) as [r Hr].
    rewrite Hr. split; [discriminate|].
    intros [[H _]|[(_ & H & _)|[(_ & _ & cause & H & _)
                                |(_ & _ & sigs' & _ & _ & H)]]];
      try discriminate.
    rewrite (timedelta_ok h (holding_period_in_range_days data h Hh)) in H.
    discriminate.
  - destruct (timedelta_overflow h Hh) as [msg Hdays].
    rewrite run_result_cases, He, Hc, Hev, Ha. cbn [negb].
    unfold _calculate_signal_returns.
    rewrite (signal_returns_loop_overflow data h pc _ Hwf Hc Hdays
               (signal_dates_of data sigs)
               (signal_dates_in_index data sigs)
               (signal_dates_any data sigs Ha (Haligned sigs Hev))).
    split.
    + intros [= <-]. right. right. right. repeat split.
      exists sigs. now rewrite Hdays.
    + intros [[H _]|[(_ & H & _)|[(_ & _ & cause & H & _)
                                  |(_ & _ & sigs' & _ & _ & H)]]];
        try discriminate.
      congruence.
Qed.

(** A holding period of a thousand million days: the run of a condition
    with a trigger fails with the error of the constructor. *)
Lemma run_fails_in_four_ways_witness :
  run_result january on_mark 1000000000 "close"
  = Raise (OtherException "OverflowError"
             "days=1000000000; must have magnitude <= 999999999") /\
  run_result january malformed 5 "close"
  = Raise (ValueError "计算条件信号失败: 数据中缺少列: RSI_99").
Proof.
  split.
  - apply (run_fails_in_four_ways january on_mark 1000000000 "close" _
             january_wf).
    + intros sigs H. vm_compute in H. injection H as <-. reflexivity.
    + right. cbn. lia.
    + right. right. right. repeat split.
      eexists. split; [vm_compute; reflexivity | split; reflexivity].
  - apply (run_fails_in_four_ways january malformed 5 "close" _ january_wf).
    + intros sigs H. vm_compute in H. discriminate H.
    + left. reflexivity.
    + right. right. left. repeat split.
      exists (ValueError "数据中缺少列: RSI_99"). split; reflexivity.
Defined.

(** ** Rolling windows *)

Lemma window_failures_app (l1 l2 : PerformanceLogger) :
  window_failures (l1 ++ l2) = window_failures l1 ++ window_failures l2.
Proof. apply flat_map_app. Qed.

Lemma window_failures_analyzer (records : Logger) :
  window_failures
    (map (fun rec => (fst rec, AnalyzerRecord (snd rec))) records) = [].
Proof. induction records as [|r records IH]; [reflexivity | exact IH]. Qed.

(** A simple backtest returns what a run with a holding period of five
    days returns, and records no failed window. *)
Lemma run_simple_backtest_spec (data : DataFrame) (c : Condition)
    (lg : PerformanceLogger) :
  exists entries,
    _run_simple_backtest data c lg
    = (run_result data c 5 "close", lg ++ entries) /\
    window_failures entries = [].
Proof.
  unfold _run_simple_backtest, run_result.
  destruct (run_backtest data c 5 "close" []) as [r records].
  eexists. split; [reflexivity | apply window_failures_analyzer].
Qed.

(** The loop keeps a row for every position whose window can be run, and
    records a failure for every other position. *)
Lemma rolling_loop_spec (data : DataFrame) (c : Condition) (w : nat)
    (positions : list nat) :
  forall (rows : list Rolling.row) (lg : PerformanceLogger),
  exists entries,
    rolling_loop data c w positions rows lg
    = (rows ++ flat_map (rolling_row data c w) positions, lg ++ entries) /\
    length (flat_map (rolling_row data c w) positions)
      + length (window_failures entries) = length positions.
Proof.
  induction positions as [|i positions IH]; intros rows lg.
  - exists []. cbn. now rewrite !app_nil_r.
  - cbn [rolling_loop flat_map]. cbv zeta.
    destruct (run_simple_backtest_spec (iloc_slice data (i - w) i) c lg)
      as (e1 & -> & Hf1).
    assert (Hrow : rolling_row data c w i
                   = match run_result (iloc_slice data (i - w) i) c 5
                             "close" with
                     | Ok r => [Rolling.mk (nth i (index data) 0%Z)
                                  (win_rate r) (avg_return r)
                                  (total_signals r)]
                     | Raise _ => []
                     end) by reflexivity.
    rewrite Hrow. clear Hrow.
    destruct (run_result (iloc_slice data (i - w) i) c 5 "close")
      as [r|e].
    + destruct (IH (rows ++ [Rolling.mk (nth i (index data) 0%Z)
                               (win_rate r) (avg_return r)
                               (total_signals r)]) (lg ++ e1))
        as (e2 & -> & Hcount).
      exists (e1 ++ e2).
      rewrite <- !app_assoc, window_failures_app, Hf1, length_app.
      cbn [app length] in *. split; [reflexivity | lia].
    + destruct (IH rows ((lg ++ e1) ++ [(WARNING, WindowFailed e)]))
        as (e2 & -> & Hcount).
      exists (e1 ++ (WARNING, WindowFailed e) :: e2).
      rewrite <- !app_assoc, window_failures_app, Hf1.
      cbn [app length window_failures flat_map snd] in *.
      split; [reflexivity|].
      fold (window_failures e2). lia.
Qed.

(** An empty window cannot be run. *)
Lemma rolling_row_empty_window (data : DataFrame) (c : Condition)
    (i : nat) :
  rolling_row data c 0 i = [].
Proof.
  unfold rolling_row. rewrite run_result_cases.
  replace (empty (iloc_slice data (i - 0) i)) with true; [reflexivity|].
  unfold empty, iloc_slice. cbn [index].
  now rewrite Nat.sub_0_r, Nat.sub_diag.
Qed.

(** With enough rows for a window, [calculate_rolling_performance] does not
    raise. *)
Lemma rolling_performance_runs (data : DataFrame) (c : Condition)
    (window_size : nat) (lg : PerformanceLogger) :
  let n := length (index data) in
  let rows :=
    flat_map (rolling_row data c window_size)
      (seq window_size (n - window_size)) in
  window_size <= n ->
  exists entries,
    calculate_rolling_performance data c window_size lg
    = (Ok rows, lg ++ entries) /\
    length rows + length (window_failures entries) = n - window_size.
Proof.
  cbv zeta. intros Hle. unfold calculate_rolling_performance.
  apply Nat.ltb_ge in Hle. rewrite Hle.
  destruct (rolling_loop_spec data c window_size
              (seq window_size (length (index data) - window_size)) [] lg)
    as (entries & -> & Hcount).
  exists entries. split; [reflexivity|].
  now rewrite length_seq in Hcount.
Qed.

(** X20. [calculate_rolling_performance] refuses a table with fewer rows than
    the window, with a [ValueError] that gives both numbers.  Otherwise it
    does not raise: it returns, in order, one row for every position from
    [window_size] to the last whose window (the [window_size] rows before
    the position, the row of the position not included) can be run, dated
    by the row of the position; a window that cannot be run is recorded as
    failed and gives no row.  A table of exactly [window_size] rows gives no
    row, and so does a window of no rows at all. *)
Theorem rolling_skips_failed_windows (data : DataFrame) (c : Condition)
    (window_size : nat) (lg : PerformanceLogger) :
  let n := length (index data) in
  let rows :=
    flat_map (rolling_row data c window_size)
      (seq window_size (n - window_size)) in
  (n < window_size ->
   calculate_rolling_performance data c window_size lg
   = (Raise (ValueError ("数据长度 " ++ str_nat n ++ " 小于窗口大小 "
                         ++ str_nat window_size)), lg)) /\
  (window_size <= n ->
   exists entries,
     calculate_rolling_performance data c window_size lg
     = (Ok rows, lg ++ entries) /\
     length rows + length (window_failures entries) = n - window_size) /\
  (window_size = n \/ window_size = 0 -> rows = []).
Proof.
  cbv zeta. split; [|split].
  - intros Hlt. unfold calculate_rolling_performance.
    apply Nat.ltb_lt in Hlt. now rewrite Hlt.
  - apply rolling_performance_runs.
  - intros [->| ->].
    + now rewrite Nat.sub_diag.
    + induction (seq 0 (length (index data) - 0)) as [|i l IH];
        [reflexivity|].
      cbn [flat_map]. now rewrite rolling_row_empty_window, IH.
Qed.

Lemma rolling_skips_failed_windows_witness :
  calculate_rolling_performance january_gap on_mark 8 []
  = (Raise (ValueError "数据长度 7 小于窗口大小 8"), []) /\
  (exists entries,
     calculate_rolling_performance january malformed 3 []
     = (Ok [], entries) /\
     length (window_failures entries) = 7) /\
  flat_map (rolling_row january on_mark 10) (seq 10 (10 - 10)) = [].
Proof.
  split; [|split].
  - apply (proj1 (rolling_skips_failed_windows january_gap on_mark 8 [])).
    cbn. lia.
  - destruct (proj1 (proj2
               (rolling_skips_failed_windows january malformed 3 [])))
      as (entries & Hrun & Hcount); [cbn; lia|].
    exists entries. split; [exact Hrun | exact Hcount].
  - apply (proj2 (proj2
             (rolling_skips_failed_windows january on_mark 10 []))).
    now left.
Defined.

(** *** Windows of a well-formed table *)












